(* ===== verification/_CoqProject ===== *)
-Q . S2P
Prelude.v
Storage.v
BufferMgr.v
FrameList.v
BufferPool.v
Records.v
Pages.v
RecordMgr.v
Table.v
