(* ===== verification/Prelude.v ===== *)
(** * A verification library for the lightweight database engine

    The program (three C files under [src/src/]) is a single-file record
    manager in three layers, leaves first:

    - [storage_mgr.c], the storage substrate: a page file is an 8-byte
      header (two host-order [int]s: the page count and a cursor) followed
      by [PAGE_SIZE]-byte pages. Pages are read, written and appended
      through a file handle that caches the page count and a cursor.
    - [buffer_mgr.c], the buffer pool: [numPages] frames, malloc'ed one by
      one and chained into an intrusive doubly linked list (a ring under
      CLOCK). Pages are pinned and unpinned; a miss picks a victim by FIFO,
      LRU or CLOCK and reads the page over the victim's buffer.
    - [record_mgr.c], the record manager: a schema on page 0, slotted data
      pages with one tombstone byte per slot, a free-page list threaded
      through the data pages, and scans.

    ** Files of the library, in dependency order

    - [Prelude] (this file): what every layer shares. Return codes [RC];
      the three-valued [outcome] monad ([Done], [Fault] for a NULL
      dereference, [Diverge] for a loop that never exits) with its notation
      in [outcome_scope]; C [int] arithmetic with wrap-around ([int_wrap]);
      bytes and the little-endian [int] encoding ([encode_int],
      [decode_int]); [memcpy] on byte lists ([read_bytes], [write_bytes],
      and [mem_read], [mem_write], which fault outside the buffer);
      the hint databases [dbms] and [len] and the tactics built on them.
    - [Storage], Module [SM]: [storage_mgr.c]. The file system is a
      [gmap string (list byte)]; a file is its raw bytes, and every
      [fseek]/[fread]/[fwrite] of the source is a function on that byte
      list at the offset the source computes ([OFFSET_page]). One
      definition per function of the file.
    - [BufferMgr], Module [BM]: [buffer_mgr.c] at the level of pointers.
      The heap is an arena [frames : list Frame] (a [Frame*] is an index,
      NULL is [None]) and a store of page buffers [bufs]; every
      [frame->prev->next = ...] of the source is a guarded update of the
      arena, so that a NULL dereference is the value [Fault] and can be
      proved to happen or not to happen. One definition per function of
      the file and per loop; the file holds definitions only.
    - [FrameList], Module [FL]: the doubly linked list of frames. The
      segment predicate [dseg fr p q l r s] says that the heap [fr] links
      the addresses [l] in this order, from [p] (whose [prev] is [q]) to
      [r] (whose [next] is [s]); its lemmas (split, frame, update of an
      end) are those of a separation-logic list segment. On top of it: what
      the search loop [findFrame] finds ([holder]), where the backward
      walk [victim_walk] stops ([pick]) or that it never stops, and what
      the relinking [moveToHead] does to the order of the list.
    - [BufferPool], Module [BP]: the pool invariant [pool_ok w p q l]
      (the frames of [p] are one list in the order [l] whose head has
      [prev = q]; frame [a] owns buffer [a], a page of bytes; the file
      handle is well formed in the world [w]) and the theorems on
      [initBufferPool], [pinPage], [unpinPage], [markDirty] and
      [forcePage]; a client ([run_bm_ops]) and the scenarios.

    - [Records], Module [REC]: the part of [record_mgr.c] that works on a
      schema or a record in memory ([getRecordSize], [createSchema],
      [createRecord], [getAttr], [setAttr]), one definition per function
      and per loop.
    - [Pages], Module [PG]: the bytes of a data page ([RM_ScanTuple] over
      the buffer, slots and tombstones, [findFreeSlot]) and of the table
      header ([header_page], [parse_header]).
    - [RecordMgr], Module [RM]: the functions of [record_mgr.c] on tables,
      records and scans, on the pool of [BufferMgr] and the files of
      [Storage]; a pointer into a page buffer is the index of its frame, so
      aliasing handles share bytes. Definitions only.
    - [Table], Module [TB]: a client of the record manager (a table
      created and opened, a list of calls, scans, closing and reopening)
      and the theorems about its runs.

    ** What the theorems show

    - Prelude: the byte encoding of an [int] round-trips; [write_bytes]
      then [read_bytes] returns what was written and leaves the rest alone.
    - Storage: a well-formed handle stays well-formed ([handle_ok] is an
      invariant of every sequence of operations, which all terminate);
      [writeBlock] then [readBlock] returns the page and every other page
      is as before; [appendEmptyBlock] adds exactly one page in memory and
      in the header; [ensureCapacity] terminates, appends exactly the
      missing pages and is idempotent; reads out of range return the
      error code and change nothing; the cursor is left past the end by a
      write of the last page; [OFFSET_page] overflows from 2^19 pages on.
    - FrameList and BufferPool: [initBufferPool] establishes [pool_ok]
      with [numPages] empty frames (and the ring under CLOCK). On a
      well-formed pool, [pinPage] of a resident page under FIFO pins the
      frame and changes nothing else; under LRU it also moves the frame to
      the front, leaving [head->prev] stale unless the frame was the
      tail, and it dereferences NULL when the frame is the head. A miss
      under FIFO or LRU with the tail unpinned reads the page into the
      tail frame, counts the read and moves the frame to the front,
      preserving [pool_ok]; with every frame behind the head pinned it
      dereferences NULL; with a stale [head->prev] and every frame pinned
      it never returns. [unpinPage] and [markDirty] have their functional
      specification on clean, dirty and unpinned frames, and preserve
      [pool_ok]. The scenarios of the specification are theorems about
      runs of the client on a file of six pages.
    - Records: [getRecordSize] is the wrapped sum of the lengths;
      [createSchema] builds the schema in closed form; [setAttr] then
      [getAttr] returns the bytes written and no other attribute changes;
      an unknown data type and a string shorter than its attribute are
      faults.
    - Pages: for a schema [createTable] accepts, the slots of a page lie
      side by side inside it, behind the links; the write of a slot
      followed by its read returns the record and changes no other slot
      and no link; [findFreeSlot] is the first slot that is not live;
      clearing a tombstone frees the slot and keeps its bytes; the header
      page of a schema of at most 53 attributes round-trips through the
      parse of [openTable].
    - Table: the two scenarios of the specification on records (three
      inserts and a [getRecord]; the reuse of a deleted slot), a scan in
      the order of the ids, and the runs on which the code leaves the
      specification: a full page that stays on the free-page list, a free
      slot that the list loses, a record deleted twice, the free-page
      list forgotten by [closeTable], a scan after a delete, a scan that
      leaves a page pinned.

    ** Platform assumptions, bounds and fuel

    [sizeof(int) = 4], [sizeof(char) = 1], [char] is signed, [size_t] and
    [long] are 64 bits, integers are little-endian (the source writes them
    in host order), and signed overflow wraps. [PAGE_SIZE] is 4096, the
    value of the header [dberror.h], which is not under [src/].
    Counted loops ([for (i = 0; i < pgCnt; i++)]) are [Fixpoint]s on the
    number of iterations, so they need no fuel. The one unbounded loop of
    the buffer pool ([while (frame->prev != NULL)]) walks an unchanging
    heap, so its state is the pointer alone: it is run for [length frames]
    steps, after which a pointer has repeated and the loop is known never
    to exit; that is the value [Diverge] (lemma [victim_walk_diverges]
    shows the cycle for every amount of fuel). The loop of
    [ensureCapacity] ([while (totalNumPages < numberOfPages)]) runs on the
    number of missing pages as fuel, which theorem
    [ensureCapacity_idempotent] shows to be enough on a well-formed
    handle. The examples of the pool run on a file of six pages and pools
    of three frames, the size of the scenarios of the specification; the
    sessions on a table run on the pool of 1000 frames of [openTable],
    with records of 8 bytes (314 slots to the page) or of 2004 bytes (two
    slots to the page, so that a page fills after two inserts).

    ** What is not modelled

    Failures of the operating system ([fopen "wb"], [fseek] to a valid
    offset, [fclose], [malloc] returning NULL), the user-space buffering of
    [stdio], and [free] (a freed frame is removed from the arena at
    [shutdownBufferPool]; the read of [frame->next] after [free(frame)] is
    not tracked). Uninitialised pointers are modelled as NULL and
    uninitialised arrays as arrays of zeros; an [assert] that fails is a
    fault. The expression evaluator [evalExpr] is outside [src/]: a scan
    condition is the boolean function it computes. The loop of [next]
    runs on the number of records between the cursor and [recCnt]
    (modulo 2^32), the most it can visit before the two counters meet.
    [sizeof(bool)] is taken as 2 ([dt.h] is outside [src/]). The
    serializer [rm_serializer.c] and the headers are outside [src/]. *)

From Stdlib Require Import ZArith Lia.
From Stdlib Require Import Strings.Byte.
From stdpp Require Import base option list numbers.

#[local] Open Scope Z_scope.

(** ** Return codes ([dberror.h]) *)

Inductive RC : Set :=
| RC_OK
| RC_FILE_NOT_FOUND
| RC_FILE_HANDLE_NOT_INIT
| RC_WRITE_FAILED
| RC_READ_NON_EXISTING_PAGE
| RC_BM_NULL_FRAME
| RC_BM_NULL_BUFFER
| RC_BM_NULL_PGFILE
| RC_BM_NULL_PAGE
| RC_RM_LARGE_SCHEMA
| RC_RM_LARGE_RECORD
| RC_RM_INSERT_FAILED
| RC_RM_DELETE_FAILED
| RC_RM_UPDATE_FAILED
| RC_RM_NO_MORE_TUPLES.

#[export] Instance RC_eq_dec : EqDecision RC.
Proof. solve_decision. Defined.

(** ** Outcomes of an operation

    [Done a]: the operation returned [a]. [Fault]: it dereferenced NULL (or
    a dangling pointer). [Diverge]: it entered a loop that never exits. *)

Inductive outcome (A : Type) : Type :=
| Done (a : A)
| Fault
| Diverge.

Arguments Done {A} a.
Arguments Fault {A}.
Arguments Diverge {A}.

Definition obind {A B : Type} (m : outcome A) (f : A -> outcome B) : outcome B :=
  match m with
  | Done a => f a
  | Fault => Fault
  | Diverge => Diverge
  end.

Definition omap {A B : Type} (f : A -> B) (m : outcome A) : outcome B :=
  obind m (fun a => Done (f a)).

(** A pointer that must not be NULL: [None] faults. *)
Definition of_ptr {A : Type} (p : option A) : outcome A :=
  match p with
  | Some a => Done a
  | None => Fault
  end.

Definition is_Done {A : Type} (m : outcome A) : Prop :=
  exists a, m = Done a.

Declare Scope outcome_scope.
Delimit Scope outcome_scope with out.

Notation "x <- m ;; k" := (obind m (fun x => k))
  (at level 100, m at next level, right associativity) : outcome_scope.

#[export] Instance outcome_eq_dec {A : Type} `{EqDecision A} : EqDecision (outcome A).
Proof. solve_decision. Defined.

(** ** C integers

    [int] is 32 bits and wraps; [size_t] is 64 bits. *)

Definition INT_MAX : Z := 2147483647.
Definition INT_MIN : Z := -2147483648.

Definition int_wrap (z : Z) : Z := (z + 2147483648) mod 4294967296 - 2147483648.

Definition in_int (z : Z) : Prop := INT_MIN <= z <= INT_MAX.

Definition size_t_wrap (z : Z) : Z := z mod 18446744073709551616.

Definition int_add (a b : Z) : Z := int_wrap (a + b).
Definition int_sub (a b : Z) : Z := int_wrap (a - b).
Definition int_mul (a b : Z) : Z := int_wrap (a * b).

#[export] Instance in_int_dec (z : Z) : Decision (in_int z).
Proof. unfold in_int. apply _. Defined.

(** ** Pages and bytes *)

Definition PAGE_SIZE : nat := 4096.

Definition zero_bytes (n : nat) : list byte := replicate n x00.

Definition byte_of_Z (z : Z) : byte :=
  default x00 (Byte.of_N (Z.to_N (z mod 256))).

Definition Z_of_byte (b : byte) : Z := Z.of_N (Byte.to_N b).

(** The value of a byte read through a [char*] ([char] is signed). *)
Definition schar_of_byte (b : byte) : Z :=
  if Z_of_byte b <? 128 then Z_of_byte b else Z_of_byte b - 256.

#[export] Instance byte_eq_dec : EqDecision byte := Byte.byte_eq_dec.

(** An [int] as its four bytes in memory, least significant first. *)
Definition encode_int (z : Z) : list byte :=
  [byte_of_Z z; byte_of_Z (z / 256); byte_of_Z (z / 65536); byte_of_Z (z / 16777216)].

Definition decode_int (bs : list byte) : Z :=
  int_wrap (Z_of_byte (nth 0 bs x00)
            + 256 * Z_of_byte (nth 1 bs x00)
            + 65536 * Z_of_byte (nth 2 bs x00)
            + 16777216 * Z_of_byte (nth 3 bs x00)).

(** ** [memcpy] on byte lists

    [read_bytes off n buf] is the [n] bytes of [buf] from [off];
    [write_bytes off src buf] overwrites [buf] from [off] with [src]. A
    write that stays inside the buffer keeps its length. *)

Definition read_bytes (off n : nat) (buf : list byte) : list byte :=
  take n (drop off buf).

Definition write_bytes (off : nat) (src buf : list byte) : list byte :=
  take off buf ++ src ++ drop (off + length src) buf.

Definition load_int (off : nat) (buf : list byte) : Z :=
  decode_int (read_bytes off 4 buf).

Definition store_int (off : nat) (z : Z) (buf : list byte) : list byte :=
  write_bytes off (encode_int z) buf.

(** ** Checked [memcpy]

    A copy that leaves the buffer is a fault: [mem_read off n buf] reads
    [n] bytes at [off] (a negative [n] is a huge [size_t]), [mem_write off
    src buf] overwrites them. *)

Definition mem_read (off n : Z) (buf : list byte) : outcome (list byte) :=
  if (0 <=? off) && (0 <=? n) && (off + n <=? Z.of_nat (length buf))
  then Done (read_bytes (Z.to_nat off) (Z.to_nat n) buf)
  else Fault.

Definition mem_write (off : Z) (src buf : list byte) : outcome (list byte) :=
  if (0 <=? off) && (off + Z.of_nat (length src) <=? Z.of_nat (length buf))
  then Done (write_bytes (Z.to_nat off) src buf)
  else Fault.

(** ** Automation *)

Create HintDb dbms discriminated.
Create Rewrite HintDb dbms.
Create Rewrite HintDb len.

#[export] Hint Rewrite @length_app @length_take @length_drop @length_replicate
  @length_insert @length_alter @length_fmap @length_cons @length_nil : len.

(** [len] normalises lengths and closes the arithmetic that remains. *)
Ltac len := autorewrite with len in *; try lia.

(** [Ztest] decides the integer tests of the goal that [lia] can decide
    from the context. *)
Ltac Ztest :=
  repeat match goal with
  | |- context [Z.leb ?a ?b] =>
      first [ rewrite (proj2 (Z.leb_le a b)) by lia
            | rewrite (proj2 (Z.leb_gt a b)) by lia ]
  | |- context [Z.ltb ?a ?b] =>
      first [ rewrite (proj2 (Z.ltb_lt a b)) by lia
            | rewrite (proj2 (Z.ltb_ge a b)) by lia ]
  | |- context [Z.eqb ?a ?b] =>
      first [ rewrite (proj2 (Z.eqb_eq a b)) by lia
            | rewrite (proj2 (Z.eqb_neq a b)) by lia ]
  end.

(** [case_outcome] splits on the scrutinee of the first [obind] or [match]
    of the goal, keeping the equation. *)
Ltac case_outcome :=
  match goal with
  | |- context [obind ?m _] =>
      let E := fresh "E" in destruct m eqn:E; simpl
  | |- context [match ?m with _ => _ end] =>
      let E := fresh "E" in destruct m eqn:E; simpl
  end.

(** ** Lemmas: outcomes *)

Lemma obind_Done {A B : Type} (a : A) (f : A -> outcome B) :
  obind (Done a) f = f a.
Proof. reflexivity. Qed.

Lemma obind_Done_inv {A B : Type} (m : outcome A) (f : A -> outcome B) (b : B) :
  obind m f = Done b -> exists a, m = Done a /\ f a = Done b.
Proof. destruct m; simpl; intros H; try discriminate. eauto. Qed.

Lemma obind_assoc {A B C : Type} (m : outcome A) (f : A -> outcome B) (g : B -> outcome C) :
  obind (obind m f) g = obind m (fun a => obind (f a) g).
Proof. destruct m; reflexivity. Qed.

Lemma obind_ret {A : Type} (m : outcome A) : obind m Done = m.
Proof. destruct m; reflexivity. Qed.

Lemma of_ptr_Done {A : Type} (p : option A) (a : A) :
  of_ptr p = Done a <-> p = Some a.
Proof. destruct p; simpl; split; intros H; congruence. Qed.

(** ** Lemmas: integers *)

Lemma int_wrap_small (z : Z) : in_int z -> int_wrap z = z.
Proof.
  unfold in_int, INT_MIN, INT_MAX, int_wrap. intros H.
  rewrite Z.mod_small; lia.
Qed.

Lemma int_wrap_range (z : Z) : in_int (int_wrap z).
Proof.
  unfold in_int, INT_MIN, INT_MAX, int_wrap.
  pose proof (Z.mod_pos_bound (z + 2147483648) 4294967296). lia.
Qed.

Lemma int_wrap_idemp (z : Z) : int_wrap (int_wrap z) = int_wrap z.
Proof. apply int_wrap_small, int_wrap_range. Qed.

Lemma int_wrap_add_l (a b : Z) : int_wrap (int_wrap a + b) = int_wrap (a + b).
Proof.
  unfold int_wrap. f_equal.
  replace ((a + 2147483648) mod 4294967296 - 2147483648 + b + 2147483648)
    with ((a + 2147483648) mod 4294967296 + b) by lia.
  replace (a + b + 2147483648) with (a + 2147483648 + b) by lia.
  by rewrite Zplus_mod_idemp_l.
Qed.

Lemma int_add_small (a b : Z) : in_int (a + b) -> int_add a b = a + b.
Proof. apply int_wrap_small. Qed.

Lemma int_sub_small (a b : Z) : in_int (a - b) -> int_sub a b = a - b.
Proof. apply int_wrap_small. Qed.

(** ** Lemmas: bytes *)

Lemma Z_of_byte_range (b : byte) : 0 <= Z_of_byte b < 256.
Proof.
  unfold Z_of_byte. pose proof (Byte.to_N_bounded b). lia.
Qed.

Lemma Z_of_byte_of_Z (z : Z) : Z_of_byte (byte_of_Z z) = z mod 256.
Proof.
  unfold Z_of_byte, byte_of_Z.
  pose proof (Z.mod_pos_bound z 256 ltac:(lia)) as Hr.
  destruct (Byte.of_N (Z.to_N (z mod 256))) as [b|] eqn:E; simpl.
  - apply Byte.to_of_N in E. rewrite E. lia.
  - apply Byte.of_N_None_iff in E. lia.
Qed.

Lemma byte_of_Z_of_byte (b : byte) : byte_of_Z (Z_of_byte b) = b.
Proof.
  unfold Z_of_byte, byte_of_Z.
  pose proof (Byte.to_N_bounded b).
  rewrite Z.mod_small by lia. rewrite N2Z.id, Byte.of_to_N. reflexivity.
Qed.

Lemma Z_of_byte_inj (b1 b2 : byte) : Z_of_byte b1 = Z_of_byte b2 -> b1 = b2.
Proof.
  intros H. rewrite <- (byte_of_Z_of_byte b1), <- (byte_of_Z_of_byte b2).
  congruence.
Qed.

Lemma schar_of_byte_range (b : byte) : -128 <= schar_of_byte b < 128.
Proof.
  unfold schar_of_byte. pose proof (Z_of_byte_range b).
  destruct (Z.ltb_spec (Z_of_byte b) 128); lia.
Qed.

Lemma length_encode_int (z : Z) : length (encode_int z) = 4%nat.
Proof. reflexivity. Qed.

Lemma decode_encode_int (z : Z) : decode_int (encode_int z) = int_wrap z.
Proof.
  unfold decode_int, encode_int. simpl nth.
  rewrite !Z_of_byte_of_Z. unfold int_wrap. f_equal.
  Z.div_mod_to_equations. lia.
Qed.

Lemma decode_encode_int_small (z : Z) : in_int z -> decode_int (encode_int z) = z.
Proof. intros H. rewrite decode_encode_int. apply int_wrap_small, H. Qed.

Lemma decode_int_range (bs : list byte) : in_int (decode_int bs).
Proof. apply int_wrap_range. Qed.

Lemma encode_decode_int (b0 b1 b2 b3 : byte) :
  encode_int (decode_int [b0; b1; b2; b3]) = [b0; b1; b2; b3].
Proof.
  unfold decode_int, encode_int. simpl nth.
  pose proof (Z_of_byte_range b0). pose proof (Z_of_byte_range b1).
  pose proof (Z_of_byte_range b2). pose proof (Z_of_byte_range b3).
  repeat f_equal; apply Z_of_byte_inj; rewrite Z_of_byte_of_Z;
    unfold int_wrap; Z.div_mod_to_equations; lia.
Qed.

(** ** Lemmas: [memcpy] *)

Lemma length_zero_bytes (n : nat) : length (zero_bytes n) = n.
Proof. apply length_replicate. Qed.

Lemma length_read_bytes (off n : nat) (buf : list byte) :
  (off + n <= length buf)%nat -> length (read_bytes off n buf) = n.
Proof. unfold read_bytes. intros H. len. Qed.

Lemma length_write_bytes (off : nat) (src buf : list byte) :
  (off + length src <= length buf)%nat ->
  length (write_bytes off src buf) = length buf.
Proof. unfold write_bytes. intros H. len. Qed.

Lemma read_write_bytes_same (off : nat) (src buf : list byte) :
  (off <= length buf)%nat ->
  read_bytes off (length src) (write_bytes off src buf) = src.
Proof.
  unfold read_bytes, write_bytes. intros H.
  rewrite drop_app_length' by len.
  apply take_app_length.
Qed.

Lemma read_write_bytes_before (off off' n : nat) (src buf : list byte) :
  (off' + n <= off)%nat -> (off <= length buf)%nat ->
  read_bytes off' n (write_bytes off src buf) = read_bytes off' n buf.
Proof.
  unfold read_bytes, write_bytes. intros H1 H2.
  apply list_eq. intros i.
  destruct (decide (i < n)%nat) as [Hi|Hi].
  - rewrite !lookup_take_lt, !lookup_drop by lia.
    rewrite lookup_app_l by len. rewrite lookup_take_lt by lia. reflexivity.
  - rewrite !lookup_take_ge by lia. reflexivity.
Qed.

Lemma read_write_bytes_after (off off' n : nat) (src buf : list byte) :
  (off + length src <= off')%nat -> (off <= length buf)%nat ->
  read_bytes off' n (write_bytes off src buf) = read_bytes off' n buf.
Proof.
  unfold read_bytes, write_bytes. intros H1 H2.
  apply list_eq. intros i.
  destruct (decide (i < n)%nat) as [Hi|Hi].
  - rewrite !lookup_take_lt, !lookup_drop by lia.
    rewrite lookup_app_r by len. rewrite lookup_app_r by len.
    rewrite lookup_drop. f_equal. len.
  - rewrite !lookup_take_ge by lia. reflexivity.
Qed.

Lemma read_bytes_app_l (off n : nat) (l1 l2 : list byte) :
  (off + n <= length l1)%nat -> read_bytes off n (l1 ++ l2) = read_bytes off n l1.
Proof.
  intros H. unfold read_bytes. rewrite drop_app_le by lia.
  rewrite take_app_le by len. reflexivity.
Qed.

Lemma read_bytes_app_r (n : nat) (l1 l2 : list byte) :
  length l2 = n -> read_bytes (length l1) n (l1 ++ l2) = l2.
Proof.
  intros H. unfold read_bytes. rewrite drop_app_length.
  rewrite take_ge by lia. reflexivity.
Qed.

Lemma length_store_int (off : nat) (z : Z) (buf : list byte) :
  (off + 4 <= length buf)%nat -> length (store_int off z buf) = length buf.
Proof. intros H. apply length_write_bytes. rewrite length_encode_int. lia. Qed.

Lemma load_store_int_same (off : nat) (z : Z) (buf : list byte) :
  (off <= length buf)%nat -> load_int off (store_int off z buf) = int_wrap z.
Proof.
  intros H. unfold load_int, store_int.
  rewrite <- (length_encode_int z) at 1.
  rewrite read_write_bytes_same by done. apply decode_encode_int.
Qed.

Lemma load_store_int_other (off off' : nat) (z : Z) (buf : list byte) :
  (off' + 4 <= off \/ off + 4 <= off')%nat -> (off <= length buf)%nat ->
  load_int off' (store_int off z buf) = load_int off' buf.
Proof.
  intros [H|H] Hb; unfold load_int, store_int.
  - apply f_equal, read_write_bytes_before; lia.
  - apply f_equal, read_write_bytes_after; [rewrite length_encode_int|]; lia.
Qed.

#[export] Hint Rewrite length_zero_bytes length_encode_int : len.
#[export] Hint Rewrite length_read_bytes length_write_bytes length_store_int
  using (autorewrite with len; lia) : len.
#[export] Hint Resolve int_wrap_range decode_int_range Z_of_byte_range : dbms.
#[export] Hint Rewrite int_wrap_idemp decode_encode_int Z_of_byte_of_Z
  byte_of_Z_of_byte : dbms.

(** [PAGE_SIZE] is kept folded in proofs: only its value lemma unfolds it. *)
Lemma mem_read_ok (off n : Z) (buf : list byte) :
  0 <= off -> 0 <= n -> off + n <= Z.of_nat (length buf) ->
  mem_read off n buf = Done (read_bytes (Z.to_nat off) (Z.to_nat n) buf).
Proof. intros. unfold mem_read. Ztest. done. Qed.

Lemma mem_write_ok (off : Z) (src buf : list byte) :
  0 <= off -> off + Z.of_nat (length src) <= Z.of_nat (length buf) ->
  mem_write off src buf = Done (write_bytes (Z.to_nat off) src buf).
Proof. intros. unfold mem_write. Ztest. done. Qed.

Lemma mem_read_outside (off n : Z) (buf : list byte) :
  off < 0 \/ n < 0 \/ Z.of_nat (length buf) < off + n -> mem_read off n buf = Fault.
Proof.
  intros H. unfold mem_read.
  destruct (Z.leb_spec 0 off), (Z.leb_spec 0 n), (Z.leb_spec (off + n) (Z.of_nat (length buf)));
    simpl; try done; lia.
Qed.

Lemma mem_write_outside (off : Z) (src buf : list byte) :
  off < 0 \/ Z.of_nat (length buf) < off + Z.of_nat (length src) ->
  mem_write off src buf = Fault.
Proof.
  intros H. unfold mem_write.
  destruct (Z.leb_spec 0 off),
    (Z.leb_spec (off + Z.of_nat (length src)) (Z.of_nat (length buf))); simpl; try done; lia.
Qed.

Lemma PAGE_SIZE_eq : PAGE_SIZE = 4096%nat.
Proof. reflexivity. Qed.

#[global] Opaque PAGE_SIZE.

(** [by_compute] proves a decidable proposition by evaluating its decision
    procedure: the proof term is [true = true], however large the data. *)
Ltac by_compute := apply (bool_decide_unpack _); vm_compute; exact I.

(** [page_lia] is [lia] with the value of [PAGE_SIZE] exposed. *)
Ltac page_lia := rewrite ?PAGE_SIZE_eq in *; lia.
