(* ===== verification/Storage.v ===== *)
(** * Storage: the page file ([src/src/storage_mgr.c])

    Module [SM] holds one definition per function of [storage_mgr.c]. A file
    is its raw bytes; the file system maps names to files. Every
    [fseek]/[fread]/[fwrite] of the source is one of the three stdio
    functions below, applied at the offset the source computes. A stream is
    identified by the name of its file (the source seeks before every read
    and write, so the position of a stream is never carried from one call to
    the next). A stream whose file has been destroyed makes [fseek] fail.

    Then the well-formedness of files and handles ([file_ok], [handle_ok]),
    and the theorems: invariance of [handle_ok], the write/read round trip,
    append, [ensureCapacity], the error branches, the cursor, and the
    overflow of [OFFSET_page]. *)

From Stdlib Require Import ZArith Lia.
From Stdlib Require Import Strings.Byte.
From stdpp Require Import base option list numbers strings gmap.
From S2P Require Import Prelude.

#[local] Open Scope Z_scope.

Module SM.

(** ** stdio on byte lists *)

(** [fseek(file, off, SEEK_SET)] succeeds when the offset is not negative. *)
Definition fseek_ok (off : Z) : bool := 0 <=? off.

(** [fwrite] of [src] at position [pos]: a position past the end leaves a
    hole of zero bytes. *)
Definition fwrite (pos : nat) (src f : list byte) : list byte :=
  take pos f ++ zero_bytes (pos - length f) ++ src ++ drop (pos + length src) f.

(** [fread] of up to [n] bytes at position [pos] into [dst]: the bytes the
    file does not have are left as they were. *)
Definition fread (pos n : nat) (f dst : list byte) : list byte :=
  take n (drop pos f) ++ drop (length (take n (drop pos f))) dst.

(** ** The macros of the file (lines 18 to 24) *)

Definition SIZE_byte : Z := 4.
Definition SIZE_FileHeader : Z := 2 * SIZE_byte.
Definition OFFSET_totNoPg : Z := 0.
Definition OFFSET_curPgPos : Z := SIZE_byte.
Definition OFFSET_pgFile : Z := SIZE_FileHeader.

(** [(PAGE_SIZE * pageNum) + SIZE_FileHeader]: the product is an [int] and
    wraps, the sum is a [size_t] passed as a [long]. *)
Definition OFFSET_page (pageNum : Z) : Z :=
  int_mul (Z.of_nat PAGE_SIZE) pageNum + SIZE_FileHeader.

(** ** State *)

Record SM_FileHandle : Type := mkHandle {
  fileName : option string;
  totalNumPages : Z;
  curPagePos : Z;
  mgmtInfo : option string
}.

(** The two globals of the file and the file system. *)
Record World : Type := mkWorld {
  totNoPg : Z;
  curPgPos : Z;
  fs : gmap string (list byte)
}.

Definition set_fs (m : gmap string (list byte)) (w : World) : World :=
  {| totNoPg := totNoPg w; curPgPos := curPgPos w; fs := m |}.

Definition set_curPagePos (p : Z) (h : SM_FileHandle) : SM_FileHandle :=
  {| fileName := fileName h; totalNumPages := totalNumPages h;
     curPagePos := p; mgmtInfo := mgmtInfo h |}.

Definition set_totalNumPages (n : Z) (h : SM_FileHandle) : SM_FileHandle :=
  {| fileName := fileName h; totalNumPages := n;
     curPagePos := curPagePos h; mgmtInfo := mgmtInfo h |}.

(** The bytes behind a stream, when its file still exists. *)
Definition stream (w : World) (h : SM_FileHandle) : option (list byte) :=
  name ← mgmtInfo h; fs w !! name.

(** ** Operations *)

Definition initStorageManager (w : World) : World :=
  {| totNoPg := 1; curPgPos := 0; fs := fs w |}.

Definition createPageFile (fileName : option string) (w : World) : RC * World :=
  let w := initStorageManager w in
  match fileName with
  | None => (RC_FILE_NOT_FOUND, w)
  | Some name =>
      let pgCnt := 1 in
      let f1 := fwrite (Z.to_nat OFFSET_totNoPg) (encode_int pgCnt) [] in
      let f2 := fwrite (Z.to_nat OFFSET_curPgPos) (encode_int (curPgPos w)) f1 in
      let emptyPage := zero_bytes PAGE_SIZE in
      let f3 := fwrite (Z.to_nat OFFSET_pgFile) emptyPage f2 in
      (RC_OK, {| totNoPg := -1; curPgPos := -1; fs := <[name := f3]> (fs w) |})
  end.

Definition openPageFile (fileName : option string) (fHandle : option SM_FileHandle)
    (w : World) : RC * option SM_FileHandle :=
  match fileName with
  | None => (RC_FILE_NOT_FOUND, fHandle)
  | Some name =>
      match fHandle with
      | None => (RC_FILE_HANDLE_NOT_INIT, None)
      | Some h =>
          match fs w !! name with
          | None => (RC_FILE_NOT_FOUND, Some h)
          | Some f =>
              let pgCnt :=
                decode_int (fread (Z.to_nat OFFSET_totNoPg) (Z.to_nat SIZE_byte) f
                              (encode_int 0)) in
              (RC_OK, Some {| fileName := Some name; totalNumPages := pgCnt;
                              curPagePos := 0; mgmtInfo := Some name |})
          end
      end
  end.

(** [fclose(NULL)] is the one undefined behaviour of the file. *)
Definition closePageFile (fHandle : option SM_FileHandle)
    : outcome (RC * option SM_FileHandle) :=
  match fHandle with
  | None => Done (RC_FILE_HANDLE_NOT_INIT, None)
  | Some h =>
      match mgmtInfo h with
      | None => Fault
      | Some _ =>
          Done (RC_OK, Some {| fileName := None; totalNumPages := 0;
                               curPagePos := 0; mgmtInfo := None |})
      end
  end.

Definition destroyPageFile (fileName : string) (w : World) : RC * World :=
  match fs w !! fileName with
  | Some _ => (RC_OK, set_fs (delete fileName (fs w)) w)
  | None => (RC_FILE_NOT_FOUND, w)
  end.

Definition readBlock (pageNum : Z) (fHandle : option SM_FileHandle)
    (memPage : option (list byte)) (w : World)
    : RC * option SM_FileHandle * option (list byte) :=
  match fHandle with
  | None => (RC_FILE_HANDLE_NOT_INIT, None, memPage)
  | Some h =>
      match memPage with
      | None => (RC_READ_NON_EXISTING_PAGE, Some h, None)
      | Some buf =>
          if totalNumPages h <=? pageNum then (RC_READ_NON_EXISTING_PAGE, Some h, Some buf)
          else if pageNum <? 0 then (RC_READ_NON_EXISTING_PAGE, Some h, Some buf)
          else
            match mgmtInfo h with
            | None => (RC_FILE_NOT_FOUND, Some h, Some buf)
            | Some name =>
                match fs w !! name with
                | Some f =>
                    if fseek_ok (OFFSET_page pageNum) then
                      (RC_OK, Some (set_curPagePos pageNum h),
                       Some (fread (Z.to_nat (OFFSET_page pageNum)) PAGE_SIZE f buf))
                    else (RC_READ_NON_EXISTING_PAGE, Some h, Some buf)
                | None => (RC_READ_NON_EXISTING_PAGE, Some h, Some buf)
                end
            end
      end
  end.

Definition getBlockPos (fHandle : option SM_FileHandle) : RC + Z :=
  match fHandle with
  | None => inl RC_FILE_HANDLE_NOT_INIT
  | Some h => inr (curPagePos h)
  end.

Definition readFirstBlock (fHandle : option SM_FileHandle)
    (memPage : option (list byte)) (w : World) :=
  match fHandle with
  | None => (RC_FILE_HANDLE_NOT_INIT, None, memPage)
  | Some h => readBlock 0 (Some h) memPage w
  end.

Definition readPreviousBlock (fHandle : option SM_FileHandle)
    (memPage : option (list byte)) (w : World) :=
  match fHandle with
  | None => (RC_FILE_HANDLE_NOT_INIT, None, memPage)
  | Some h => readBlock (int_sub (curPagePos h) 1) (Some h) memPage w
  end.

Definition readCurrentBlock (fHandle : option SM_FileHandle)
    (memPage : option (list byte)) (w : World) :=
  match fHandle with
  | None => (RC_FILE_HANDLE_NOT_INIT, None, memPage)
  | Some h => readBlock (curPagePos h) (Some h) memPage w
  end.

Definition readNextBlock (fHandle : option SM_FileHandle)
    (memPage : option (list byte)) (w : World) :=
  match fHandle with
  | None => (RC_FILE_HANDLE_NOT_INIT, None, memPage)
  | Some h => readBlock (int_add (curPagePos h) 1) (Some h) memPage w
  end.

Definition readLastBlock (fHandle : option SM_FileHandle)
    (memPage : option (list byte)) (w : World) :=
  match fHandle with
  | None => (RC_FILE_HANDLE_NOT_INIT, None, memPage)
  | Some h => readBlock (int_sub (totalNumPages h) 1) (Some h) memPage w
  end.

(** The return values of the seeks and writes are not looked at: on a
    destroyed file nothing is written and the handle is updated all the
    same. *)
Definition appendEmptyBlock (fHandle : option SM_FileHandle) (w : World)
    : RC * option SM_FileHandle * World :=
  match fHandle with
  | None => (RC_FILE_HANDLE_NOT_INIT, None, w)
  | Some h =>
      match mgmtInfo h with
      | None => (RC_FILE_NOT_FOUND, Some h, w)
      | Some name =>
          let pgNo := totalNumPages h in
          let memPage := zero_bytes PAGE_SIZE in
          let noPg := int_add (totalNumPages h) 1 in
          let h' := set_totalNumPages noPg (set_curPagePos pgNo h) in
          match fs w !! name with
          | Some f =>
              let f1 := fwrite (length f) memPage f in
              let f2 := fwrite (Z.to_nat OFFSET_totNoPg) (encode_int noPg) f1 in
              (RC_OK, Some h', set_fs (<[name := f2]> (fs w)) w)
          | None => (RC_OK, Some h', w)
          end
      end
  end.

(** [while (fHandle->totalNumPages < numberOfPages)]: one append per
    iteration. [fuel] bounds the iterations; [ensureCapacity] gives the
    number of pages that are missing, which is enough for [int] arguments
    ([ensureCapacity_terminates]). *)
Fixpoint ensureCapacity_loop (fuel : nat) (numberOfPages : Z) (h : SM_FileHandle)
    (w : World) : outcome (RC * option SM_FileHandle * World) :=
  if totalNumPages h <? numberOfPages then
    match fuel with
    | O => Diverge
    | S fuel' =>
        match appendEmptyBlock (Some h) w with
        | (RC_OK, Some h', w') => ensureCapacity_loop fuel' numberOfPages h' w'
        | (_, oh, w') => Done (RC_WRITE_FAILED, oh, w')
        end
    end
  else Done (RC_OK, Some h, w).

Definition ensureCapacity (numberOfPages : Z) (fHandle : option SM_FileHandle)
    (w : World) : outcome (RC * option SM_FileHandle * World) :=
  match fHandle with
  | None => Done (RC_FILE_HANDLE_NOT_INIT, None, w)
  | Some h =>
      ensureCapacity_loop (Z.to_nat (numberOfPages - totalNumPages h)) numberOfPages h w
  end.

(** The seek and the write of [writeBlock] (lines 308 to 319), once the
    file is known to be large enough. *)
Definition writeBlock_seek (name : string) (pageNum : Z) (buf : list byte)
    (h : SM_FileHandle) (w : World) : RC * option SM_FileHandle * World :=
  match fs w !! name with
  | Some f =>
      if fseek_ok (OFFSET_page pageNum) then
        let f' := fwrite (Z.to_nat (OFFSET_page pageNum)) (take PAGE_SIZE buf) f in
        (RC_OK, Some (set_curPagePos (int_add pageNum 1) h),
         set_fs (<[name := f']> (fs w)) w)
      else (RC_WRITE_FAILED, Some h, w)
  | None => (RC_WRITE_FAILED, Some h, w)
  end.

Definition writeBlock (pageNum : Z) (fHandle : option SM_FileHandle)
    (memPage : option (list byte)) (w : World)
    : outcome (RC * option SM_FileHandle * World) :=
  match fHandle with
  | None => Done (RC_FILE_HANDLE_NOT_INIT, None, w)
  | Some h =>
      match memPage with
      | None => Done (RC_READ_NON_EXISTING_PAGE, Some h, w)
      | Some buf =>
          match mgmtInfo h with
          | None => Done (RC_FILE_NOT_FOUND, Some h, w)
          | Some name =>
              if totalNumPages h <=? pageNum then
                obind (ensureCapacity (int_add pageNum 1) (Some h) w)
                  (fun r =>
                     match r with
                     | (RC_OK, Some h1, w1) => Done (writeBlock_seek name pageNum buf h1 w1)
                     | (_, oh, w1) => Done (RC_WRITE_FAILED, oh, w1)
                     end)
              else Done (writeBlock_seek name pageNum buf h w)
          end
      end
  end.

Definition writeCurrentBlock (fHandle : option SM_FileHandle)
    (memPage : option (list byte)) (w : World)
    : outcome (RC * option SM_FileHandle * World) :=
  match fHandle with
  | None => Done (RC_READ_NON_EXISTING_PAGE, None, w)
  | Some h => writeBlock (curPagePos h) (Some h) memPage w
  end.

Arguments readBlock : simpl never.
Arguments writeBlock : simpl never.
Arguments writeBlock_seek : simpl never.
Arguments appendEmptyBlock : simpl never.
Arguments ensureCapacity : simpl never.
Arguments createPageFile : simpl never.
Arguments openPageFile : simpl never.

(** ** Well-formed files and handles *)

(** The page count a file's header holds. *)
Definition file_pages (f : list byte) : Z := load_int 0 f.

(** Page [p] of a file. *)
Definition page_at (p : nat) (f : list byte) : list byte :=
  read_bytes (8 + p * PAGE_SIZE) PAGE_SIZE f.

(** Pages whose offset fits an [int]: the file is below 2 GiB. *)
Definition MAX_PAGES : Z := 524288.

(** A file is its header and as many whole pages as the header says. *)
Definition file_ok (f : list byte) : Prop :=
  0 <= file_pages f <= MAX_PAGES /\
  length f = (8 + Z.to_nat (file_pages f) * PAGE_SIZE)%nat.

(** A handle is open on an existing well-formed file and caches its page
    count. *)
Definition handle_ok (w : World) (h : SM_FileHandle) : Prop :=
  exists f, stream w h = Some f /\ file_ok f /\ totalNumPages h = file_pages f.

(** The abstract content of a file: the list of its pages. The operations
    below are shown to act on this list as lookup, update and append. *)
Definition disk_pages (f : list byte) : list (list byte) :=
  (fun q => page_at q f) <$> seq 0 (Z.to_nat (file_pages f)).

(** The pages behind a handle. *)
Definition disk (w : World) (h : SM_FileHandle) : option (list (list byte)) :=
  disk_pages <$> stream w h.

(** [grown k w h w' h']: the file behind [h] got [k] zero pages at its
    end, [h'] is the handle after, and nothing else changed. *)
Definition grown (k : nat) (w : World) (h : SM_FileHandle) (w' : World)
    (h' : SM_FileHandle) : Prop :=
  handle_ok w' h' /\
  mgmtInfo h' = mgmtInfo h /\
  fileName h' = fileName h /\
  totalNumPages h' = totalNumPages h + Z.of_nat k /\
  disk w' h' = (fun pages => pages ++ replicate k (zero_bytes PAGE_SIZE)) <$> disk w h /\
  (forall name, mgmtInfo h <> Some name -> fs w' !! name = fs w !! name).

(** ** Sequences of calls *)

(** A client's call on an open handle. *)
Inductive sm_op : Type :=
| OpRead (pageNum : Z) (buf : list byte)
| OpWrite (pageNum : Z) (src : list byte)
| OpAppend
| OpEnsure (numberOfPages : Z).

(** The call, on the handle and the world. *)
Definition run_op (o : sm_op) (h : SM_FileHandle) (w : World)
    : outcome (RC * option SM_FileHandle * World) :=
  match o with
  | OpRead p buf => let '(rc, oh, _) := readBlock p (Some h) (Some buf) w in Done (rc, oh, w)
  | OpWrite p src => writeBlock p (Some h) (Some src) w
  | OpAppend => Done (appendEmptyBlock (Some h) w)
  | OpEnsure n => ensureCapacity n (Some h) w
  end.

(** The page count a call leaves, from the page count before. *)
Definition pages_after (o : sm_op) (n : Z) : Z :=
  match o with
  | OpRead _ _ => n
  | OpWrite p _ => n `max` (p + 1)
  | OpAppend => n + 1
  | OpEnsure k => n `max` k
  end.

(** The calls that keep the file below [MAX_PAGES] pages. *)
Definition op_ok (o : sm_op) (n : Z) : Prop :=
  pages_after o n <= MAX_PAGES /\
  match o with
  | OpWrite p src => 0 <= p /\ length src = PAGE_SIZE
  | _ => True
  end.

(** A sequence of calls, each on the handle the previous one left. *)
Fixpoint run_ops (os : list sm_op) (h : SM_FileHandle) (w : World)
    : outcome (SM_FileHandle * World) :=
  match os with
  | [] => Done (h, w)
  | o :: os' =>
      obind (run_op o h w) (fun r =>
        match r with
        | (_, Some h', w') => run_ops os' h' w'
        | (_, None, _) => Fault
        end)
  end.

Fixpoint ops_ok (os : list sm_op) (n : Z) : Prop :=
  match os with
  | [] => True
  | o :: os' => op_ok o n /\ ops_ok os' (pages_after o n)
  end.

(** ** Examples *)

(** The world and the handle of the examples: a fresh file ["t"]. *)
Definition ex_world : World :=
  snd (createPageFile (Some "t"%string) (mkWorld 0 0 ∅)).

Definition ex_handle : SM_FileHandle :=
  mkHandle (Some "t"%string) 1 0 (Some "t"%string).

Definition ex_page (b : byte) : list byte := replicate PAGE_SIZE b.

#[export] Instance SM_FileHandle_eq_dec : EqDecision SM_FileHandle.
Proof. solve_decision. Defined.

#[export] Instance file_ok_dec (f : list byte) : Decision (file_ok f).
Proof. unfold file_ok. apply _. Defined.

#[export] Instance handle_ok_dec (w : World) (h : SM_FileHandle) :
  Decision (handle_ok w h).
Proof.
  unfold handle_ok. destruct (stream w h) as [f|].
  - destruct (decide (file_ok f /\ totalNumPages h = file_pages f)) as [Hd|Hd].
    + left. exists f. tauto.
    + right. intros (f' & Hf' & Hx). apply Hd. congruence.
  - right. intros (f & Hf & _). discriminate.
Defined.

(** ** Lemmas: stdio and offsets *)

Lemma fwrite_in_bounds (pos : nat) (src f : list byte) :
  (pos + length src <= length f)%nat -> fwrite pos src f = write_bytes pos src f.
Proof.
  intros H. unfold fwrite, write_bytes, zero_bytes.
  replace (pos - length f)%nat with 0%nat by lia. reflexivity.
Qed.

Lemma fwrite_end (src f : list byte) : fwrite (length f) src f = f ++ src.
Proof.
  unfold fwrite, zero_bytes. rewrite Nat.sub_diag, firstn_all. simpl.
  rewrite drop_ge by lia. rewrite app_nil_r. reflexivity.
Qed.

Lemma length_fwrite (pos : nat) (src f : list byte) :
  length (fwrite pos src f) = (length f `max` (pos + length src))%nat.
Proof. unfold fwrite. len. Qed.

Lemma fread_full (pos n : nat) (f dst : list byte) :
  (pos + n <= length f)%nat -> length dst = n ->
  fread pos n f dst = read_bytes pos n f.
Proof.
  intros H1 H2. unfold fread, read_bytes.
  rewrite (drop_ge dst) by len. apply app_nil_r.
Qed.

Lemma OFFSET_page_small (p : Z) :
  0 <= p < MAX_PAGES -> OFFSET_page p = 8 + p * 4096.
Proof.
  unfold MAX_PAGES, OFFSET_page, int_mul, SIZE_FileHeader, SIZE_byte. intros H.
  rewrite PAGE_SIZE_eq. rewrite int_wrap_small; [lia|].
  unfold in_int, INT_MIN, INT_MAX. lia.
Qed.

Lemma OFFSET_page_nat (p : Z) :
  0 <= p < MAX_PAGES -> Z.to_nat (OFFSET_page p) = (8 + Z.to_nat p * PAGE_SIZE)%nat.
Proof. intros H. rewrite OFFSET_page_small by done. page_lia. Qed.

Lemma fseek_ok_page (p : Z) : 0 <= p < MAX_PAGES -> fseek_ok (OFFSET_page p) = true.
Proof.
  intros H. rewrite OFFSET_page_small by done. unfold fseek_ok. lia.
Qed.

Lemma file_pages_write_page (off : nat) (src f : list byte) :
  (4 <= off <= length f)%nat -> file_pages (write_bytes off src f) = file_pages f.
Proof.
  intros H. unfold file_pages, load_int.
  rewrite read_write_bytes_before by lia. reflexivity.
Qed.

Lemma page_at_write_same (p : nat) (src f : list byte) :
  length src = PAGE_SIZE -> (8 + p * PAGE_SIZE <= length f)%nat ->
  page_at p (write_bytes (8 + p * PAGE_SIZE) src f) = src.
Proof.
  intros H1 H2. unfold page_at. rewrite <- H1 at 2.
  apply read_write_bytes_same. done.
Qed.

Lemma page_at_write_other (p q : nat) (src f : list byte) :
  length src = PAGE_SIZE -> (8 + p * PAGE_SIZE <= length f)%nat -> p <> q ->
  page_at q (write_bytes (8 + p * PAGE_SIZE) src f) = page_at q f.
Proof.
  intros H1 H2 H3. unfold page_at.
  destruct (decide (q < p)%nat).
  - apply read_write_bytes_before; [|done]. nia.
  - apply read_write_bytes_after; [|done]. rewrite H1. nia.
Qed.

Lemma length_disk_pages f : length (disk_pages f) = Z.to_nat (file_pages f).
Proof. unfold disk_pages. rewrite length_fmap, length_seq. reflexivity. Qed.

Lemma lookup_disk_pages f (q : nat) :
  (q < Z.to_nat (file_pages f))%nat -> disk_pages f !! q = Some (page_at q f).
Proof.
  intros H. unfold disk_pages. rewrite list_lookup_fmap, lookup_seq_lt by done.
  reflexivity.
Qed.

Lemma disk_pages_ext f f' :
  file_pages f' = file_pages f ->
  (forall q, (q < Z.to_nat (file_pages f))%nat -> page_at q f' = page_at q f) ->
  disk_pages f' = disk_pages f.
Proof.
  intros Hn Hp. unfold disk_pages. rewrite Hn.
  apply list_fmap_ext. intros i q Hq. apply lookup_seq in Hq as [-> Hq]. apply Hp. lia.
Qed.

Lemma length_page_at (q : nat) f :
  file_ok f -> (q < Z.to_nat (file_pages f))%nat -> length (page_at q f) = PAGE_SIZE.
Proof.
  intros [_ Hlen] Hq. unfold page_at. apply length_read_bytes. rewrite Hlen. nia.
Qed.

(* F1: overwriting a page *)
Lemma file_write_page (p : nat) (src f : list byte) :
  file_ok f -> (p < Z.to_nat (file_pages f))%nat -> length src = PAGE_SIZE ->
  let f' := write_bytes (8 + p * PAGE_SIZE) src f in
  file_ok f' /\ file_pages f' = file_pages f /\ disk_pages f' = <[p := src]> (disk_pages f).
Proof.
  intros [Hr Hlen] Hp Hsrc f'.
  assert (Hin : (8 + p * PAGE_SIZE + length src <= length f)%nat) by (rewrite Hlen, Hsrc; nia).
  assert (Hn : file_pages f' = file_pages f) by (apply file_pages_write_page; lia).
  split_and!; [split| |]; rewrite ?Hn; try done.
  - unfold f'. rewrite length_write_bytes by done. done.
  - apply list_eq. intros q. unfold disk_pages. rewrite Hn.
    destruct (decide (q < Z.to_nat (file_pages f))%nat) as [Hq|Hq].
    + destruct (decide (p = q)) as [<-|Hne].
      * rewrite list_lookup_insert_eq by (rewrite length_fmap, length_seq; lia).
        rewrite list_lookup_fmap, lookup_seq_lt by done. simpl.
        f_equal. apply page_at_write_same; [done|lia].
      * rewrite list_lookup_insert_ne by done.
        rewrite !list_lookup_fmap, lookup_seq_lt by done. simpl.
        f_equal. apply page_at_write_other; [done|lia|done].
    + rewrite !lookup_ge_None_2; [done| |]; rewrite ?length_insert, length_fmap, length_seq; lia.
Qed.

(** Appending a page and bumping the header count. *)
Lemma file_append (f : list byte) :
  file_ok f -> file_pages f < MAX_PAGES ->
  let f' := fwrite (Z.to_nat OFFSET_totNoPg) (encode_int (int_add (file_pages f) 1))
              (fwrite (length f) (zero_bytes PAGE_SIZE) f) in
  file_ok f' /\ file_pages f' = file_pages f + 1 /\
  disk_pages f' = disk_pages f ++ [zero_bytes PAGE_SIZE].
Proof.
  intros [Hr Hlen] Hmax f'. unfold MAX_PAGES in *.
  assert (Hadd : int_add (file_pages f) 1 = file_pages f + 1)
    by (apply int_add_small; unfold in_int, INT_MIN, INT_MAX; lia).
  assert (Hf' : f' = store_int 0 (file_pages f + 1) (f ++ zero_bytes PAGE_SIZE)).
  { unfold f'. rewrite fwrite_end, Hadd. change (Z.to_nat OFFSET_totNoPg) with 0%nat.
    apply fwrite_in_bounds. len. }
  assert (Hn : file_pages f' = file_pages f + 1).
  { rewrite Hf'. unfold file_pages in *. rewrite load_store_int_same by lia.
    apply int_wrap_small. unfold in_int, INT_MIN, INT_MAX; lia. }
  assert (Hpg : forall q, page_at q f' = page_at q (f ++ zero_bytes PAGE_SIZE)).
  { intros q. rewrite Hf'. apply read_write_bytes_after; simpl; lia. }
  split_and!; [split| |]; rewrite ?Hn; try done; try (unfold MAX_PAGES; lia).
  - rewrite Hf'. len.
    replace (Z.to_nat (file_pages f + 1)) with (S (Z.to_nat (file_pages f))) by lia. lia.
  - apply list_eq. intros q. unfold disk_pages. rewrite Hn.
    replace (Z.to_nat (file_pages f + 1)) with (S (Z.to_nat (file_pages f))) by lia.
    rewrite seq_S, fmap_app. simpl. rewrite Hpg.
    replace (8 + Z.to_nat (file_pages f) * PAGE_SIZE)%nat with (length f) by done.
    unfold page_at at 2. replace (0 + Z.to_nat (file_pages f))%nat with (Z.to_nat (file_pages f)) by lia.
    rewrite <- Hlen, read_bytes_app_r by len.
    f_equal. f_equal. apply list_fmap_ext. intros i x Hx. apply lookup_seq in Hx as [-> Hx].
    rewrite Hpg. apply read_bytes_app_l. rewrite Hlen. nia.
Qed.

(** ** Lemmas: handles and worlds *)

Lemma handle_ok_inv (w : World) (h : SM_FileHandle) :
  handle_ok w h ->
  exists name f, mgmtInfo h = Some name /\ fs w !! name = Some f /\
                 file_ok f /\ totalNumPages h = file_pages f.
Proof.
  intros (f & Hs & Hf & Ht). unfold stream in Hs.
  destruct (mgmtInfo h) as [name|]; [|done]. exists name, f. done.
Qed.

Lemma handle_ok_intro (w : World) (h : SM_FileHandle) (name : string) (f : list byte) :
  mgmtInfo h = Some name -> fs w !! name = Some f -> file_ok f ->
  totalNumPages h = file_pages f -> handle_ok w h.
Proof. intros Hm Hf Hok Ht. exists f. unfold stream. rewrite Hm. done. Qed.

Lemma handle_ok_range (w : World) (h : SM_FileHandle) :
  handle_ok w h -> 0 <= totalNumPages h <= MAX_PAGES.
Proof. intros (f & _ & [Hr _] & ->). done. Qed.

Lemma handle_ok_disk (w : World) (h : SM_FileHandle) :
  handle_ok w h ->
  exists pages, disk w h = Some pages /\ length pages = Z.to_nat (totalNumPages h).
Proof.
  intros (f & Hs & _ & ->). exists (disk_pages f). unfold disk. rewrite Hs.
  split; [done|apply length_disk_pages].
Qed.

Lemma handle_ok_set_curPagePos (w : World) (h : SM_FileHandle) (p : Z) :
  handle_ok w h -> handle_ok w (set_curPagePos p h).
Proof. intros (f & Hs & Hf & Ht). exists f. done. Qed.

Lemma disk_set_curPagePos (w : World) (h : SM_FileHandle) (p : Z) :
  disk w (set_curPagePos p h) = disk w h.
Proof. reflexivity. Qed.

(** ** The operations on well-formed handles *)

Lemma readBlock_ok (w : World) (h : SM_FileHandle) (name : string) (f buf : list byte) (p : Z) :
  mgmtInfo h = Some name -> fs w !! name = Some f -> file_ok f ->
  totalNumPages h = file_pages f -> 0 <= p < totalNumPages h ->
  length buf = PAGE_SIZE ->
  readBlock p (Some h) (Some buf) w
  = (RC_OK, Some (set_curPagePos p h), Some (page_at (Z.to_nat p) f)).
Proof.
  intros Hm Hfs [Hr Hlen] Ht Hp Hbuf. unfold readBlock.
  rewrite Hm, Hfs, fseek_ok_page by lia. Ztest.
  rewrite OFFSET_page_nat by lia. rewrite fread_full; [done| |done].
  rewrite Hlen. nia.
Qed.

Lemma writeBlock_ok (w : World) (h : SM_FileHandle) (name : string) (f src : list byte) (p : Z) :
  mgmtInfo h = Some name -> fs w !! name = Some f -> file_ok f ->
  totalNumPages h = file_pages f -> 0 <= p < totalNumPages h ->
  length src = PAGE_SIZE ->
  writeBlock p (Some h) (Some src) w
  = Done (RC_OK, Some (set_curPagePos (p + 1) h),
          set_fs (<[name := write_bytes (8 + Z.to_nat p * PAGE_SIZE) src f]> (fs w)) w).
Proof.
  intros Hm Hfs [Hr Hlen] Ht Hp Hsrc. unfold writeBlock, writeBlock_seek.
  rewrite Hm. Ztest. rewrite Hfs, fseek_ok_page by lia.
  rewrite OFFSET_page_nat by lia. rewrite take_ge by lia.
  rewrite fwrite_in_bounds by (rewrite Hlen, Hsrc; nia).
  rewrite int_add_small; [done|]. unfold in_int, INT_MIN, INT_MAX, MAX_PAGES in *. lia.
Qed.

(** A page of the disk behind a well-formed handle is a page of its file. *)
Lemma disk_lookup (w : World) (h : SM_FileHandle) (pages : list (list byte))
    (q : nat) (pg : list byte) :
  handle_ok w h -> disk w h = Some pages -> pages !! q = Some pg ->
  exists name f, mgmtInfo h = Some name /\ fs w !! name = Some f /\ file_ok f /\
    totalNumPages h = file_pages f /\ (q < Z.to_nat (file_pages f))%nat /\
    pg = page_at q f /\ length pg = PAGE_SIZE.
Proof.
  intros Hok Hd Hpg. destruct (handle_ok_inv _ _ Hok) as (name & f & Hm & Hfs & Hf & Ht).
  unfold disk, stream in Hd. rewrite Hm in Hd. simpl in Hd. rewrite Hfs in Hd.
  simplify_eq/=. pose proof (lookup_lt_Some _ _ _ Hpg) as Hlt.
  rewrite length_disk_pages in Hlt. rewrite lookup_disk_pages in Hpg by done.
  simplify_eq. exists name, f. split_and!; try done. by apply length_page_at.
Qed.

(** Opening a well-formed file gives a well-formed handle on it. *)
Lemma openPageFile_ok (w : World) (name : string) (f : list byte) (h0 : SM_FileHandle) :
  fs w !! name = Some f -> file_ok f ->
  exists h, openPageFile (Some name) (Some h0) w = (RC_OK, Some h) /\
            handle_ok w h /\ mgmtInfo h = Some name /\
            totalNumPages h = file_pages f /\ curPagePos h = 0.
Proof.
  intros Hfs Hok. unfold openPageFile. rewrite Hfs. eexists. split; [done|].
  assert (decode_int (fread (Z.to_nat OFFSET_totNoPg) (Z.to_nat SIZE_byte) f (encode_int 0))
          = file_pages f) as Hcnt.
  { destruct Hok as [_ Hlen]. rewrite fread_full; [done| |done].
    rewrite Hlen. change (Z.to_nat OFFSET_totNoPg) with 0%nat.
    change (Z.to_nat SIZE_byte) with 4%nat. lia. }
  simpl. split_and!; [|done..]. by eapply handle_ok_intro.
Qed.

Lemma grown_refl (w : World) (h : SM_FileHandle) : handle_ok w h -> grown 0 w h w h.
Proof.
  intros Hok. destruct (handle_ok_disk _ _ Hok) as (pages & Hd & _).
  unfold grown. rewrite Hd. simpl. rewrite app_nil_r. split_and!; try done. lia.
Qed.

Lemma grown_trans (a b : nat) (w w1 w2 : World) (h h1 h2 : SM_FileHandle) :
  grown a w h w1 h1 -> grown b w1 h1 w2 h2 -> grown (a + b) w h w2 h2.
Proof.
  intros (_ & Hm1 & Hn1 & Ht1 & Hd1 & Ho1) (Hok & Hm2 & Hn2 & Ht2 & Hd2 & Ho2).
  split_and!; try done; try congruence; try lia.
  - rewrite Hd2, Hd1. destruct (disk w h); simpl; [|done].
    rewrite <- app_assoc, <- replicate_add. done.
  - intros name Hne. rewrite Ho2, Ho1 by congruence. done.
Qed.

Lemma appendEmptyBlock_ok (w : World) (h : SM_FileHandle) :
  handle_ok w h -> totalNumPages h < MAX_PAGES ->
  exists h' w', appendEmptyBlock (Some h) w = (RC_OK, Some h', w') /\
                grown 1 w h w' h' /\ curPagePos h' = totalNumPages h.
Proof.
  intros Hok Hmax. destruct (handle_ok_inv _ _ Hok) as (name & f & Hm & Hfs & Hf & Ht).
  rewrite Ht in Hmax. destruct (file_append f Hf Hmax) as (Hf' & Hn & Hd).
  unfold appendEmptyBlock. rewrite Hm, Hfs, Ht. do 2 eexists. split; [done|].
  assert (Hadd : int_add (file_pages f) 1 = file_pages f + 1).
  { apply int_add_small. destruct Hf as [Hr _].
    unfold in_int, INT_MIN, INT_MAX, MAX_PAGES in *. lia. }
  split; [|done]. unfold grown, disk, stream. simpl. rewrite Hm. simpl.
  rewrite lookup_insert_eq, Hfs. simpl. rewrite Hd.
  split_and!; try done; try lia.
  - eapply handle_ok_intro; simpl; [done|apply lookup_insert_eq|done|]. lia.
  - intros name' Hne. apply lookup_insert_ne. congruence.
Qed.

Lemma ensureCapacity_loop_ok (fuel : nat) (n : Z) (w : World) (h : SM_FileHandle) :
  handle_ok w h -> n <= MAX_PAGES -> (Z.to_nat (n - totalNumPages h) <= fuel)%nat ->
  exists h' w', ensureCapacity_loop fuel n h w = Done (RC_OK, Some h', w') /\
                grown (Z.to_nat (n - totalNumPages h)) w h w' h'.
Proof.
  revert w h. induction fuel as [|fuel IH]; intros w h Hok Hn Hfuel;
    cbn [ensureCapacity_loop].
  - Ztest. replace (Z.to_nat (n - totalNumPages h)) with 0%nat by lia.
    eauto using grown_refl.
  - destruct (Z.ltb_spec (totalNumPages h) n) as [Hlt|Hge].
    + destruct (appendEmptyBlock_ok w h Hok ltac:(lia)) as (h1 & w1 & -> & Hg & _).
      pose proof Hg as (Hok1 & _ & _ & Ht1 & _).
      destruct (IH w1 h1 Hok1 Hn ltac:(lia)) as (h' & w' & -> & Hg').
      exists h', w'. split; [done|].
      replace (Z.to_nat (n - totalNumPages h))
        with (1 + Z.to_nat (n - totalNumPages h1))%nat by lia.
      eauto using grown_trans.
    + replace (Z.to_nat (n - totalNumPages h)) with 0%nat by lia.
      eauto using grown_refl.
Qed.

(** ** Theorems *)

(** [ensureCapacity] terminates on a well-formed handle: it returns
    [RC_OK], and the file has grown by exactly the missing pages, all zero. *)
Lemma ensureCapacity_ok (n : Z) (w : World) (h : SM_FileHandle) :
  handle_ok w h -> n <= MAX_PAGES ->
  exists h' w', ensureCapacity n (Some h) w = Done (RC_OK, Some h', w') /\
                grown (Z.to_nat (n - totalNumPages h)) w h w' h'.
Proof. intros Hok Hn. apply ensureCapacity_loop_ok; done. Qed.

(** [ensureCapacity] is the identity when the file already has
    [numberOfPages] pages. *)
Lemma ensureCapacity_enough (n : Z) (w : World) (h : SM_FileHandle) :
  n <= totalNumPages h -> ensureCapacity n (Some h) w = Done (RC_OK, Some h, w).
Proof.
  intros Hn. unfold ensureCapacity.
  destruct (Z.to_nat (n - totalNumPages h)); simpl; Ztest; done.
Qed.

(** C12: [ensureCapacity] terminates on a well-formed handle. It returns
    [RC_OK] after it has appended exactly the missing pages, all zero, and
    it is idempotent: a second call with the same argument changes
    nothing. *)
Theorem ensureCapacity_idempotent (n : Z) (w : World) (h : SM_FileHandle) :
  handle_ok w h -> n <= MAX_PAGES ->
  exists h' w',
    ensureCapacity n (Some h) w = Done (RC_OK, Some h', w') /\
    grown (Z.to_nat (n - totalNumPages h)) w h w' h' /\
    ensureCapacity n (Some h') w' = Done (RC_OK, Some h', w').
Proof.
  intros Hok Hn. destruct (ensureCapacity_ok n w h Hok Hn) as (h' & w' & He & Hg).
  exists h', w'. split_and!; [done..|]. apply ensureCapacity_enough.
  destruct Hg as (_ & _ & _ & Ht & _). lia.
Qed.

(** C21: [appendEmptyBlock] adds exactly one page, in the handle and in the
    header of the file; the new page is zero, the old pages are unchanged,
    and the cursor is on the new page. *)
Theorem appendEmptyBlock_grows (w : World) (h : SM_FileHandle) (pages : list (list byte)) :
  handle_ok w h -> totalNumPages h < MAX_PAGES -> disk w h = Some pages ->
  exists h' w' f',
    appendEmptyBlock (Some h) w = (RC_OK, Some h', w') /\
    handle_ok w' h' /\
    totalNumPages h' = totalNumPages h + 1 /\
    stream w' h' = Some f' /\ file_pages f' = totalNumPages h + 1 /\
    disk w' h' = Some (pages ++ [zero_bytes PAGE_SIZE]) /\
    curPagePos h' = totalNumPages h.
Proof.
  intros Hok Hmax Hd.
  destruct (appendEmptyBlock_ok w h Hok Hmax) as (h' & w' & Heq & Hg & Hc).
  destruct Hg as (Hok' & _ & _ & Ht & Hd' & _).
  pose proof Hok' as (f' & Hs' & _ & Hf').
  exists h', w', f'. rewrite Hd in Hd'. split_and!; try done. lia.
Qed.

(** Inside the file, [writeBlock] is its seek and write. *)
Lemma writeBlock_seek_in_range (w : World) (h : SM_FileHandle) (name : string)
    (p : Z) (src : list byte) :
  mgmtInfo h = Some name -> p < totalNumPages h ->
  writeBlock p (Some h) (Some src) w = Done (writeBlock_seek name p src h w).
Proof. intros Hm Hp. unfold writeBlock. rewrite Hm. Ztest. done. Qed.

(** The page list after a write inside the file. *)
Lemma writeBlock_in_range (w : World) (h : SM_FileHandle) (p : Z) (src : list byte)
    (pages : list (list byte)) :
  handle_ok w h -> disk w h = Some pages -> 0 <= p < totalNumPages h ->
  length src = PAGE_SIZE ->
  exists w', writeBlock p (Some h) (Some src) w
             = Done (RC_OK, Some (set_curPagePos (p + 1) h), w') /\
             handle_ok w' (set_curPagePos (p + 1) h) /\
             disk w' h = Some (<[Z.to_nat p := src]> pages) /\
             (forall name, mgmtInfo h <> Some name -> fs w' !! name = fs w !! name).
Proof.
  intros Hok Hd Hp Hsrc.
  destruct (handle_ok_inv _ _ Hok) as (name & f & Hm & Hfs & Hf & Ht).
  destruct (file_write_page (Z.to_nat p) src f Hf ltac:(lia) Hsrc) as (Hf' & Hn & Hd').
  eexists. split; [eapply writeBlock_ok; done|].
  unfold disk, stream in *. rewrite Hm in *. simpl in *. rewrite Hfs in Hd.
  rewrite lookup_insert_eq. simplify_eq/=. split_and!.
  - eapply handle_ok_intro; simpl; [done|apply lookup_insert_eq|done|congruence].
  - by rewrite Hd'.
  - intros name' Hne. apply lookup_insert_ne. congruence.
Qed.

(** [writeBlock] on any page below [MAX_PAGES] succeeds: the file is
    first grown to [pageNum + 1] pages with zero pages, then page [pageNum]
    is replaced; the cursor is left one past the page written. *)
Lemma writeBlock_any (w : World) (h : SM_FileHandle) (p : Z) (src : list byte)
    (pages : list (list byte)) :
  handle_ok w h -> disk w h = Some pages -> 0 <= p < MAX_PAGES ->
  length src = PAGE_SIZE ->
  exists h' w',
    writeBlock p (Some h) (Some src) w = Done (RC_OK, Some h', w') /\
    handle_ok w' h' /\
    curPagePos h' = p + 1 /\
    totalNumPages h' = totalNumPages h `max` (p + 1) /\
    disk w' h' = Some (<[Z.to_nat p := src]>
      (pages ++ replicate (Z.to_nat (p + 1 - totalNumPages h)) (zero_bytes PAGE_SIZE))).
Proof.
  intros Hok Hd Hp Hsrc. pose proof (handle_ok_range _ _ Hok) as Hr.
  destruct (ensureCapacity_ok (p + 1) w h Hok ltac:(lia))
    as (h1 & w1 & He & Hok1 & Hm1 & _ & Ht1 & Hd1 & _).
  rewrite Hd in Hd1. simpl in Hd1.
  destruct (writeBlock_in_range w1 h1 p src _ Hok1 Hd1 ltac:(lia) Hsrc)
    as (w' & Hw & Hok' & Hd' & _).
  exists (set_curPagePos (p + 1) h1), w'. split_and!; try done; [|simpl; lia].
  destruct (handle_ok_inv _ _ Hok) as (name & f & Hm & _).
  rewrite (writeBlock_seek_in_range w1 h1 name) in Hw by (congruence || lia).
  unfold writeBlock. rewrite Hm.
  destruct (Z.leb_spec (totalNumPages h) p) as [Hle|Hgt].
  - rewrite int_add_small, He; [done|].
    unfold in_int, INT_MIN, INT_MAX, MAX_PAGES in *; lia.
  - rewrite ensureCapacity_enough in He by lia. simplify_eq. by rewrite Hw.
Qed.

(** [readBlock] of a page of the disk behind a well-formed handle. *)
Lemma readBlock_disk (w : World) (h : SM_FileHandle) (q : Z) (buf pg : list byte)
    (pages : list (list byte)) :
  handle_ok w h -> disk w h = Some pages -> 0 <= q ->
  pages !! Z.to_nat q = Some pg -> length buf = PAGE_SIZE ->
  readBlock q (Some h) (Some buf) w = (RC_OK, Some (set_curPagePos q h), Some pg).
Proof.
  intros Hok Hd Hq Hpg Hbuf.
  destruct (disk_lookup _ _ _ _ _ Hok Hd Hpg) as (name & f & ? & ? & ? & ? & ? & -> & _).
  eapply readBlock_ok; (done || lia).
Qed.

(** C2: round trip. A page written with [writeBlock] is what [readBlock]
    then returns for it, byte for byte, whether or not the write had to
    grow the file; and [readBlock] of every other page of the file
    returns what the page held before the write. *)
Theorem readBlock_after_writeBlock (w : World) (h : SM_FileHandle) (p : Z)
    (src dst : list byte) (pages : list (list byte)) :
  handle_ok w h -> disk w h = Some pages -> 0 <= p < MAX_PAGES ->
  length src = PAGE_SIZE -> length dst = PAGE_SIZE ->
  exists h1 w1,
    writeBlock p (Some h) (Some src) w = Done (RC_OK, Some h1, w1) /\
    readBlock p (Some h1) (Some dst) w1 = (RC_OK, Some (set_curPagePos p h1), Some src) /\
    forall q old, 0 <= q -> q <> p -> pages !! Z.to_nat q = Some old ->
      readBlock q (Some h1) (Some dst) w1 = (RC_OK, Some (set_curPagePos q h1), Some old).
Proof.
  intros Hok Hd Hp Hsrc Hdst.
  destruct (handle_ok_disk _ _ Hok) as (pages' & Hd' & Hlen). simplify_eq.
  destruct (writeBlock_any w h p src pages Hok Hd Hp Hsrc)
    as (h1 & w1 & Hw & Hok1 & _ & Ht1 & Hd1).
  exists h1, w1. split; [done|]. split.
  - eapply readBlock_disk; [done..|lia| |done].
    apply list_lookup_insert_eq. len.
  - intros q old Hq Hne Hold. eapply readBlock_disk; [done..| |done].
    rewrite list_lookup_insert_ne by lia. by apply lookup_app_l_Some.
Qed.

(** [readBlock] changes at most the cursor of the handle. *)
Lemma readBlock_handle_ok (w : World) (h : SM_FileHandle) (p : Z) (buf : list byte)
    rc oh buf' :
  handle_ok w h -> readBlock p (Some h) (Some buf) w = (rc, oh, buf') ->
  exists h', oh = Some h' /\ handle_ok w h' /\ totalNumPages h' = totalNumPages h.
Proof.
  intros Hok. unfold readBlock.
  repeat case_match; intros ?; simplify_eq; eauto using handle_ok_set_curPagePos.
Qed.

Lemma run_op_ok (o : sm_op) (w : World) (h : SM_FileHandle) :
  handle_ok w h -> op_ok o (totalNumPages h) ->
  exists rc h' w', run_op o h w = Done (rc, Some h', w') /\ handle_ok w' h' /\
                   totalNumPages h' = pages_after o (totalNumPages h).
Proof.
  intros Hok [Hmax Ho]. pose proof (handle_ok_range _ _ Hok) as Hr.
  destruct (handle_ok_disk _ _ Hok) as (pages & Hd & _).
  destruct o as [p buf|p src| |n]; simpl in *.
  - destruct (readBlock p (Some h) (Some buf) w) as [[rc oh] buf'] eqn:E.
    destruct (readBlock_handle_ok _ _ _ _ _ _ _ Hok E) as (h' & -> & ? & ?).
    exists rc, h', w. done.
  - destruct Ho as [Hp Hsrc].
    destruct (writeBlock_any w h p src pages Hok Hd ltac:(lia) Hsrc)
      as (h' & w' & -> & ? & _ & ? & _). eauto 10.
  - destruct (appendEmptyBlock_ok w h Hok ltac:(lia)) as (h' & w' & -> & (? & _ & _ & ? & _) & _).
    eauto 10.
  - destruct (ensureCapacity_ok n w h Hok ltac:(lia)) as (h' & w' & -> & ? & _ & _ & ? & _).
    exists RC_OK, h', w'. split_and!; [done..|lia].
Qed.

(** C4: [handle_ok] is an invariant. Every sequence of reads, writes, appends
    and capacity requests that keeps the file below [MAX_PAGES] pages runs to
    its end, leaves a well-formed handle, and the page count is the one the
    calls add up to. *)
Theorem handle_ok_invariant (os : list sm_op) (w : World) (h : SM_FileHandle) :
  handle_ok w h -> ops_ok os (totalNumPages h) ->
  exists h' w', run_ops os h w = Done (h', w') /\ handle_ok w' h' /\
                totalNumPages h' = fold_left (fun n o => pages_after o n) os (totalNumPages h).
Proof.
  revert w h. induction os as [|o os IH]; intros w h Hok Hos; simpl in *; [eauto|].
  destruct Hos as [Ho Hos].
  destruct (run_op_ok o w h Hok Ho) as (rc & h1 & w1 & -> & Hok1 & Ht1). simpl.
  rewrite <- Ht1 in *. eauto.
Qed.

(** [readBlock] of a page that is not in the file (negative, or at or
    past [totalNumPages]) returns [RC_READ_NON_EXISTING_PAGE] and leaves
    the handle and the buffer as they were. *)
Theorem readBlock_out_of_range (w : World) (h : SM_FileHandle) (p : Z) (buf : list byte) :
  p < 0 \/ totalNumPages h <= p ->
  readBlock p (Some h) (Some buf) w = (RC_READ_NON_EXISTING_PAGE, Some h, Some buf).
Proof.
  intros Hp. unfold readBlock.
  destruct (Z.leb_spec (totalNumPages h) p); [done|]. Ztest. done.
Qed.

(** A file made by [createPageFile] opens with a well-formed handle on
    one zero page, cursor 0, and the two globals are reset to -1. *)
Theorem createPageFile_openPageFile (name : string) (w : World) (h0 : SM_FileHandle) :
  exists w1 h,
    createPageFile (Some name) w = (RC_OK, w1) /\
    openPageFile (Some name) (Some h0) w1 = (RC_OK, Some h) /\
    handle_ok w1 h /\ totalNumPages h = 1 /\ curPagePos h = 0 /\
    disk w1 h = Some [zero_bytes PAGE_SIZE] /\
    totNoPg w1 = -1 /\ curPgPos w1 = -1.
Proof.
  unfold createPageFile, openPageFile. simpl. do 2 eexists.
  split; [done|]. simpl. rewrite lookup_insert_eq.
  split; [done|]. unfold disk, stream. simpl. rewrite lookup_insert_eq. simpl.
  split_and!; try done.
  - eapply handle_ok_intro; simpl; [done|apply lookup_insert_eq| |].
    + apply (bool_decide_unpack _). by vm_compute.
    + by vm_compute.
Qed.

(** C39: the cursor after a write is one past the page written, so after
    writing the last page of the file the cursor is not a page of the
    file: [readCurrentBlock] fails and [writeCurrentBlock] appends. *)
Theorem writeBlock_cursor_past_end (w : World) (h : SM_FileHandle) (src dst : list byte) :
  handle_ok w h -> 0 < totalNumPages h -> length src = PAGE_SIZE ->
  exists h' w',
    writeBlock (totalNumPages h - 1) (Some h) (Some src) w = Done (RC_OK, Some h', w') /\
    curPagePos h' = totalNumPages h' /\
    readCurrentBlock (Some h') (Some dst) w' = (RC_READ_NON_EXISTING_PAGE, Some h', Some dst).
Proof.
  intros Hok Hpos Hsrc. destruct (handle_ok_disk _ _ Hok) as (pages & Hd & _).
  destruct (writeBlock_in_range w h (totalNumPages h - 1) src pages Hok Hd ltac:(lia) Hsrc)
    as (w' & Hw & _).
  do 2 eexists. split; [exact Hw|]. simpl. split; [lia|].
  unfold readCurrentBlock, readBlock. simpl. Ztest. done.
Qed.

(** C40: the offset of a page is an [int] product: from page 2^19 to page
    2^20 - 1 it is negative, the seek fails, and [readBlock] reports a page
    that the handle counts as not existing. *)
Theorem readBlock_offset_overflow (w : World) (h : SM_FileHandle) (name : string)
    (f buf : list byte) (p : Z) :
  mgmtInfo h = Some name -> fs w !! name = Some f ->
  524288 <= p < 1048576 -> p < totalNumPages h ->
  readBlock p (Some h) (Some buf) w = (RC_READ_NON_EXISTING_PAGE, Some h, Some buf).
Proof.
  intros Hm Hfs Hp Ht. unfold readBlock. rewrite Hm, Hfs. Ztest.
  replace (fseek_ok (OFFSET_page p)) with false; [done|].
  symmetry. apply Z.leb_gt.
  unfold OFFSET_page, int_mul, int_wrap, SIZE_FileHeader, SIZE_byte.
  rewrite PAGE_SIZE_eq. Z.div_mod_to_equations. lia.
Qed.

(** ** Witnesses *)

Lemma ex_handle_ok : handle_ok ex_world ex_handle.
Proof. apply (bool_decide_unpack _). by vm_compute. Qed.

Lemma appendEmptyBlock_grows_witness :
  exists h' w' f',
    appendEmptyBlock (Some ex_handle) ex_world = (RC_OK, Some h', w') /\
    handle_ok w' h' /\
    totalNumPages h' = totalNumPages ex_handle + 1 /\
    stream w' h' = Some f' /\ file_pages f' = totalNumPages ex_handle + 1 /\
    disk w' h' = Some ([zero_bytes PAGE_SIZE] ++ [zero_bytes PAGE_SIZE]) /\
    curPagePos h' = totalNumPages ex_handle.
Proof.
  apply appendEmptyBlock_grows; [apply ex_handle_ok|by vm_compute|by vm_compute].
Defined.

Lemma ensureCapacity_idempotent_witness :
  exists h' w',
    ensureCapacity 3 (Some ex_handle) ex_world = Done (RC_OK, Some h', w') /\
    grown (Z.to_nat (3 - totalNumPages ex_handle)) ex_world ex_handle w' h' /\
    ensureCapacity 3 (Some h') w' = Done (RC_OK, Some h', w').
Proof. apply ensureCapacity_idempotent; [apply ex_handle_ok|by vm_compute]. Defined.

Lemma readBlock_after_writeBlock_witness :
  exists h1 w1,
    writeBlock 2 (Some ex_handle) (Some (ex_page x2a)) ex_world = Done (RC_OK, Some h1, w1) /\
    readBlock 2 (Some h1) (Some (ex_page xff)) w1
    = (RC_OK, Some (set_curPagePos 2 h1), Some (ex_page x2a)) /\
    forall q old, 0 <= q -> q <> 2 -> [zero_bytes PAGE_SIZE] !! Z.to_nat q = Some old ->
      readBlock q (Some h1) (Some (ex_page xff)) w1
      = (RC_OK, Some (set_curPagePos q h1), Some old).
Proof.
  apply readBlock_after_writeBlock; [apply ex_handle_ok|by_compute..].
Defined.

Lemma handle_ok_invariant_witness :
  exists h' w',
    run_ops [OpAppend; OpWrite 3 (ex_page x01); OpRead 7 []; OpEnsure 2] ex_handle ex_world
    = Done (h', w') /\ handle_ok w' h' /\
    totalNumPages h'
    = fold_left (fun n o => pages_after o n)
        [OpAppend; OpWrite 3 (ex_page x01); OpRead 7 []; OpEnsure 2]
        (totalNumPages ex_handle).
Proof.
  apply handle_ok_invariant; [apply ex_handle_ok|].
  vm_compute. intuition discriminate.
Defined.

Lemma readBlock_out_of_range_witness :
  readBlock 1 (Some ex_handle) (Some []) ex_world
  = (RC_READ_NON_EXISTING_PAGE, Some ex_handle, Some []).
Proof. apply readBlock_out_of_range. right. by vm_compute. Defined.

Lemma writeBlock_cursor_past_end_witness :
  exists h' w',
    writeBlock (totalNumPages ex_handle - 1) (Some ex_handle) (Some (ex_page x01)) ex_world
    = Done (RC_OK, Some h', w') /\
    curPagePos h' = totalNumPages h' /\
    readCurrentBlock (Some h') (Some []) w' = (RC_READ_NON_EXISTING_PAGE, Some h', Some []).
Proof.
  apply writeBlock_cursor_past_end; [apply ex_handle_ok|by vm_compute|by vm_compute].
Defined.

Lemma readBlock_offset_overflow_witness :
  readBlock 524288 (Some (mkHandle (Some "t"%string) 600000 0 (Some "t"%string)))
    (Some []) ex_world
  = (RC_READ_NON_EXISTING_PAGE,
     Some (mkHandle (Some "t"%string) 600000 0 (Some "t"%string)), Some []).
Proof.
  eapply readBlock_offset_overflow; [done|by vm_compute|lia|simpl; lia].
Defined.

End SM.
