(* ===== verification/BufferMgr.v ===== *)
(** * BufferMgr: the buffer pool ([src/src/buffer_mgr.c])

    Module [BM] models the pool at the level of pointers. A [Frame*] is an
    index into the arena [frames] of the pool ([None] is NULL); a page
    buffer ([char*]) is an index into [bufs]. A statement of the source
    that goes through a pointer is a [load] or a [store] on the arena, and
    both fault on NULL, so the functions below return an [outcome].

    One definition per function of the file; the loops are definitions of
    their own ([findFrame], [victim_walk], [clock_sweep], [flush_loop],
    [shutdown_loop], [free_loop], [activate_loop], [by_seq], [by_position]),
    and the relinking code that the source has twice (LRU hit, FIFO/LRU
    miss) is [moveToHead]. The file holds the definitions; the theorems
    about them are in [FrameList] and [BufferPool]. *)

From Stdlib Require Import ZArith Lia.
From Stdlib Require Import Strings.Byte.
From stdpp Require Import base option list numbers strings gmap.
From S2P Require Import Prelude Storage.

#[local] Open Scope Z_scope.
#[local] Open Scope outcome_scope.

Module BM.

(** ** Data ([buffer_mgr.h] and lines 32 to 71) *)

Inductive ReplacementStrategy : Set :=
| RS_FIFO
| RS_LRU
| RS_CLOCK.

#[export] Instance ReplacementStrategy_eq_dec : EqDecision ReplacementStrategy.
Proof. solve_decision. Defined.

Record BM_PageHandle : Type := mkPageHandle {
  pageNum : Z;
  data : option nat
}.

Record Frame : Type := mkFrame {
  dirtyBit : bool;
  fixBit : Z;
  next : option nat;
  prev : option nat;
  page : BM_PageHandle;
  seq : Z;
  refBit : Z
}.

#[export] Instance BM_PageHandle_eq_dec : EqDecision BM_PageHandle.
Proof. solve_decision. Defined.

#[export] Instance Frame_eq_dec : EqDecision Frame.
Proof. solve_decision. Defined.

Record BM_MgmtData : Type := mkMgmtData {
  frameContents : list Z;
  dirtyFlags : list bool;
  fixCounts : list Z;
  refBits : list Z;
  numReadIO : Z;
  numWriteIO : Z;
  clkPtr : option nat;
  head : option nat;
  tail : option nat;
  fHandle : SM.SM_FileHandle
}.

Record BM_BufferPool : Type := mkBufferPool {
  pageFile : option string;
  numPages : Z;
  strategy : ReplacementStrategy;
  mgmtData : option BM_MgmtData
}.

#[local] Existing Instance SM.SM_FileHandle_eq_dec.

#[export] Instance BM_MgmtData_eq_dec : EqDecision BM_MgmtData.
Proof. solve_decision. Defined.

#[export] Instance BM_BufferPool_eq_dec : EqDecision BM_BufferPool.
Proof. solve_decision. Defined.

(** A pool and the heap it owns: the frames and the page buffers. *)
Record Pool : Type := mkPool {
  bm : BM_BufferPool;
  frames : list Frame;
  bufs : list (list byte)
}.

(** ** Field updates *)

Definition set_dirtyBit (v : bool) (f : Frame) : Frame :=
  mkFrame v (fixBit f) (next f) (prev f) (page f) (seq f) (refBit f).
Definition set_fixBit (v : Z) (f : Frame) : Frame :=
  mkFrame (dirtyBit f) v (next f) (prev f) (page f) (seq f) (refBit f).
Definition set_next (v : option nat) (f : Frame) : Frame :=
  mkFrame (dirtyBit f) (fixBit f) v (prev f) (page f) (seq f) (refBit f).
Definition set_prev (v : option nat) (f : Frame) : Frame :=
  mkFrame (dirtyBit f) (fixBit f) (next f) v (page f) (seq f) (refBit f).
Definition set_pageNum (v : Z) (f : Frame) : Frame :=
  mkFrame (dirtyBit f) (fixBit f) (next f) (prev f)
    (mkPageHandle v (data (page f))) (seq f) (refBit f).
Definition set_data (v : option nat) (f : Frame) : Frame :=
  mkFrame (dirtyBit f) (fixBit f) (next f) (prev f)
    (mkPageHandle (pageNum (page f)) v) (seq f) (refBit f).
Definition set_refBit (v : Z) (f : Frame) : Frame :=
  mkFrame (dirtyBit f) (fixBit f) (next f) (prev f) (page f) (seq f) v.

Definition set_numReadIO (v : Z) (md : BM_MgmtData) : BM_MgmtData :=
  mkMgmtData (frameContents md) (dirtyFlags md) (fixCounts md) (refBits md)
    v (numWriteIO md) (clkPtr md) (head md) (tail md) (fHandle md).
Definition set_numWriteIO (v : Z) (md : BM_MgmtData) : BM_MgmtData :=
  mkMgmtData (frameContents md) (dirtyFlags md) (fixCounts md) (refBits md)
    (numReadIO md) v (clkPtr md) (head md) (tail md) (fHandle md).
Definition set_clkPtr (v : option nat) (md : BM_MgmtData) : BM_MgmtData :=
  mkMgmtData (frameContents md) (dirtyFlags md) (fixCounts md) (refBits md)
    (numReadIO md) (numWriteIO md) v (head md) (tail md) (fHandle md).
Definition set_head (v : option nat) (md : BM_MgmtData) : BM_MgmtData :=
  mkMgmtData (frameContents md) (dirtyFlags md) (fixCounts md) (refBits md)
    (numReadIO md) (numWriteIO md) (clkPtr md) v (tail md) (fHandle md).
Definition set_tail (v : option nat) (md : BM_MgmtData) : BM_MgmtData :=
  mkMgmtData (frameContents md) (dirtyFlags md) (fixCounts md) (refBits md)
    (numReadIO md) (numWriteIO md) (clkPtr md) (head md) v (fHandle md).
Definition set_fHandle (v : SM.SM_FileHandle) (md : BM_MgmtData) : BM_MgmtData :=
  mkMgmtData (frameContents md) (dirtyFlags md) (fixCounts md) (refBits md)
    (numReadIO md) (numWriteIO md) (clkPtr md) (head md) (tail md) v.

Definition set_frameContents (v : list Z) (md : BM_MgmtData) : BM_MgmtData :=
  mkMgmtData v (dirtyFlags md) (fixCounts md) (refBits md)
    (numReadIO md) (numWriteIO md) (clkPtr md) (head md) (tail md) (fHandle md).
Definition set_dirtyFlags (v : list bool) (md : BM_MgmtData) : BM_MgmtData :=
  mkMgmtData (frameContents md) v (fixCounts md) (refBits md)
    (numReadIO md) (numWriteIO md) (clkPtr md) (head md) (tail md) (fHandle md).
Definition set_fixCounts (v : list Z) (md : BM_MgmtData) : BM_MgmtData :=
  mkMgmtData (frameContents md) (dirtyFlags md) v (refBits md)
    (numReadIO md) (numWriteIO md) (clkPtr md) (head md) (tail md) (fHandle md).
Definition set_refBits (v : list Z) (md : BM_MgmtData) : BM_MgmtData :=
  mkMgmtData (frameContents md) (dirtyFlags md) (fixCounts md) v
    (numReadIO md) (numWriteIO md) (clkPtr md) (head md) (tail md) (fHandle md).

Definition set_mgmtData (md : BM_MgmtData) (p : Pool) : Pool :=
  mkPool (mkBufferPool (pageFile (bm p)) (numPages (bm p)) (strategy (bm p)) (Some md))
    (frames p) (bufs p).
Definition set_frames (fr : list Frame) (p : Pool) : Pool :=
  mkPool (bm p) fr (bufs p).
Definition set_bufs (bs : list (list byte)) (p : Pool) : Pool :=
  mkPool (bm p) (frames p) bs.

(** ** The heap *)

(** [*frame]: faults on NULL and on an address that is not allocated. *)
Definition load (fr : list Frame) (frame : option nat) : outcome Frame :=
  of_ptr (a ← frame; fr !! a).

(** [frame->field = v]. *)
Definition store (frame : option nat) (g : Frame -> Frame) (fr : list Frame)
    : outcome (list Frame) :=
  a <- of_ptr frame;;
  _ <- of_ptr (fr !! a);;
  Done (alter g a fr).

(** The bytes behind a [char*], when it is not NULL. *)
Definition buffer (bs : list (list byte)) (d : option nat) : option (list byte) :=
  a ← d; bs !! a.

(** What a call that was handed the buffer left in it. *)
Definition put_buffer (d : option nat) (b : option (list byte)) (bs : list (list byte))
    : list (list byte) :=
  match d, b with
  | Some a, Some x => <[a := x]> bs
  | _, _ => bs
  end.

(** ** [activateFrames] and [initBufferPool] (lines 83 to 174) *)

Definition activateFrames (frame : option nat) (bm : option Pool) (i : Z)
    : outcome (RC * option Pool) :=
  match frame with
  | None => Done (RC_BM_NULL_FRAME, bm)
  | Some a =>
      match bm with
      | None => Done (RC_BM_NULL_BUFFER, None)
      | Some p =>
          let d := length (bufs p) in
          let bs := bufs p ++ [zero_bytes PAGE_SIZE] in
          fr <- store frame (fun _ =>
                  mkFrame false 0 None None (mkPageHandle (-1) (Some d)) i 0) (frames p);;
          md <- of_ptr (mgmtData (BM.bm p));;
          let head := head md in
          match head with
          | Some _ =>
              if i =? 0 then
                Done (RC_OK, Some (set_bufs bs (set_frames fr
                        (set_mgmtData (set_tail frame (set_head frame md)) p))))
              else
                fr <- store frame (set_next head) fr;;
                fr <- store head (set_prev frame) fr;;
                Done (RC_OK, Some (set_bufs bs (set_frames fr
                        (set_mgmtData (set_head frame md) p))))
          | None =>
              Done (RC_OK, Some (set_bufs bs (set_frames fr
                      (set_mgmtData (set_tail frame (set_head frame md)) p))))
          end
      end
  end.

(** [while (i < numPages)]: one [malloc] and one [activateFrames] per
    iteration; [n] is the number of iterations left. The return value of
    [activateFrames] is not looked at. *)
Fixpoint activate_loop (n : nat) (i : Z) (p : Pool) : outcome Pool :=
  match n with
  | O => Done p
  | S n' =>
      let frame := Some (length (frames p)) in
      let p1 := set_frames (frames p ++ [mkFrame false 0 None None (mkPageHandle 0 None) 0 0]) p in
      r <- activateFrames frame (Some p1) i;;
      p2 <- of_ptr (snd r);;
      activate_loop n' (i + 1) p2
  end.

Definition initBufferPool (bm : option Pool) (pageFileName : option string)
    (numPages : Z) (strategy : ReplacementStrategy) (w : SM.World)
    : outcome (RC * option Pool) :=
  match pageFileName with
  | None => Done (RC_BM_NULL_PGFILE, bm)
  | Some name =>
      match bm with
      | None => Done (RC_BM_NULL_BUFFER, None)
      | Some _ =>
          let n := Z.to_nat numPages in
          let fh0 := SM.mkHandle None 0 0 None in
          let fh := default fh0 (snd (SM.openPageFile pageFileName (Some fh0) w)) in
          let md := mkMgmtData (replicate n 0) (replicate n false) (replicate n 0)
                      (replicate n 0) 0 0 None None None fh in
          let p0 := mkPool (mkBufferPool pageFileName numPages strategy (Some md)) [] [] in
          p <- activate_loop n 0 p0;;
          md <- of_ptr (mgmtData (BM.bm p));;
          if decide (strategy = RS_CLOCK) then
            let md := set_clkPtr (head md) md in
            fr <- store (tail md) (set_next (head md)) (frames p);;
            fr <- store (head md) (set_prev (tail md)) fr;;
            Done (RC_OK, Some (set_frames fr (set_mgmtData md p)))
          else Done (RC_OK, Some p)
      end
  end.

(** ** The search loop (lines 381 to 416, and in [markDirty], [unpinPage])

    [for (i = 0; i < pgCnt; i++)] from [frame], looking for the frame that
    holds [pageNum]: the address of the first one, or [None] when the loop
    runs out. *)
Fixpoint findFrame (n : nat) (frame : option nat) (pn : Z) (fr : list Frame)
    : outcome (option nat) :=
  match n with
  | O => Done None
  | S n' =>
      f <- load fr frame;;
      if pageNum (page f) =? pn then Done frame
      else findFrame n' (next f) pn fr
  end.

(** ** [forcePage] (lines 334 to 347) *)

Definition forcePage (bm : option Pool) (page : option BM_PageHandle) (w : SM.World)
    : outcome (RC * option Pool * SM.World) :=
  match page with
  | None => Done (RC_BM_NULL_PAGE, bm, w)
  | Some pg =>
      match bm with
      | None => Done (RC_BM_NULL_BUFFER, None, w)
      | Some p =>
          md <- of_ptr (mgmtData (BM.bm p));;
          r <- SM.writeBlock (pageNum pg) (Some (fHandle md)) (buffer (bufs p) (data pg)) w;;
          let '(_, oh, w') := r in
          let md := set_fHandle (default (fHandle md) oh) md in
          let md := set_numWriteIO (int_add (numWriteIO md) 1) md in
          Done (RC_OK, Some (set_mgmtData md p), w')
      end
  end.

(** ** [forceFlushPool] (lines 227 to 250) *)

Fixpoint flush_loop (n : nat) (frame : option nat) (p : Pool) (md : BM_MgmtData)
    (w : SM.World) : outcome (Pool * BM_MgmtData * SM.World) :=
  match n with
  | O => Done (p, md, w)
  | S n' =>
      f <- load (frames p) frame;;
      if dirtyBit f && (fixBit f =? 0) then
        r <- SM.writeBlock (pageNum (page f)) (Some (fHandle md))
               (buffer (bufs p) (data (page f))) w;;
        let '(_, oh, w') := r in
        let md' := set_fHandle (default (fHandle md) oh) md in
        fr <- store frame (set_dirtyBit false) (frames p);;
        flush_loop n' (next f) (set_frames fr p) md' w'
      else flush_loop n' (next f) p md w
  end.

Definition forceFlushPool (bm : option Pool) (w : SM.World)
    : outcome (RC * option Pool * SM.World) :=
  match bm with
  | None => Done (RC_BM_NULL_BUFFER, None, w)
  | Some p =>
      md <- of_ptr (mgmtData (BM.bm p));;
      r <- flush_loop (Z.to_nat (numPages (BM.bm p))) (head md) p md w;;
      let '(p', md', w') := r in
      Done (RC_OK, Some (set_mgmtData md' p'), w')
  end.

(** ** [shutdownBufferPool] (lines 182 to 219)

    The first loop stops at the first pinned frame; a dirty frame on the
    way flushes the whole pool. Then the frames are freed (the page buffers
    are not) and the management data with them. *)
Fixpoint shutdown_loop (n : nat) (frame : option nat) (p : Pool) (w : SM.World)
    : outcome (bool * Pool * SM.World) :=
  match n with
  | O => Done (true, p, w)
  | S n' =>
      f <- load (frames p) frame;;
      if negb (fixBit f =? 0) then Done (false, p, w)
      else if dirtyBit f then
        r <- forceFlushPool (Some p) w;;
        let '(_, op, w') := r in
        shutdown_loop n' (next f) (default p op) w'
      else shutdown_loop n' (next f) p w
  end.

(** [free(frame); frame = frame->next;], [n] times (lines 206 to 211): the
    walk faults if it runs into NULL before its last step. *)
Fixpoint free_loop (n : nat) (frame : option nat) (fr : list Frame) : outcome unit :=
  match n with
  | O => Done tt
  | S n' => f <- load fr frame;; free_loop n' (next f) fr
  end.

Definition shutdownBufferPool (bm : option Pool) (w : SM.World)
    : outcome (RC * option Pool * SM.World) :=
  match bm with
  | None => Done (RC_BM_NULL_BUFFER, None, w)
  | Some p =>
      md <- of_ptr (mgmtData (BM.bm p));;
      r <- shutdown_loop (Z.to_nat (numPages (BM.bm p))) (head md) p w;;
      let '(ok, p', w') := r in
      if ok then
        _ <- free_loop (Z.to_nat (numPages (BM.bm p))) (head md) (frames p');;
        Done (RC_OK,
              Some (mkPool (mkBufferPool (pageFile (BM.bm p')) (numPages (BM.bm p'))
                              (strategy (BM.bm p')) None) [] (bufs p')), w')
      else Done (RC_WRITE_FAILED, Some p', w')
  end.

(** ** [markDirty] (lines 258 to 283) *)

Definition markDirty (bm : option Pool) (page : option BM_PageHandle)
    : outcome (RC * option Pool) :=
  match page with
  | None => Done (RC_BM_NULL_PAGE, bm)
  | Some pg =>
      match bm with
      | None => Done (RC_BM_NULL_BUFFER, None)
      | Some p =>
          md <- of_ptr (mgmtData (BM.bm p));;
          hit <- findFrame (Z.to_nat (numPages (BM.bm p))) (head md) (pageNum pg) (frames p);;
          match hit with
          | Some a =>
              fr <- store (Some a) (set_dirtyBit true) (frames p);;
              Done (RC_OK, Some (set_frames fr p))
          | None => Done (RC_OK, Some p)
          end
      end
  end.

(** ** [unpinPage] (lines 291 to 326) *)

Definition unpinPage (bm : option Pool) (page : option BM_PageHandle) (w : SM.World)
    : outcome (RC * option Pool * SM.World) :=
  match page with
  | None => Done (RC_BM_NULL_PAGE, bm, w)
  | Some pg =>
      match bm with
      | None => Done (RC_BM_NULL_BUFFER, None, w)
      | Some p =>
          md <- of_ptr (mgmtData (BM.bm p));;
          hit <- findFrame (Z.to_nat (numPages (BM.bm p))) (head md) (pageNum pg) (frames p);;
          match hit with
          | Some a =>
              fr <- store (Some a) (fun f => set_fixBit (int_sub (fixBit f) 1) f) (frames p);;
              f <- load fr (Some a);;
              if fixBit f <? 0 then Done (RC_WRITE_FAILED, Some (set_frames fr p), w)
              else if dirtyBit f then
                fr <- store (Some a) (set_data (data pg)) fr;;
                r <- forcePage (Some (set_frames fr p)) (Some pg) w;;
                let '(_, op, w') := r in
                Done (RC_OK, op, w')
              else Done (RC_OK, Some (set_frames fr p), w)
          | None => Done (RC_OK, Some p, w)
          end
      end
  end.

(** ** [pinPage] (lines 360 to 481) *)

(** The relinking of lines 393 to 407 and 440 to 455: unlink [frame] and
    make it the head. Every pointer is read from the heap at the point
    where the source reads it. *)
Definition moveToHead (frame : option nat) (md : BM_MgmtData) (fr : list Frame)
    : outcome (BM_MgmtData * list Frame) :=
  let oldHead := head md in
  r <- (if decide (frame = tail md) then
          f <- load fr frame;;
          fr <- store (prev f) (set_next None) fr;;
          f <- load fr frame;;
          let md := set_tail (prev f) md in
          fr <- store frame (set_prev None) fr;;
          Done (md, fr)
        else
          f <- load fr frame;;
          fr <- store (prev f) (set_next (next f)) fr;;
          f <- load fr frame;;
          fr <- store (next f) (set_prev (prev f)) fr;;
          Done (md, fr));;
  let '(md, fr) := r in
  let md := set_head frame md in
  fr <- store frame (set_next oldHead) fr;;
  fr <- store oldHead (set_prev frame) fr;;
  Done (md, fr).

(** [while (frame->prev != NULL)] from the tail (lines 427 to 433): the
    first frame with [fixBit == 0], or the frame whose [prev] is NULL. The
    heap does not change during the walk, so a walk of more than
    [length fr] steps has met a frame twice and never ends. *)
Fixpoint victim_walk (fuel : nat) (frame : option nat) (fr : list Frame)
    : outcome (option nat) :=
  f <- load fr frame;;
  match prev f with
  | None => Done frame
  | Some _ =>
      if fixBit f =? 0 then Done frame
      else
        match fuel with
        | O => Diverge
        | S fuel' => victim_walk fuel' (prev f) fr
        end
  end.

(** The sweep of the clock hand (lines 462 to 468): at most [pgCnt] steps,
    clearing the reference bit of every frame it passes. *)
Fixpoint clock_sweep (n : nat) (frame : option nat) (fr : list Frame)
    : outcome (option nat * list Frame) :=
  match n with
  | O => Done (frame, fr)
  | S n' =>
      f <- load fr frame;;
      if (fixBit f =? 0) && (refBit f =? 0) then Done (frame, fr)
      else
        fr <- store frame (set_refBit 0) fr;;
        clock_sweep n' (next f) fr
  end.

(** [readBlock(pageNum, &md->fHandle, frame->page.data)]: the return code
    is not looked at. *)
Definition read_into (frame : option nat) (pn : Z) (p : Pool) (md : BM_MgmtData)
    (w : SM.World) : outcome (Pool * BM_MgmtData) :=
  f <- load (frames p) frame;;
  let '(_, oh, ob) :=
    SM.readBlock pn (Some (fHandle md)) (buffer (bufs p) (data (page f))) w in
  Done (set_bufs (put_buffer (data (page f)) ob (bufs p)) p,
        set_fHandle (default (fHandle md) oh) md).

(** The hit path (lines 385 to 413). *)
Definition pin_hit (frame : option nat) (p : Pool) (md : BM_MgmtData)
    : outcome (Pool * BM_PageHandle) :=
  fr <- store frame (fun f => set_fixBit (int_add (fixBit f) 1) f) (frames p);;
  fr <- store frame (set_refBit 1) fr;;
  f <- load fr frame;;
  let pg := mkPageHandle (pageNum (page f)) (data (page f)) in
  match strategy (bm p) with
  | RS_LRU =>
      r <- moveToHead frame md fr;;
      let '(md, fr) := r in
      Done (set_frames fr (set_mgmtData md p), pg)
  | RS_CLOCK =>
      f <- load fr frame;;
      Done (set_frames fr (set_mgmtData (set_clkPtr (next f) md) p), pg)
  | RS_FIFO => Done (set_frames fr p, pg)
  end.

(** The miss path (lines 424 to 480). *)
Definition pin_miss (pn : Z) (p : Pool) (md : BM_MgmtData) (w : SM.World)
    : outcome (Pool * BM_PageHandle) :=
  r <- match strategy (bm p) with
       | RS_FIFO | RS_LRU =>
           frame <- victim_walk (length (frames p)) (tail md) (frames p);;
           r <- read_into frame pn p md w;;
           let '(p, md) := r in
           fr <- store frame (fun f => set_fixBit (int_add (fixBit f) 1) f) (frames p);;
           let md := set_numReadIO (int_add (numReadIO md) 1) md in
           r <- moveToHead frame md fr;;
           let '(md, fr) := r in
           Done (frame, set_frames fr (set_mgmtData md p))
       | RS_CLOCK =>
           r <- clock_sweep (Z.to_nat (numPages (bm p))) (clkPtr md) (frames p);;
           let '(frame, fr) := r in
           f <- load fr frame;;
           let md := set_clkPtr (next f) md in
           r <- read_into frame pn (set_frames fr p) md w;;
           let '(p, md) := r in
           fr <- store frame (fun f => set_fixBit (int_add (fixBit f) 1) f) (frames p);;
           fr <- store frame (set_refBit 1) fr;;
           let md := set_numReadIO (int_add (numReadIO md) 1) md in
           Done (frame, set_frames fr (set_mgmtData md p))
       end;;
  let '(frame, p) := r in
  fr <- store frame (set_pageNum pn) (frames p);;
  f <- load fr frame;;
  Done (set_frames fr p, mkPageHandle pn (data (page f))).

Definition pinPage (bm : option Pool) (page : option BM_PageHandle) (pn : Z)
    (w : SM.World) : outcome (RC * option Pool * option BM_PageHandle) :=
  match page with
  | None => Done (RC_BM_NULL_PAGE, bm, None)
  | Some _ =>
      match bm with
      | None => Done (RC_BM_NULL_BUFFER, None, page)
      | Some p =>
          md <- of_ptr (mgmtData (BM.bm p));;
          hit <- findFrame (Z.to_nat (numPages (BM.bm p))) (head md) pn (frames p);;
          r <- match hit with
               | Some a => pin_hit (Some a) p md
               | None => pin_miss pn p md w
               end;;
          let '(p', pg) := r in
          Done (RC_OK, Some p', Some pg)
      end
  end.

(** ** Statistics (lines 488 to 681)

    The four array getters fill the array of the management data and
    return it. Under FIFO and LRU entry [i] is taken from the frame whose
    [seq] is [i]: for each [i] the inner loop walks [pgCnt] frames from the
    head ([by_seq_inner]). Under CLOCK, and always in [getRefBits], entry
    [i] is taken from the [i]-th frame after the head ([by_position]). *)

Fixpoint by_seq_inner {A} (n : nat) (frame : option nat) (i : Z) (get : Frame -> A)
    (fr : list Frame) (arr : list A) : outcome (list A) :=
  match n with
  | O => Done arr
  | S n' =>
      f <- load fr frame;;
      by_seq_inner n' (next f) i get fr
        (if seq f =? i then <[Z.to_nat i := get f]> arr else arr)
  end.

Fixpoint by_seq {A} (n : nat) (i : Z) (pgCnt : nat) (head : option nat) (get : Frame -> A)
    (fr : list Frame) (arr : list A) : outcome (list A) :=
  match n with
  | O => Done arr
  | S n' =>
      arr <- by_seq_inner pgCnt head i get fr arr;;
      by_seq n' (i + 1) pgCnt head get fr arr
  end.

Fixpoint by_position {A} (n : nat) (frame : option nat) (i : nat) (get : Frame -> A)
    (fr : list Frame) (arr : list A) : outcome (list A) :=
  match n with
  | O => Done arr
  | S n' =>
      f <- load fr frame;;
      by_position n' (next f) (S i) get fr (<[i := get f]> arr)
  end.

(** The body the getters share: the strategy picks the loop. *)
Definition fill_array {A} (clock_only : bool) (p : Pool) (md : BM_MgmtData)
    (get : Frame -> A) (arr : list A) : outcome (list A) :=
  let pgCnt := Z.to_nat (numPages (bm p)) in
  if clock_only || bool_decide (strategy (bm p) = RS_CLOCK)
  then by_position pgCnt (head md) 0 get (frames p) arr
  else by_seq pgCnt 0 pgCnt (head md) get (frames p) arr.

Definition getFrameContents (bm : option Pool) : outcome (RC + list Z * Pool) :=
  match bm with
  | None => Done (inl RC_BM_NULL_BUFFER)
  | Some p =>
      md <- of_ptr (mgmtData (BM.bm p));;
      arr <- fill_array false p md (fun f => pageNum (page f)) (frameContents md);;
      Done (inr (arr, set_mgmtData (set_frameContents arr md) p))
  end.

Definition getDirtyFlags (bm : option Pool) : outcome (RC + list bool * Pool) :=
  match bm with
  | None => Done (inl RC_BM_NULL_BUFFER)
  | Some p =>
      md <- of_ptr (mgmtData (BM.bm p));;
      arr <- fill_array false p md dirtyBit (dirtyFlags md);;
      Done (inr (arr, set_mgmtData (set_dirtyFlags arr md) p))
  end.

Definition getFixCounts (bm : option Pool) : outcome (RC + list Z * Pool) :=
  match bm with
  | None => Done (inl RC_BM_NULL_BUFFER)
  | Some p =>
      md <- of_ptr (mgmtData (BM.bm p));;
      arr <- fill_array false p md fixBit (fixCounts md);;
      Done (inr (arr, set_mgmtData (set_fixCounts arr md) p))
  end.

Definition getRefBits (bm : option Pool) : outcome (RC + list Z * Pool) :=
  match bm with
  | None => Done (inl RC_BM_NULL_BUFFER)
  | Some p =>
      md <- of_ptr (mgmtData (BM.bm p));;
      arr <- fill_array true p md refBit (refBits md);;
      Done (inr (arr, set_mgmtData (set_refBits arr md) p))
  end.

Definition getNumReadIO (bm : option Pool) : outcome (RC + Z) :=
  match bm with
  | None => Done (inl RC_BM_NULL_BUFFER)
  | Some p => md <- of_ptr (mgmtData (BM.bm p));; Done (inr (numReadIO md))
  end.

Definition getNumWriteIO (bm : option Pool) : outcome (RC + Z) :=
  match bm with
  | None => Done (inl RC_BM_NULL_BUFFER)
  | Some p => md <- of_ptr (mgmtData (BM.bm p));; Done (inr (numWriteIO md))
  end.

End BM.
