(* ===== verification/FrameList.v ===== *)
(** * FrameList: the doubly linked list of frames

    The frames of a pool are linked through [next] and [prev]
    ([src/src/buffer_mgr.c], lines 32 to 41). This file says what it means
    for the heap to hold such a list ([dseg], after the segment predicate
    of separation logic), and proves what the three list routines of
    [pinPage] do to it: the search [findFrame], the backward walk
    [victim_walk] and the relinking [moveToHead]. *)

From Stdlib Require Import ZArith Lia.
From stdpp Require Import base option list numbers.
From S2P Require Import Prelude Storage BufferMgr.
Import BM.

#[local] Open Scope Z_scope.
#[local] Open Scope outcome_scope.

Module FL.

(** ** The segment predicate *)

(** [dseg fr p q l r s]: the frames at addresses [l] are linked in this
    order. [p] is the address of the first and [q] its [prev]; [r] is the
    address of the last and [s] its [next]. An empty segment has [p = s]
    and [q = r]. *)
Fixpoint dseg (fr : list Frame) (p q : option nat) (l : list nat) (r s : option nat)
    : Prop :=
  match l with
  | [] => p = s /\ q = r
  | a :: l' =>
      p = Some a /\
      match fr !! a with
      | Some f => prev f = q /\ dseg fr (next f) (Some a) l' r s
      | None => False
      end
  end.

(** The fields of a frame that are not links. *)
Definition payload (f : Frame) : bool * Z * BM_PageHandle * Z * Z :=
  (dirtyBit f, fixBit f, page f, seq f, refBit f).

(** The first frame of [l] that holds page [pn]: what the search loop
    finds. *)
Fixpoint holder (fr : list Frame) (pn : Z) (l : list nat) : option nat :=
  match l with
  | [] => None
  | a :: l' =>
      match fr !! a with
      | Some f => if pageNum (page f) =? pn then Some a else holder fr pn l'
      | None => None
      end
  end.

(** The frame the backward walk stops at, on the frames in the order of
    the walk (tail first): the first unpinned one, or the last of the walk
    whatever its pin count. *)
Fixpoint pick (fr : list Frame) (rl : list nat) : option nat :=
  match rl with
  | [] => None
  | [a] => Some a
  | a :: rl' =>
      match fr !! a with
      | Some f => if fixBit f =? 0 then Some a else pick fr rl'
      | None => None
      end
  end.

(** The frame at [a] is pinned. *)
Definition pinned_at (fr : list Frame) (a : nat) : Prop :=
  match fr !! a with
  | Some f => fixBit f <> 0
  | None => False
  end.

(** [a] moved to the front of the order. *)
Definition to_front (a : nat) (l : list nat) : list nat :=
  a :: filter (fun b => b <> a) l.

#[export] Instance dseg_dec fr p q l r s : Decision (dseg fr p q l r s).
Proof.
  revert p q. induction l as [|a l IH]; intros p q; simpl; [apply _|].
  destruct (fr !! a); apply _.
Defined.

#[export] Instance pinned_at_dec fr a : Decision (pinned_at fr a).
Proof. unfold pinned_at. destruct (fr !! a); apply _. Defined.

(** ** Lemmas: the heap *)

Lemma load_Some (fr : list Frame) (a : nat) (f : Frame) :
  fr !! a = Some f -> load fr (Some a) = Done f.
Proof. intros H. unfold load. simpl. by rewrite H. Qed.

Lemma load_NULL (fr : list Frame) : load fr None = Fault.
Proof. reflexivity. Qed.

Lemma store_Some (fr : list Frame) (a : nat) (g : Frame -> Frame) :
  is_Some (fr !! a) -> store (Some a) g fr = Done (alter g a fr).
Proof. intros [f H]. unfold store. simpl. by rewrite H. Qed.

Lemma store_NULL (fr : list Frame) (g : Frame -> Frame) : store None g fr = Fault.
Proof. reflexivity. Qed.

Lemma lookup_alter_is_Some (fr : list Frame) (g : Frame -> Frame) (a b : nat) :
  is_Some (alter g a fr !! b) <-> is_Some (fr !! b).
Proof. rewrite !lookup_lt_is_Some. by rewrite length_alter. Qed.

Lemma lookup_alter_eq (fr : list Frame) (g : Frame -> Frame) (a : nat) (f : Frame) :
  fr !! a = Some f -> alter g a fr !! a = Some (g f).
Proof. intros H. rewrite list_lookup_alter, H. simpl. by rewrite decide_True. Qed.

Lemma lookup_alter_neq (fr : list Frame) (g : Frame -> Frame) (a b : nat) :
  a <> b -> alter g a fr !! b = fr !! b.
Proof. intros H. by apply list_lookup_alter_ne. Qed.

(** ** Lemmas: segments *)

Lemma dseg_nil (fr : list Frame) (p q r s : option nat) :
  dseg fr p q [] r s <-> p = s /\ q = r.
Proof. done. Qed.

Lemma dseg_cons (fr : list Frame) (p q r s : option nat) (a : nat) (l : list nat) :
  dseg fr p q (a :: l) r s <->
  p = Some a /\ exists f, fr !! a = Some f /\ prev f = q /\ dseg fr (next f) (Some a) l r s.
Proof.
  simpl. destruct (fr !! a) as [f|].
  - split; [intros (? & ? & ?); eauto 6|]. by intros (? & ? & [= <-] & ? & ?).
  - split; [by intros [_ []]|by intros (_ & ? & ? & _)].
Qed.

Lemma dseg_app (fr : list Frame) (p q r s : option nat) (l1 l2 : list nat) :
  dseg fr p q (l1 ++ l2) r s <->
  exists m n, dseg fr p q l1 m n /\ dseg fr n m l2 r s.
Proof.
  revert p q. induction l1 as [|a l1 IH]; intros p q.
  - simpl. split; [intros H; by exists q, p|]. by intros (m & n & [-> ->] & H).
  - rewrite <- app_comm_cons, dseg_cons. setoid_rewrite dseg_cons.
    setoid_rewrite IH. split.
    + intros (-> & f & ? & ? & m & n & ? & ?). exists m, n. eauto 8.
    + intros (m & n & (-> & f & ? & ? & ?) & ?). eauto 10.
Qed.

Lemma dseg_snoc (fr : list Frame) (p q r s : option nat) (l : list nat) (a : nat) :
  dseg fr p q (l ++ [a]) r s <->
  r = Some a /\ exists f, fr !! a = Some f /\ next f = s /\ dseg fr p q l (prev f) (Some a).
Proof.
  rewrite dseg_app. setoid_rewrite dseg_cons. setoid_rewrite dseg_nil. split.
  - intros (m & n & ? & -> & f & ? & <- & <- & <-). eauto 6.
  - intros (-> & f & ? & <- & ?). exists (prev f), (Some a). eauto 8.
Qed.

(** Every address of a segment is allocated. *)
Lemma dseg_is_Some (fr : list Frame) (p q r s : option nat) (l : list nat) (a : nat) :
  dseg fr p q l r s -> a ∈ l -> is_Some (fr !! a).
Proof.
  revert p q. induction l as [|b l IH]; intros p q H Ha; [by apply elem_of_nil in Ha|].
  apply dseg_cons in H as (_ & f & Hf & _ & H).
  apply elem_of_cons in Ha as [->|Ha]; eauto.
Qed.

(** The last address of a segment that is not empty. *)
Lemma dseg_last (fr : list Frame) (p q r s : option nat) (l : list nat) :
  dseg fr p q l r s -> l <> [] -> r = list.last l.
Proof.
  destruct l as [|a l _] using rev_ind; [done|]. intros H _.
  apply dseg_snoc in H as (-> & _). by rewrite last_snoc.
Qed.

Lemma dseg_head (fr : list Frame) (p q r s : option nat) (l : list nat) :
  dseg fr p q l r s -> l <> [] -> p = list.head l.
Proof. destruct l; [done|]. by intros [-> _] _. Qed.

(** A segment depends on the links of its own frames only. *)
Lemma dseg_ext (fr fr' : list Frame) (p q r s : option nat) (l : list nat) :
  (forall a f, a ∈ l -> fr !! a = Some f ->
     exists f', fr' !! a = Some f' /\ next f' = next f /\ prev f' = prev f) ->
  dseg fr p q l r s -> dseg fr' p q l r s.
Proof.
  revert p q. induction l as [|a l IH]; intros p q Hext; [done|].
  rewrite !dseg_cons. intros (-> & f & Hf & Hq & H).
  destruct (Hext a f (list_elem_of_here _ _) Hf) as (f' & Hf' & Hn & Hp).
  split; [done|]. exists f'. rewrite Hn, Hp. split_and!; [done..|].
  apply IH; [|done]. intros b g Hb. apply Hext. by right.
Qed.

Lemma dseg_alter_notin (fr : list Frame) (g : Frame -> Frame) (a : nat)
    (p q r s : option nat) (l : list nat) :
  a ∉ l -> dseg fr p q l r s -> dseg (alter g a fr) p q l r s.
Proof.
  intros Ha. apply dseg_ext. intros b f Hb Hf. exists f.
  rewrite lookup_alter_neq by (by intros ->). done.
Qed.

Lemma dseg_alter_payload (fr : list Frame) (g : Frame -> Frame) (a : nat)
    (p q r s : option nat) (l : list nat) :
  (forall f, next (g f) = next f /\ prev (g f) = prev f) ->
  dseg fr p q l r s -> dseg (alter g a fr) p q l r s.
Proof.
  intros Hg. apply dseg_ext. intros b f Hb Hf.
  destruct (decide (a = b)) as [->|Hne].
  - exists (g f). by rewrite (lookup_alter_eq _ _ _ f).
  - exists f. by rewrite lookup_alter_neq.
Qed.

(** [first->prev = q']. *)
Lemma dseg_set_prev (fr : list Frame) (q q' r s : option nat) (a : nat) (l : list nat) :
  a ∉ l -> dseg fr (Some a) q (a :: l) r s ->
  dseg (alter (set_prev q') a fr) (Some a) q' (a :: l) r s.
Proof.
  intros Ha. rewrite !dseg_cons. intros (_ & f & Hf & _ & H). split; [done|].
  exists (set_prev q' f). rewrite (lookup_alter_eq _ _ _ f) by done.
  split_and!; [done..|]. by apply dseg_alter_notin.
Qed.

(** [last->next = s']. *)
Lemma dseg_set_next (fr : list Frame) (p q r s s' : option nat) (a : nat) (l : list nat) :
  a ∉ l -> dseg fr p q (l ++ [a]) r s ->
  dseg (alter (set_next s') a fr) p q (l ++ [a]) r s'.
Proof.
  intros Ha. rewrite !dseg_snoc. intros (-> & f & Hf & _ & H). split; [done|].
  exists (set_next s' f). rewrite (lookup_alter_eq _ _ _ f) by done.
  split_and!; [done..|]. by apply dseg_alter_notin.
Qed.

(** ** Lemmas: payloads *)

Lemma payload_alter (fr : list Frame) (g : Frame -> Frame) (a : nat) :
  (forall f, payload (g f) = payload f) ->
  payload <$> alter g a fr = payload <$> fr.
Proof.
  intros Hg. apply list_eq. intros i. rewrite !list_lookup_fmap.
  destruct (decide (a = i)) as [->|Hne]; [|by rewrite lookup_alter_neq].
  destruct (fr !! i) as [f|] eqn:Hf.
  - rewrite (lookup_alter_eq _ _ _ f Hf). simpl. by rewrite Hg.
  - replace (alter g i fr !! i) with (@None Frame); [done|]. symmetry.
    apply lookup_ge_None. rewrite length_alter. by apply lookup_ge_None.
Qed.

Lemma payload_set_next (v : option nat) (f : Frame) : payload (set_next v f) = payload f.
Proof. done. Qed.

Lemma payload_set_prev (v : option nat) (f : Frame) : payload (set_prev v f) = payload f.
Proof. done. Qed.

(** ** The search loop *)

Lemma findFrame_spec (fr : list Frame) (pn : Z) (p q r s : option nat) (l : list nat) :
  dseg fr p q l r s -> findFrame (length l) p pn fr = Done (holder fr pn l).
Proof.
  revert p q. induction l as [|a l IH]; intros p q H; [done|].
  apply dseg_cons in H as (-> & f & Hf & _ & H). cbn [length findFrame holder].
  rewrite (load_Some _ _ f Hf), Hf. cbn [obind]. destruct (_ =? _); eauto.
Qed.

Lemma holder_Some (fr : list Frame) (pn : Z) (l : list nat) (a : nat) :
  holder fr pn l = Some a ->
  a ∈ l /\ exists f, fr !! a = Some f /\ pageNum (page f) = pn.
Proof.
  induction l as [|b l IH]; [done|]. simpl.
  destruct (fr !! b) as [f|] eqn:Hf; [|done].
  destruct (Z.eqb_spec (pageNum (page f)) pn) as [Heq|Hne].
  - intros [= <-]. split; [by left|eauto].
  - intros H. destruct (IH H) as [? ?]. split; [by right|done].
Qed.

Lemma holder_None (fr : list Frame) (pn : Z) (l : list nat) (a : nat) (f : Frame) :
  holder fr pn l = None -> (forall b, b ∈ l -> is_Some (fr !! b)) ->
  a ∈ l -> fr !! a = Some f -> pageNum (page f) <> pn.
Proof.
  induction l as [|b l IH]; intros H Hl Ha Hf; [by apply elem_of_nil in Ha|].
  simpl in H. destruct (Hl b (list_elem_of_here _ _)) as [g Hg]. rewrite Hg in H.
  destruct (Z.eqb_spec (pageNum (page g)) pn) as [Heq|Hne]; [done|].
  apply elem_of_cons in Ha as [->|Ha]; [by simplify_eq|].
  apply IH; [done| |done..]. intros c Hc. apply Hl. by right.
Qed.

(** ** The backward walk *)

Lemma pick_cons (fr : list Frame) (a : nat) (rl : list nat) :
  rl <> [] ->
  pick fr (a :: rl)
  = match fr !! a with
    | Some f => if fixBit f =? 0 then Some a else pick fr rl
    | None => None
    end.
Proof. by destruct rl. Qed.

(** An unpinned frame stops the walk where it starts. *)
Lemma victim_walk_unpinned (fuel : nat) (fr : list Frame) (a : nat) (f : Frame) :
  fr !! a = Some f -> fixBit f = 0 -> victim_walk fuel (Some a) fr = Done (Some a).
Proof.
  intros Hf Hfix. destruct fuel; simpl; rewrite (load_Some _ _ f Hf); simpl;
    rewrite Hfix; by destruct (prev f).
Qed.

(** On a list whose head has [prev == NULL] the walk ends, at the frame
    [pick] names. *)
Lemma victim_walk_spec (fuel : nat) (fr : list Frame) (p r s : option nat) (l : list nat) :
  dseg fr p None l r s -> l <> [] -> (length l <= S fuel)%nat ->
  victim_walk fuel r fr = Done (pick fr (reverse l)).
Proof.
  revert fuel r s. induction l as [|a l IH] using rev_ind; intros fuel r s H Hne Hlen; [done|].
  apply dseg_snoc in H as (-> & f & Hf & _ & H). rewrite reverse_snoc.
  destruct (decide (l = [])) as [->|Hl].
  - destruct H as [_ Hp]. destruct fuel; simpl; rewrite (load_Some _ _ f Hf); simpl;
      by rewrite <- Hp.
  - assert (reverse l <> []) as Hr
      by (intros Hr%(f_equal reverse); by rewrite reverse_involutive in Hr).
    rewrite pick_cons, Hf by done.
    pose proof (dseg_last _ _ _ _ _ _ H Hl) as Hp. rewrite length_app in Hlen.
    destruct fuel as [|fuel]; [destruct l; simpl in *; [done|lia]|].
    cbn [victim_walk]. rewrite (load_Some _ _ f Hf). cbn [obind].
    destruct (prev f) as [b|] eqn:Hb; [|by symmetry in Hp; apply last_None in Hp].
    destruct (fixBit f =? 0); [done|]. eapply IH; [done..|]. simpl in Hlen. lia.
Qed.

(** ** Lemmas: reading the heap after a store *)

Lemma load_alter_neq (fr : list Frame) (g : Frame -> Frame) (a b : nat) :
  a <> b -> load (alter g a fr) (Some b) = load fr (Some b).
Proof. intros H. unfold load. simpl. by rewrite lookup_alter_neq. Qed.

Lemma load_alter_eq (fr : list Frame) (g : Frame -> Frame) (a : nat) (f : Frame) :
  fr !! a = Some f -> load (alter g a fr) (Some a) = Done (g f).
Proof. intros H. apply load_Some. by apply lookup_alter_eq. Qed.

Lemma NoDup_snoc_inv (l : list nat) (a : nat) :
  NoDup (l ++ [a]) -> NoDup l /\ a ∉ l.
Proof.
  intros (Hl & Ha & _)%list.NoDup_app. split; [done|]. intros Hin.
  apply (Ha a Hin). by left.
Qed.

(** ** The relinking *)

(** Moving the head of a list whose head has [prev == NULL] goes through
    that pointer. *)
Lemma moveToHead_head (fr : list Frame) (md : BM_MgmtData) (h : nat) (l : list nat)
    (r s : option nat) :
  dseg fr (Some h) None (h :: l) r s -> moveToHead (Some h) md fr = Fault.
Proof.
  intros H. apply dseg_cons in H as (_ & f & Hf & Hp & _).
  unfold moveToHead. case_decide; rewrite (load_Some _ _ f Hf); cbn [obind]; by rewrite Hp.
Qed.

(** The heap [moveToHead] leaves, store by store, when every pointer it
    goes through is valid. *)
Lemma moveToHead_tail_run (fr : list Frame) (md : BM_MgmtData) (h t x : nat) (ft : Frame) :
  head md = Some h -> tail md = Some t -> x <> t ->
  fr !! t = Some ft -> prev ft = Some x -> is_Some (fr !! x) -> is_Some (fr !! h) ->
  moveToHead (Some t) md fr
  = Done (set_head (Some t) (set_tail (Some x) md),
          alter (set_prev (Some t)) h (alter (set_next (Some h)) t
            (alter (set_prev None) t (alter (set_next None) x fr)))).
Proof.
  intros Hh Ht Hxt Hft Hp Hx Hfh. unfold moveToHead. rewrite decide_True by done.
  rewrite (load_Some _ _ ft Hft). cbn [obind]. rewrite Hp.
  rewrite store_Some by done. cbn [obind].
  rewrite load_alter_neq, (load_Some _ _ ft Hft) by done. cbn [obind]. rewrite Hp.
  rewrite store_Some by (rewrite ?lookup_alter_is_Some; eauto). cbn [obind].
  rewrite store_Some by (rewrite ?lookup_alter_is_Some; eauto). cbn [obind].
  rewrite Hh. rewrite store_Some by (rewrite ?lookup_alter_is_Some; eauto). done.
Qed.

Lemma moveToHead_inner_run (fr : list Frame) (md : BM_MgmtData) (h t v x y : nat)
    (fv : Frame) :
  head md = Some h -> tail md = Some t -> v <> t -> x <> v ->
  fr !! v = Some fv -> prev fv = Some x -> next fv = Some y ->
  is_Some (fr !! x) -> is_Some (fr !! y) -> is_Some (fr !! h) ->
  moveToHead (Some v) md fr
  = Done (set_head (Some v) md,
          alter (set_prev (Some v)) h (alter (set_next (Some h)) v
            (alter (set_prev (Some x)) y (alter (set_next (Some y)) x fr)))).
Proof.
  intros Hh Ht Hvt Hxv Hfv Hp Hn Hx Hy Hfh. unfold moveToHead.
  rewrite decide_False by (rewrite Ht; by intros [= ->]).
  rewrite (load_Some _ _ fv Hfv). cbn [obind]. rewrite Hp, Hn.
  rewrite store_Some by done. cbn [obind].
  rewrite load_alter_neq, (load_Some _ _ fv Hfv) by done. cbn [obind]. rewrite Hp, Hn.
  rewrite store_Some by (rewrite ?lookup_alter_is_Some; eauto). cbn [obind].
  rewrite store_Some by (rewrite ?lookup_alter_is_Some; eauto). cbn [obind].
  rewrite Hh, store_Some by (rewrite ?lookup_alter_is_Some; eauto). done.
Qed.

(** Moving the tail of a list of two frames or more: the list is
    relinked with the tail in front, and the new head has [prev == NULL]. *)
Lemma moveToHead_tail (fr : list Frame) (md : BM_MgmtData) (q : option nat)
    (h t : nat) (l : list nat) :
  head md = Some h -> tail md = Some t -> l <> [] -> NoDup (l ++ [t]) ->
  dseg fr (Some h) q (l ++ [t]) (Some t) None ->
  exists fr',
    moveToHead (Some t) md fr
    = Done (set_head (Some t) (set_tail (list.last l) md), fr') /\
    dseg fr' (Some t) None (t :: l) (list.last l) None /\
    payload <$> fr' = payload <$> fr.
Proof.
  intros Hh Ht Hl Hnd H. destruct l as [|x l _] using rev_ind; [done|]. clear Hl.
  rewrite last_snoc. apply NoDup_snoc_inv in Hnd as [Hnd Htl].
  pose proof (NoDup_snoc_inv _ _ Hnd) as [_ Hxl].
  apply dseg_snoc in H as (_ & ft & Hft & Hnt & H).
  pose proof (dseg_head _ _ _ _ _ _ H ltac:(by destruct l)) as Hhd.
  pose proof H as (Hp & fx & Hfx & _ & _)%dseg_snoc.
  assert (x <> t) as Hxt by (intros ->; apply Htl, elem_of_app; right; by left).
  assert (h ∈ l ++ [x]) as Hin by (destruct l; simplify_eq/=; by left).
  assert (h <> t) as Hht by (by intros ->).
  destruct (dseg_is_Some _ _ _ _ _ _ h H Hin) as [fh Hfh].
  eexists. split_and!.
  - apply (moveToHead_tail_run _ _ h t x ft); eauto.
  - apply dseg_cons. split; [done|]. eexists. split.
    { rewrite lookup_alter_neq by done. do 2 apply lookup_alter_eq.
      rewrite lookup_alter_neq by done. exact Hft. }
    split; [done|]. simpl.
    apply (dseg_set_next _ _ _ _ _ None) in H; [|done].
    apply (dseg_alter_notin _ (set_prev None) t) in H; [|done].
    apply (dseg_alter_notin _ (set_next (Some h)) t) in H; [|done].
    rewrite Hp in H. destruct l as [|h' l]; injection Hhd as ->;
      (eapply dseg_set_prev; [|exact H]); by apply list.NoDup_cons in Hnd as [? ?].
  - rewrite !payload_alter; done.
Qed.

Lemma NoDup_middle (l1 l2 : list nat) (v : nat) :
  NoDup (l1 ++ v :: l2) -> NoDup (l1 ++ l2) /\ (v ∉ l1) /\ (v ∉ l2).
Proof.
  rewrite <- Permutation_middle. intros [Hv Hnd]%list.NoDup_cons.
  rewrite elem_of_app in Hv. tauto.
Qed.

(** Moving a frame that is neither the head nor the tail: the list is
    relinked with the frame in front, and the [prev] of the new head is
    left as it was. *)
Lemma moveToHead_inner (fr : list Frame) (md : BM_MgmtData) (q : option nat)
    (h t v : nat) (l1 l2 : list nat) :
  head md = Some h -> tail md = Some t -> l1 <> [] -> l2 <> [] ->
  NoDup (l1 ++ v :: l2) ->
  dseg fr (Some h) q (l1 ++ v :: l2) (Some t) None ->
  exists fr',
    moveToHead (Some v) md fr = Done (set_head (Some v) md, fr') /\
    dseg fr' (Some v) (list.last l1) (v :: l1 ++ l2) (Some t) None /\
    payload <$> fr' = payload <$> fr.
Proof.
  intros Hh Ht Hl1 Hl2 Hnd H.
  apply NoDup_middle in Hnd as (Hnd & Hv1 & Hv2).
  apply dseg_app in H as (m & n & H1 & H2).
  apply dseg_cons in H2 as (-> & fv & Hfv & <- & H2).
  pose proof (dseg_head _ _ _ _ _ _ H1 Hl1) as Hhd.
  pose proof (dseg_last _ _ _ _ _ _ H2 Hl2) as Htl.
  destruct l1 as [|x l1 _] using rev_ind; [done|]. clear Hl1.
  destruct l2 as [|y l2]; [done|]. clear Hl2.
  pose proof H1 as (Hp & fx & Hfx & _ & _)%dseg_snoc.
  pose proof H2 as (Hn & fy & Hfy & _ & _)%dseg_cons.
  rewrite last_snoc.
  pose proof Hnd as (Hnd1 & Hdisj & Hnd2)%list.NoDup_app.
  apply NoDup_snoc_inv in Hnd1 as [_ Hx]. apply list.NoDup_cons in Hnd2 as [Hy _].
  assert (h ∈ l1 ++ [x]) as Hin by (destruct l1; injection Hhd as ->; by left).
  assert (x <> v) as Hxv by (intros ->; apply Hv1, elem_of_app; right; by left).
  assert (y <> v) as Hyv by (intros ->; apply Hv2; by left).
  assert (h <> v) as Hhv by (by intros ->).
  assert (v <> t) as Hvt
    by (intros <-; apply Hv2; symmetry in Htl; by apply last_Some_elem_of).
  destruct (dseg_is_Some _ _ _ _ _ _ h H1 Hin) as [fh Hfh].
  eexists. split_and!.
  - apply (moveToHead_inner_run _ _ h t v x y fv); eauto.
  - apply dseg_cons. split; [done|]. eexists. split.
    { rewrite lookup_alter_neq by done. apply lookup_alter_eq.
      rewrite !lookup_alter_neq by done. exact Hfv. }
    split; [done|]. simpl.
    apply (dseg_set_next _ _ _ _ _ (Some y)) in H1; [|done].
    apply (dseg_alter_notin _ (set_prev (Some x)) y) in H1;
      [|intros Hy1; apply (Hdisj y Hy1); by left].
    apply (dseg_alter_notin _ (set_next (Some y)) x) in H2;
      [|intros Hx2; apply (Hdisj x); [apply elem_of_app; right; by left|done]].
    rewrite Hp in H1. rewrite Hn in H2. apply (dseg_set_prev _ _ (Some x)) in H2; [|done].
    assert (dseg (alter (set_prev (Some x)) y (alter (set_next (Some y)) x fr))
              (Some h) q ((l1 ++ [x]) ++ y :: l2) (Some t) None) as H
      by (apply dseg_app; exists (Some x), (Some y); done).
    apply (dseg_alter_notin _ (set_next (Some h)) v) in H;
      [|rewrite elem_of_app; tauto].
    destruct l1 as [|h' l1]; injection Hhd as ->;
      (eapply dseg_set_prev; [|exact H]); by apply list.NoDup_cons in Hnd as [? ?].
  - rewrite !payload_alter; done.
Qed.

(** The two cases together: a frame that is not the head moves to the
    front. The [prev] of the new head is NULL only if the frame was the
    tail. *)
Lemma moveToHead_spec (fr : list Frame) (md : BM_MgmtData) (q : option nat)
    (a : nat) (l1 l2 : list nat) :
  l1 <> [] -> NoDup (l1 ++ a :: l2) ->
  dseg fr (head md) q (l1 ++ a :: l2) (tail md) None ->
  exists md' fr',
    moveToHead (Some a) md fr = Done (md', fr') /\
    dseg fr' (head md') (if decide (l2 = []) then None else list.last l1)
      (a :: l1 ++ l2) (tail md') None /\
    payload <$> fr' = payload <$> fr /\
    fHandle md' = fHandle md /\ numReadIO md' = numReadIO md /\
    numWriteIO md' = numWriteIO md.
Proof.
  intros Hl1 Hnd H.
  pose proof (dseg_head _ _ _ _ _ _ H ltac:(by destruct l1)) as Hh.
  pose proof (dseg_last _ _ _ _ _ _ H ltac:(by destruct l1)) as Ht.
  destruct l1 as [|h l1]; [done|]. cbn [list.head app] in Hh.
  rewrite Hh, Ht in H. destruct (decide (l2 = [])) as [->|Hl2].
  - rewrite last_snoc in Ht, H. rewrite app_nil_r.
    destruct (moveToHead_tail fr md q h a (h :: l1) Hh Ht Hl1 Hnd H) as (fr' & -> & ? & ?).
    do 2 eexists. split; [done|]. done.
  - rewrite last_app_cons, last_cons in Ht, H.
    destruct (list.last l2) as [t|] eqn:Hlast; [|by apply last_None in Hlast].
    destruct (moveToHead_inner fr md q h t a (h :: l1) l2 Hh Ht Hl1 Hl2 Hnd H)
      as (fr' & -> & ? & ?).
    do 2 eexists. split; [done|]. cbn [head tail set_head]. by rewrite Ht.
Qed.

(** When every frame behind the head is pinned the walk ends on the head,
    whatever the pin count of the head. *)
Lemma pick_pinned (fr : list Frame) (rl : list nat) (h : nat) :
  Forall (pinned_at fr) rl -> pick fr (rl ++ [h]) = Some h.
Proof.
  induction rl as [|a rl IH]; intros Hpin; [done|].
  apply list.Forall_cons_1 in Hpin as [Ha Hpin]. unfold pinned_at in Ha.
  rewrite <- app_comm_cons, pick_cons by (by destruct rl).
  destruct (fr !! a) as [f|]; [|done].
  apply Z.eqb_neq in Ha. rewrite Ha. by apply IH.
Qed.

(** A walk among pinned frames whose [prev] pointers stay among them never
    ends, whatever the fuel. *)
Lemma victim_walk_diverges (fuel : nat) (fr : list Frame) (l : list nat) (a : nat) :
  (forall b, b ∈ l ->
     exists f c, fr !! b = Some f /\ fixBit f <> 0 /\ prev f = Some c /\ c ∈ l) ->
  a ∈ l -> victim_walk fuel (Some a) fr = Diverge.
Proof.
  intros Hl. revert a. induction fuel as [|fuel IH]; intros a Ha;
    destruct (Hl a Ha) as (f & c & Hf & Hfix%Z.eqb_neq & Hp & Hc);
    cbn [victim_walk]; rewrite (load_Some _ _ f Hf); cbn [obind]; rewrite Hp, Hfix;
    [done|by apply IH].
Qed.

(** The [prev] pointers of a list whose head points back into it. *)
Lemma dseg_prev_closed (fr : list Frame) (p r s : option nat) (l : list nat) (x b : nat) :
  dseg fr p (Some x) l r s -> x ∈ l -> b ∈ l ->
  exists f c, fr !! b = Some f /\ prev f = Some c /\ c ∈ l.
Proof.
  intros H Hx Hb. apply list_elem_of_split in Hb as (l1 & l2 & ->).
  apply dseg_app in H as (m & n & H1 & (_ & f & Hf & Hp & _)%dseg_cons).
  exists f. destruct l1 as [|c l1 _] using rev_ind.
  - destruct H1 as [_ <-]. exists x. done.
  - apply dseg_snoc in H1 as (-> & _). exists c. split_and!; [done..|].
    rewrite !elem_of_app. left. right. by left.
Qed.

(** Closing a list into a ring: [tail->next = head; head->prev = tail]. *)
Lemma dseg_close_ring (fr : list Frame) (q s : option nat) (h t : nat) (l : list nat) :
  NoDup l -> l <> [] -> dseg fr (Some h) q l (Some t) s ->
  dseg (alter (set_prev (Some t)) h (alter (set_next (Some h)) t fr))
    (Some h) (Some t) l (Some t) (Some h).
Proof.
  intros Hnd Hl H.
  pose proof (dseg_last _ _ _ _ _ _ H Hl) as Ht.
  assert (exists l0, l = l0 ++ [t]) as [l0 ->] by (by apply last_Some).
  apply NoDup_snoc_inv in Hnd as Hnd0.
  apply (dseg_set_next _ _ _ _ _ (Some h)) in H; [|by destruct Hnd0].
  pose proof (dseg_head _ _ _ _ _ _ H Hl) as Hh.
  destruct (l0 ++ [t]) as [|h' l'] eqn:El; [done|]. injection Hh as <-.
  eapply dseg_set_prev; [|exact H]. by apply list.NoDup_cons in Hnd as [? ?].
Qed.

End FL.
