(* ===== verification/BufferPool.v ===== *)
(** * BufferPool: the operations of the buffer pool on a well-formed pool

    [pool_ok] says when a FIFO or LRU pool is well formed: its frames are
    one doubly linked list from [head] to [tail] in the order [l], every
    frame owns its page buffer, and the file handle is open on a
    well-formed file. The theorems say what [initBufferPool], [pinPage],
    [unpinPage], [markDirty], [forcePage] and [forceFlushPool]
    ([src/src/buffer_mgr.c]) do to such a pool, and where they leave the
    invariant or dereference NULL. *)

From Stdlib Require Import ZArith Lia.
From Stdlib Require Import Strings.Byte.
From stdpp Require Import base option list numbers strings gmap.
From S2P Require Import Prelude Storage BufferMgr FrameList.
Import BM FL.

#[local] Open Scope Z_scope.
#[local] Open Scope outcome_scope.

Module BP.

(** ** The pool after initialisation, in closed form *)

(** Frame [j] of [k]: every new frame is put in front of the one before. *)
Definition init_frame (k j : nat) : Frame :=
  mkFrame false 0
    (match j with O => None | S j' => Some j' end)
    (if decide (S j < k)%nat then Some (S j) else None)
    (mkPageHandle (-1) (Some j)) (Z.of_nat j) 0.

Definition init_frames (k : nat) : list Frame := init_frame k <$> List.seq 0 k.

Definition init_md (n k : nat) (fh : SM.SM_FileHandle) : BM_MgmtData :=
  mkMgmtData (replicate n 0) (replicate n false) (replicate n 0) (replicate n 0) 0 0
    None
    (match k with O => None | S k' => Some k' end)
    (match k with O => None | S _ => Some O end)
    fh.

(** The pool after [k] of the [numPages] calls of [activateFrames]. *)
Definition init_pool (name : string) (numPages : Z) (s : ReplacementStrategy)
    (fh : SM.SM_FileHandle) (k : nat) : Pool :=
  mkPool (mkBufferPool (Some name) numPages s (Some (init_md (Z.to_nat numPages) k fh)))
    (init_frames k) (replicate k (zero_bytes PAGE_SIZE)).

(** The ring of CLOCK: the tail's [next] is the head, the head's [prev] is
    the tail, and the hand is on the head. *)
Definition close_ring (p : Pool) : Pool :=
  match mgmtData (bm p) with
  | Some md =>
      match head md, tail md with
      | Some h, Some t =>
          set_frames (alter (set_prev (Some t)) h (alter (set_next (Some h)) t (frames p)))
            (set_mgmtData (set_clkPtr (Some h) md) p)
      | _, _ => p
      end
  | None => p
  end.

(** The handle [initBufferPool] gets from [openPageFile]. *)
Definition opened (name : string) (w : SM.World) : SM.SM_FileHandle :=
  default (SM.mkHandle None 0 0 None)
    (snd (SM.openPageFile (Some name) (Some (SM.mkHandle None 0 0 None)) w)).

(** ** Well-formed pools *)

(** Frame [a] owns buffer [a], and every buffer is a page. *)
Definition bufs_ok (p : Pool) : Prop :=
  (fun f => data (page f)) <$> frames p = Some <$> List.seq 0 (length (frames p)) /\
  length (bufs p) = length (frames p) /\
  Forall (fun b => length b = PAGE_SIZE) (bufs p).

(** A pool under FIFO or LRU whose frames are linked in the order [l],
    head first. [q] is the [prev] of the head: NULL in a list as the
    initialisation builds it. *)
Definition pool_ok (w : SM.World) (p : Pool) (q : option nat) (l : list nat) : Prop :=
  match mgmtData (bm p) with
  | Some md =>
      numPages (bm p) = Z.of_nat (length l) /\
      length (frames p) = length l /\
      NoDup l /\
      dseg (frames p) (head md) q l (tail md) None /\
      bufs_ok p /\
      SM.handle_ok w (fHandle md)
  | None => False
  end.

(** No page is in two frames. *)
Definition distinct_pages (fr : list Frame) : Prop :=
  forall a b fa fb, fr !! a = Some fa -> fr !! b = Some fb ->
    0 <= pageNum (page fa) -> pageNum (page fa) = pageNum (page fb) -> a = b.

(** ** What a pin does to a frame *)

(** A hit: one more pin, and the reference bit. *)
Definition pinned (f : Frame) : Frame :=
  set_refBit 1 (set_fixBit (int_add (fixBit f) 1) f).

(** A miss under FIFO or LRU: one more pin and the new page number. *)
Definition loaded (pn : Z) (f : Frame) : Frame :=
  set_pageNum pn (set_fixBit (int_add (fixBit f) 1) f).

(** The pool after [markDirty] of page [pn]. *)
Definition marked (p : Pool) (pn : Z) (l : list nat) : Pool :=
  match holder (frames p) pn l with
  | Some a => set_frames (alter (set_dirtyBit true) a (frames p)) p
  | None => p
  end.

(** Updates of a frame that leave its links and its buffer alone. *)
Definition keeps_links (g : Frame -> Frame) : Prop :=
  forall f, next (g f) = next f /\ prev (g f) = prev f /\
            data (page (g f)) = data (page f).

(** ** A client of the pool *)

(** The calls of a client, by page number. *)
Inductive bm_op : Type :=
| OpPin (pageNum : Z)
| OpUnpin (pageNum : Z)
| OpMarkDirty (pageNum : Z).

(** The handle a client holds on page [pn]: the page number and the
    buffer of the frame that holds the page. *)
Definition handle_of (p : Pool) (pn : Z) : BM_PageHandle :=
  mkPageHandle pn
    (list_find (fun f => pageNum (page f) = pn) (frames p) ≫= fun x => data (page x.2)).

(** One call: the return code, the pool and the disk after it. *)
Definition run_bm_op (o : bm_op) (p : Pool) (w : SM.World)
    : outcome (RC * Pool * SM.World) :=
  match o with
  | OpPin pn =>
      r <- pinPage (Some p) (Some (mkPageHandle 0 None)) pn w;;
      p' <- of_ptr r.1.2;; Done (r.1.1, p', w)
  | OpUnpin pn =>
      r <- unpinPage (Some p) (Some (handle_of p pn)) w;;
      p' <- of_ptr r.1.2;; Done (r.1.1, p', r.2)
  | OpMarkDirty pn =>
      r <- markDirty (Some p) (Some (handle_of p pn));;
      p' <- of_ptr r.2;; Done (r.1, p', w)
  end.

(** A sequence of calls, whatever their return codes. *)
Fixpoint run_bm_ops (os : list bm_op) (p : Pool) (w : SM.World)
    : outcome (Pool * SM.World) :=
  match os with
  | [] => Done (p, w)
  | o :: os' => r <- run_bm_op o p w;; run_bm_ops os' r.1.2 r.2
  end.

(** ** Examples *)

(** A file ["t"] of six pages, page [i] filled with the byte [i]. *)
Definition ex_disk : SM.World :=
  match SM.run_ops [SM.OpWrite 1 (SM.ex_page x01); SM.OpWrite 2 (SM.ex_page x02);
                    SM.OpWrite 3 (SM.ex_page x03); SM.OpWrite 4 (SM.ex_page x04);
                    SM.OpWrite 5 (SM.ex_page x05)] SM.ex_handle SM.ex_world with
  | Done (_, w) => w
  | _ => SM.ex_world
  end.

Definition ex_file : list byte := default [] (SM.fs ex_disk !! "t"%string).

(** A pool before [initBufferPool], and the pool [initBufferPool] makes of
    it: [n] frames on the file ["t"]. *)
Definition ex_blank : Pool := mkPool (mkBufferPool None 0 RS_FIFO None) [] [].

Definition ex_pool (n : Z) (s : ReplacementStrategy) : Pool :=
  match initBufferPool (Some ex_blank) (Some "t"%string) n s ex_disk with
  | Done (_, Some p) => p
  | _ => ex_blank
  end.

(** The pool after the calls [os]. *)
Definition ex_after (n : Z) (s : ReplacementStrategy) (os : list bm_op) : Pool :=
  match run_bm_ops os (ex_pool n s) ex_disk with
  | Done (p, _) => p
  | _ => ex_pool n s
  end.

(** What the statistics interface shows of a pool. *)
(** The pools of the examples: after a first pin under FIFO and under LRU,
    after two pins under LRU, with every frame pinned, with every frame
    pinned after a victim was taken from the middle of the list, after an
    unpin, and with a dirty page. *)
Definition ex_fifo1 : Pool := ex_after 3 RS_FIFO [OpPin 1].
Definition ex_lru1 : Pool := ex_after 3 RS_LRU [OpPin 1].
Definition ex_lru2 : Pool := ex_after 3 RS_LRU [OpPin 1; OpPin 2].
Definition ex_full : Pool := ex_after 3 RS_FIFO [OpPin 1; OpPin 2; OpPin 3].
Definition ex_stale : Pool :=
  ex_after 3 RS_FIFO [OpPin 1; OpPin 2; OpPin 3; OpUnpin 2; OpPin 4].
Definition ex_unpinned : Pool := ex_after 3 RS_FIFO [OpPin 1; OpUnpin 1].
Definition ex_dirty : Pool := ex_after 3 RS_FIFO [OpPin 1; OpMarkDirty 1].

(** The management data and a frame of an example pool. *)
Definition ex_md (p : Pool) : BM_MgmtData :=
  default (init_md 0 0 (opened "t" ex_disk)) (mgmtData (bm p)).

Definition ex_frame (p : Pool) (a : nat) : Frame :=
  default (init_frame 0 0) (frames p !! a).

Definition contents (p : Pool) : outcome (option (list Z * list Z * Z * Z)) :=
  c <- getFrameContents (Some p);;
  x <- getFixCounts (Some p);;
  r <- getNumReadIO (Some p);;
  wr <- getNumWriteIO (Some p);;
  Done (match c, x, r, wr with
        | inr (c, _), inr (x, _), inr r, inr wr => Some (c, x, r, wr)
        | _, _, _, _ => None
        end).

#[local] Existing Instance SM.handle_ok_dec.

#[export] Instance bufs_ok_dec p : Decision (bufs_ok p).
Proof. unfold bufs_ok. apply _. Defined.

#[export] Instance pool_ok_dec w p q l : Decision (pool_ok w p q l).
Proof. unfold pool_ok. destruct (mgmtData (bm p)); apply _. Defined.
(** ** Lemmas: initialisation *)

Lemma length_init_frames (k : nat) : length (init_frames k) = k.
Proof. unfold init_frames. by rewrite length_fmap, length_seq. Qed.

Lemma lookup_init_frames (k j : nat) :
  (j < k)%nat -> init_frames k !! j = Some (init_frame k j).
Proof.
  intros H. unfold init_frames. by rewrite list_lookup_fmap, lookup_seq_lt.
Qed.

Lemma init_frames_S (k : nat) :
  init_frames (S k)
  = match k with
    | O => [init_frame 1 0]
    | S k' => alter (set_prev (Some (S k'))) k' (init_frames (S k'))
              ++ [init_frame (S (S k')) (S k')]
    end.
Proof.
  destruct k as [|k']; [done|].
  apply list_eq. intros j.
  destruct (decide (j < S k')%nat) as [Hlt|Hge].
  - rewrite lookup_init_frames by lia.
    rewrite lookup_app_l by (rewrite length_alter, length_init_frames; lia).
    rewrite list_lookup_alter. case_decide as Hj.
    + subst j. rewrite lookup_init_frames by lia. simpl. unfold init_frame, set_prev. simpl.
      repeat case_decide; try lia. done.
    + rewrite lookup_init_frames by lia. unfold init_frame.
      repeat case_decide; try lia; done.
  - destruct (decide (j = S k')) as [->|Hne].
    + rewrite lookup_init_frames by lia.
      rewrite lookup_app_r by (rewrite length_alter, length_init_frames; lia).
      rewrite length_alter, length_init_frames, Nat.sub_diag. done.
    + rewrite !lookup_ge_None_2; [done| |].
      * rewrite length_app, length_alter, length_init_frames. simpl. lia.
      * rewrite length_init_frames. lia.
Qed.

Lemma alter_last {A} (g : A -> A) (l : list A) (x : A) (k : nat) :
  k = length l -> alter g k (l ++ [x]) = l ++ [g x].
Proof. intros ->. rewrite alter_app_r_alt by lia. by rewrite Nat.sub_diag. Qed.

Lemma lookup_last {A} (l : list A) (x : A) (k : nat) :
  k = length l -> is_Some ((l ++ [x]) !! k).
Proof. intros ->. rewrite lookup_app_r by lia. rewrite Nat.sub_diag. by eexists. Qed.

Lemma activateFrames_init (name : string) (np : Z) (s : ReplacementStrategy)
    (fh : SM.SM_FileHandle) (k : nat) (x : Frame) :
  activateFrames (Some k)
    (Some (set_frames (init_frames k ++ [x]) (init_pool name np s fh k))) (Z.of_nat k)
  = Done (RC_OK, Some (init_pool name np s fh (S k))).
Proof.
  unfold activateFrames, init_pool. cbn [bufs frames set_frames bm mgmtData of_ptr obind].
  rewrite length_replicate, <- replicate_cons_app.
  rewrite store_Some by (apply lookup_last; by rewrite length_init_frames).
  rewrite alter_last by (by rewrite length_init_frames). cbn [obind].
  rewrite init_frames_S. destruct k as [|k']; [done|].
  cbn [head init_md]. replace (Z.of_nat (S k') =? 0) with false by (symmetry; apply Z.eqb_neq; lia).
  rewrite store_Some by (apply lookup_last; by rewrite length_init_frames).
  rewrite alter_last by (by rewrite length_init_frames). cbn [obind].
  rewrite store_Some
    by (rewrite lookup_app_l by (rewrite length_init_frames; lia);
        rewrite lookup_init_frames by lia; by eexists).
  rewrite alter_app_l by (rewrite length_init_frames; lia). cbn [obind].
  unfold init_frame. case_decide; [lia|]. done.
Qed.

Lemma activate_loop_init (name : string) (np : Z) (s : ReplacementStrategy)
    (fh : SM.SM_FileHandle) (n k : nat) :
  activate_loop n (Z.of_nat k) (init_pool name np s fh k)
  = Done (init_pool name np s fh (k + n)).
Proof.
  revert k. induction n as [|n IH]; intros k; cbn [activate_loop].
  - by rewrite Nat.add_0_r.
  - replace (length (frames (init_pool name np s fh k))) with k
      by (by cbn; rewrite length_init_frames).
    change (frames (init_pool name np s fh k)) with (init_frames k).
    rewrite activateFrames_init. cbn [obind snd of_ptr].
    replace (Z.of_nat k + 1) with (Z.of_nat (S k)) by lia.
    rewrite IH. f_equal. f_equal. lia.
Qed.

(** The list of a fresh pool: frame [k] first, frame 0 last. *)
Lemma dseg_init_frames (k n : nat) :
  (k < n)%nat ->
  dseg (init_frames n) (Some k) (if decide (S k < n)%nat then Some (S k) else None)
    (reverse (List.seq 0 (S k))) (Some 0%nat) None.
Proof.
  intros Hk. induction k as [|k IH].
  - apply dseg_cons. split; [done|]. exists (init_frame n 0).
    by rewrite lookup_init_frames by lia.
  - rewrite seq_S, reverse_snoc. apply dseg_cons. split; [done|].
    exists (init_frame n (S k)). rewrite lookup_init_frames by lia.
    split_and!; [done..|]. specialize (IH ltac:(lia)).
    by rewrite decide_True in IH by lia.
Qed.

(** [initBufferPool], whatever the arguments: the closed form of the pool,
    and under CLOCK the ring, which needs a frame to go through. *)
Lemma initBufferPool_run (name : string) (np : Z) (s : ReplacementStrategy)
    (w : SM.World) (p0 : Pool) :
  initBufferPool (Some p0) (Some name) np s w
  = (let p := init_pool name np s (opened name w) (Z.to_nat np) in
     if decide (s = RS_CLOCK) then
       match Z.to_nat np with
       | O => Fault
       | S _ => Done (RC_OK, Some (close_ring p))
       end
     else Done (RC_OK, Some p)).
Proof.
  unfold initBufferPool.
  change (mkPool _ [] []) with (init_pool name np s (opened name w) 0).
  pose proof (activate_loop_init name np s (opened name w) (Z.to_nat np) 0) as H.
  change (Z.of_nat 0) with 0 in H. rewrite H, Nat.add_0_l. cbn [obind].
  unfold init_pool at 1. cbn [of_ptr mgmtData bm obind]. case_decide; [|done].
  unfold close_ring, init_pool.
  destruct (Z.to_nat np) as [|k] eqn:Hk; [reflexivity|].
  cbn [head tail init_md set_clkPtr frames mgmtData bm].
  do 2 (rewrite store_Some
          by (rewrite ?lookup_alter_is_Some, lookup_init_frames by lia; by eexists);
        cbn [obind]).
  reflexivity.
Qed.

Lemma bufs_ok_init (name : string) (np : Z) (s : ReplacementStrategy)
    (fh : SM.SM_FileHandle) (k : nat) :
  bufs_ok (init_pool name np s fh k).
Proof.
  unfold bufs_ok. cbn. rewrite length_init_frames, length_replicate. split_and!; [|done|].
  - unfold init_frames. rewrite <- list_fmap_compose. done.
  - apply Forall_replicate. apply length_zero_bytes.
Qed.

Lemma opened_ok (w : SM.World) (name : string) (f : list byte) :
  SM.fs w !! name = Some f -> SM.file_ok f ->
  SM.handle_ok w (opened name w) /\ SM.totalNumPages (opened name w) = SM.file_pages f.
Proof.
  intros Hfs Hok. unfold opened.
  destruct (SM.openPageFile_ok w name f (SM.mkHandle None 0 0 None) Hfs Hok)
    as (h & -> & ? & _ & ? & _). done.
Qed.

Lemma pool_ok_init (name : string) (np : Z) (s : ReplacementStrategy) (w : SM.World)
    (f : list byte) :
  0 < np -> SM.fs w !! name = Some f -> SM.file_ok f ->
  pool_ok w (init_pool name np s (opened name w) (Z.to_nat np)) None
    (reverse (List.seq 0 (Z.to_nat np))).
Proof.
  intros Hnp Hfs Hok. unfold pool_ok. cbn [init_pool bm mgmtData frames].
  rewrite length_reverse, length_seq, length_init_frames.
  assert (np = Z.of_nat (Z.to_nat np)) as Hn by lia.
  destruct (Z.to_nat np) as [|k]; [lia|].
  split_and!; [done|done|rewrite reverse_Permutation; apply list.NoDup_seq| |apply bufs_ok_init|].
  - pose proof (dseg_init_frames k (S k) ltac:(lia)) as H.
    by rewrite decide_False in H by lia.
  - by apply (opened_ok w name f).
Qed.

(** ** Lemmas: well-formed pools *)

Lemma pool_ok_inv (w : SM.World) (p : Pool) (q : option nat) (l : list nat) :
  pool_ok w p q l ->
  exists md, mgmtData (bm p) = Some md /\
    Z.to_nat (numPages (bm p)) = length l /\ length (frames p) = length l /\ NoDup l /\
    dseg (frames p) (head md) q l (tail md) None /\ bufs_ok p /\
    SM.handle_ok w (fHandle md).
Proof.
  unfold pool_ok. destruct (mgmtData (bm p)) as [md|]; [|done].
  intros (Hn & ?). exists md. rewrite Hn, Nat2Z.id. done.
Qed.

(** The buffer of a frame of a well-formed pool. *)
Lemma bufs_ok_lookup (p : Pool) (a : nat) (f : Frame) :
  bufs_ok p -> frames p !! a = Some f ->
  data (page f) = Some a /\
  exists b, bufs p !! a = Some b /\ length b = PAGE_SIZE.
Proof.
  intros (Hd & Hlen & Hall) Hf. pose proof (lookup_lt_Some _ _ _ Hf) as Hlt.
  apply (f_equal (fun x => x !! a)) in Hd.
  rewrite !list_lookup_fmap, Hf, lookup_seq_lt in Hd by done. simpl in Hd.
  split; [by injection Hd|].
  destruct (lookup_lt_is_Some_2 (bufs p) a ltac:(lia)) as [b Hb].
  exists b. split; [done|]. by eapply (Forall_lookup_1 _ _ _ _ Hall).
Qed.

(** The invariant looks at the links and at the buffer pointers of the
    frames only. *)
Lemma bufs_ok_payload (p : Pool) (fr : list Frame) :
  payload <$> fr = payload <$> frames p -> bufs_ok p -> bufs_ok (set_frames fr p).
Proof.
  intros H (Hd & Hlen & Hall). pose proof (f_equal length H) as Hl.
  rewrite !length_fmap in Hl. unfold bufs_ok. cbn [frames bufs set_frames].
  rewrite Hl. split_and!; [|done..]. rewrite <- Hd.
  apply (f_equal (fmap (fun x : bool * Z * BM_PageHandle * Z * Z => data (x.1.1.2)))) in H.
  by rewrite <- !list_fmap_compose in H.
Qed.

(** The search loop of a well-formed pool finds [holder]. *)
Lemma findFrame_pool (w : SM.World) (p : Pool) (q : option nat) (l : list nat)
    (md : BM_MgmtData) (pn : Z) :
  pool_ok w p q l -> mgmtData (bm p) = Some md ->
  findFrame (Z.to_nat (numPages (bm p))) (head md) pn (frames p)
  = Done (holder (frames p) pn l).
Proof.
  intros (md' & Hmd & Hn & _ & _ & Hseg & _)%pool_ok_inv Hmd'. simplify_eq.
  rewrite Hn. by eapply findFrame_spec.
Qed.

Lemma keeps_links_pinned : keeps_links pinned.
Proof. done. Qed.

Lemma keeps_links_loaded (pn : Z) : keeps_links (loaded pn).
Proof. done. Qed.

Lemma keeps_links_set_dirtyBit (v : bool) : keeps_links (set_dirtyBit v).
Proof. done. Qed.

Lemma keeps_links_set_fixBit (g : Frame -> Z) :
  keeps_links (fun f => set_fixBit (g f) f).
Proof. done. Qed.

Lemma bufs_ok_alter (p : Pool) (g : Frame -> Frame) (a : nat) :
  keeps_links g -> bufs_ok p -> bufs_ok (set_frames (alter g a (frames p)) p).
Proof.
  intros Hg (Hd & Hlen & Hall). unfold bufs_ok. cbn [frames bufs set_frames].
  rewrite length_alter. split_and!; [|done..]. rewrite <- Hd.
  apply list_eq. intros i. rewrite !list_lookup_fmap.
  destruct (decide (a = i)) as [->|Hne]; [|by rewrite lookup_alter_neq].
  destruct (frames p !! i) as [f|] eqn:Hf.
  - rewrite (lookup_alter_eq _ _ _ f Hf). simpl. f_equal. apply Hg.
  - replace (alter g i (frames p) !! i) with (@None Frame); [done|]. symmetry.
    apply lookup_ge_None. rewrite length_alter. by apply lookup_ge_None.
Qed.

(** A change of payload keeps a pool well formed. *)
Lemma pool_ok_alter (w : SM.World) (p : Pool) (q : option nat) (l : list nat)
    (g : Frame -> Frame) (a : nat) :
  keeps_links g -> pool_ok w p q l ->
  pool_ok w (set_frames (alter g a (frames p)) p) q l.
Proof.
  intros Hg. unfold pool_ok. cbn [bm set_frames frames].
  destruct (mgmtData (bm p)) as [md|]; [|done].
  intros (? & ? & ? & ? & ? & ?). rewrite length_alter.
  split_and!; [done..| |by apply bufs_ok_alter|done].
  apply dseg_alter_payload; [|done]. intros f. split; apply Hg.
Qed.

(** ** The hit path *)

Lemma pin_hit_run (p : Pool) (md : BM_MgmtData) (a : nat) (f : Frame) :
  frames p !! a = Some f ->
  pin_hit (Some a) p md
  = (let fr := alter pinned a (frames p) in
     match strategy (bm p) with
     | RS_LRU =>
         r <- moveToHead (Some a) md fr;;
         let '(md, fr) := r in Done (set_frames fr (set_mgmtData md p), page f)
     | RS_CLOCK => Done (set_frames fr (set_mgmtData (set_clkPtr (next f) md) p), page f)
     | RS_FIFO => Done (set_frames fr p, page f)
     end).
Proof.
  intros Hf. unfold pin_hit. rewrite store_Some by eauto. cbn [obind].
  rewrite store_Some by (rewrite lookup_alter_is_Some; eauto). cbn [obind].
  rewrite list_alter_alter_eq. change (_ ∘ _) with pinned.
  rewrite (load_alter_eq _ _ _ f Hf). cbn [obind].
  change (page (_ f)) with (page f). destruct (page f) as [n d]. cbn [pageNum data].
  by destruct (strategy (bm p)).
Qed.

Lemma pool_ok_intro (w : SM.World) (p : Pool) (md : BM_MgmtData) (q : option nat)
    (l : list nat) :
  mgmtData (bm p) = Some md -> Z.to_nat (numPages (bm p)) = length l ->
  0 <= numPages (bm p) -> length (frames p) = length l -> NoDup l ->
  dseg (frames p) (head md) q l (tail md) None -> bufs_ok p ->
  SM.handle_ok w (fHandle md) -> pool_ok w p q l.
Proof. intros Hmd Hn Hpos ? ? ? ? ?. unfold pool_ok. rewrite Hmd. split_and!; (done || lia). Qed.

Lemma pool_ok_numPages (w : SM.World) (p : Pool) (q : option nat) (l : list nat) :
  pool_ok w p q l -> 0 <= numPages (bm p).
Proof. unfold pool_ok. destruct (mgmtData (bm p)); [|done]. lia. Qed.

Lemma length_payload (fr fr' : list Frame) :
  payload <$> fr' = payload <$> fr -> length fr' = length fr.
Proof. intros H%(f_equal length). by rewrite !length_fmap in H. Qed.

Lemma pinPage_run (w : SM.World) (p : Pool) (q : option nat) (l : list nat)
    (md : BM_MgmtData) (pg0 : BM_PageHandle) (pn : Z) :
  pool_ok w p q l -> mgmtData (bm p) = Some md ->
  pinPage (Some p) (Some pg0) pn w
  = (r <- match holder (frames p) pn l with
          | Some a => pin_hit (Some a) p md
          | None => pin_miss pn p md w
          end;;
     let '(p', pg) := r in Done (RC_OK, Some p', Some pg)).
Proof.
  intros Hok Hmd. unfold pinPage. rewrite Hmd. cbn [of_ptr obind].
  by rewrite (findFrame_pool w p q l md pn Hok Hmd).
Qed.

(** The frame a hit finds, and the handle the caller gets. *)
Lemma holder_frame (w : SM.World) (p : Pool) (q : option nat) (l : list nat)
    (pn : Z) (a : nat) :
  pool_ok w p q l -> holder (frames p) pn l = Some a ->
  a ∈ l /\ exists f, frames p !! a = Some f /\ page f = mkPageHandle pn (Some a).
Proof.
  intros (md & _ & _ & _ & _ & _ & Hb & _)%pool_ok_inv (Ha & f & Hf & Hpn)%holder_Some.
  split; [done|]. exists f. split; [done|].
  destruct (bufs_ok_lookup p a f Hb Hf) as [Hd _].
  destruct (page f); simpl in *; by subst.
Qed.

(** ** Theorems: the hit path *)

(** C3: a hit under FIFO. [pinPage] of a page that a frame of a well-formed
    pool holds returns [RC_OK] and a handle on that frame's buffer, adds
    one to the pin count of the frame and sets its reference bit; the
    list, the buffers, the counters and the disk are as before, and the
    pool is still well formed. *)
Theorem pinPage_hit_FIFO (w : SM.World) (p : Pool) (q : option nat) (l : list nat)
    (pg0 : BM_PageHandle) (pn : Z) (a : nat) :
  pool_ok w p q l -> strategy (bm p) = RS_FIFO -> holder (frames p) pn l = Some a ->
  pinPage (Some p) (Some pg0) pn w
  = Done (RC_OK, Some (set_frames (alter pinned a (frames p)) p),
          Some (mkPageHandle pn (Some a))) /\
  pool_ok w (set_frames (alter pinned a (frames p)) p) q l.
Proof.
  intros Hok Hs Hhit. destruct (holder_frame w p q l pn a Hok Hhit) as (_ & f & Hf & Hpg).
  destruct (pool_ok_inv _ _ _ _ Hok) as (md & Hmd & _).
  rewrite (pinPage_run w p q l md) by done. rewrite Hhit, (pin_hit_run p md a f Hf), Hs.
  cbn [obind]. rewrite Hpg. split; [done|]. by apply pool_ok_alter.
Qed.

(** C6: a hit under LRU on a frame that is not the head. The frame is pinned
    and moved to the front of the list, and the pool is still a list in
    that order; but the [prev] of the new head is NULL only if the frame
    was the tail, and is the frame's old predecessor otherwise. *)
Theorem pinPage_hit_LRU (w : SM.World) (p : Pool) (q : option nat) (l1 l2 : list nat)
    (pg0 : BM_PageHandle) (pn : Z) (a : nat) :
  pool_ok w p q (l1 ++ a :: l2) -> l1 <> [] -> strategy (bm p) = RS_LRU ->
  holder (frames p) pn (l1 ++ a :: l2) = Some a ->
  exists p',
    pinPage (Some p) (Some pg0) pn w = Done (RC_OK, Some p', Some (mkPageHandle pn (Some a))) /\
    pool_ok w p' (if decide (l2 = []) then None else list.last l1) (a :: l1 ++ l2) /\
    payload <$> frames p' = payload <$> alter pinned a (frames p) /\
    bufs p' = bufs p.
Proof.
  intros Hok Hl1 Hs Hhit.
  destruct (holder_frame w p q _ pn a Hok Hhit) as (_ & f & Hf & Hpg).
  pose proof (pool_ok_numPages _ _ _ _ Hok) as Hpos.
  pose proof (pool_ok_alter _ _ _ _ pinned a keeps_links_pinned Hok) as Hok'.
  destruct (pool_ok_inv _ _ _ _ Hok') as (md & Hmd & Hn & Hlen & Hnd & Hseg & Hb & Hh).
  cbn [set_frames frames bm] in Hmd, Hn, Hlen, Hseg.
  destruct (moveToHead_spec _ md q a l1 l2 Hl1 Hnd Hseg)
    as (md' & fr' & Hrun & Hseg' & Hpay & Hfh & _).
  exists (set_frames fr' (set_mgmtData md' p)).
  rewrite (pinPage_run w p q (l1 ++ a :: l2) md) by done.
  rewrite Hhit, (pin_hit_run p md a f Hf), Hs. cbn zeta. rewrite Hrun. cbn [obind].
  rewrite Hpg. split_and!; [done| |done..].
  rewrite length_app in Hn, Hlen. cbn [length] in Hn, Hlen.
  apply (pool_ok_intro _ _ md'); cbn [set_frames set_mgmtData bm frames mgmtData numPages];
    rewrite ?(length_payload _ _ Hpay), ?Hfh; cbn [length]; rewrite ?length_app;
    [done|lia|done|lia| |done| |done].
  - apply NoDup_middle in Hnd as (? & ? & ?). apply list.NoDup_cons.
    by rewrite not_elem_of_app.
  - by apply (bufs_ok_payload (set_frames (alter pinned a (frames p)) p)).
Qed.

(** C19: a hit under LRU on the head of a list as the initialisation builds
    it. The relinking goes through [frame->prev], which is NULL: pinning
    the most recently used page again dereferences NULL. *)
Theorem pinPage_hit_LRU_head (w : SM.World) (p : Pool) (l : list nat)
    (pg0 : BM_PageHandle) (pn : Z) (h : nat) :
  pool_ok w p None (h :: l) -> strategy (bm p) = RS_LRU ->
  holder (frames p) pn (h :: l) = Some h ->
  pinPage (Some p) (Some pg0) pn w = Fault.
Proof.
  intros Hok Hs Hhit.
  destruct (holder_frame w p None _ pn h Hok Hhit) as (_ & f & Hf & _).
  pose proof (pool_ok_alter _ _ _ _ pinned h keeps_links_pinned Hok) as Hok'.
  destruct (pool_ok_inv _ _ _ _ Hok') as (md & Hmd & _ & _ & _ & Hseg & _).
  cbn [set_frames frames bm] in Hmd, Hseg.
  rewrite (pinPage_run w p None (h :: l) md) by done.
  rewrite Hhit, (pin_hit_run p md h f Hf), Hs. cbn zeta.
  pose proof Hseg as [Hh _]. rewrite Hh in Hseg.
  by rewrite (moveToHead_head _ md h l _ _ Hseg).
Qed.

(** ** The miss path under FIFO and LRU *)

Lemma read_into_ok (w : SM.World) (p : Pool) (md : BM_MgmtData) (t : nat) (ft : Frame)
    (pn : Z) (pages : list (list byte)) (pg : list byte) :
  bufs_ok p -> frames p !! t = Some ft -> SM.handle_ok w (fHandle md) ->
  SM.disk w (fHandle md) = Some pages -> 0 <= pn -> pages !! Z.to_nat pn = Some pg ->
  read_into (Some t) pn p md w
  = Done (set_bufs (<[t := pg]> (bufs p)) p,
          set_fHandle (SM.set_curPagePos pn (fHandle md)) md).
Proof.
  intros Hb Hf Hh Hd Hpn Hpg. unfold read_into. rewrite (load_Some _ _ ft Hf). cbn [obind].
  destruct (bufs_ok_lookup p t ft Hb Hf) as (-> & b & Hbt & Hlen).
  destruct (SM.disk_lookup _ _ _ _ _ Hh Hd Hpg) as (name & f & ? & ? & ? & ? & ? & -> & _).
  unfold buffer. cbn [mbind option_bind]. rewrite Hbt.
  by rewrite (SM.readBlock_ok w _ name f b pn) by (done || lia).
Qed.

Lemma payload_alter_congr (fr1 fr2 : list Frame) (g : Frame -> Frame) (a : nat) :
  (forall f f', payload f = payload f' -> payload (g f) = payload (g f')) ->
  payload <$> fr2 = payload <$> fr1 ->
  payload <$> alter g a fr2 = payload <$> alter g a fr1.
Proof.
  intros Hg H. apply list_eq. intros i.
  apply (f_equal (fun x => x !! i)) in H. rewrite !list_lookup_fmap in *.
  rewrite !list_lookup_alter. case_decide; [|done]. subst.
  destruct (fr2 !! i), (fr1 !! i); try done. simpl in *. f_equal. apply Hg. congruence.
Qed.

Lemma data_payload (fr fr' : list Frame) :
  payload <$> fr' = payload <$> fr ->
  (fun f => data (page f)) <$> fr' = (fun f => data (page f)) <$> fr.
Proof.
  intros H.
  apply (f_equal (fmap (fun x : bool * Z * BM_PageHandle * Z * Z => data (x.1.1.2)))) in H.
  by rewrite <- !list_fmap_compose in H.
Qed.

Lemma data_alter (fr : list Frame) (g : Frame -> Frame) (a : nat) :
  keeps_links g ->
  (fun f => data (page f)) <$> alter g a fr = (fun f => data (page f)) <$> fr.
Proof.
  intros Hg. apply list_eq. intros i. rewrite !list_lookup_fmap, list_lookup_alter.
  case_decide; [subst|done]. destruct (fr !! i); [|done]. simpl. f_equal. apply Hg.
Qed.

Lemma bufs_ok_update (p : Pool) (md : BM_MgmtData) (fr : list Frame) (a : nat)
    (b : list byte) :
  (fun f => data (page f)) <$> fr = (fun f => data (page f)) <$> frames p ->
  length b = PAGE_SIZE -> bufs_ok p ->
  bufs_ok (set_frames fr (set_mgmtData md (set_bufs (<[a := b]> (bufs p)) p))).
Proof.
  intros H Hlen (Hd & Hl & Hall). unfold bufs_ok.
  cbn [set_frames set_bufs set_mgmtData frames bufs].
  pose proof (f_equal length H) as Hfr. rewrite !length_fmap in Hfr.
  rewrite H, Hfr, length_insert. split_and!; [done..|].
  apply Forall_insert; done.
Qed.

(** The miss path under FIFO and LRU, from the results of its three
    steps: the walk, the read and the relinking. *)
Lemma pin_miss_run (w : SM.World) (p p1 : Pool) (md md1 md2 : BM_MgmtData) (pn : Z)
    (t : nat) (ft : Frame) (fr2 : list Frame) :
  strategy (bm p) <> RS_CLOCK ->
  victim_walk (length (frames p)) (tail md) (frames p) = Done (Some t) ->
  read_into (Some t) pn p md w = Done (p1, md1) -> frames p1 = frames p ->
  frames p !! t = Some ft ->
  moveToHead (Some t) (set_numReadIO (int_add (numReadIO md1) 1) md1)
    (alter (fun f => set_fixBit (int_add (fixBit f) 1) f) t (frames p)) = Done (md2, fr2) ->
  payload <$> fr2
  = payload <$> alter (fun f => set_fixBit (int_add (fixBit f) 1) f) t (frames p) ->
  pin_miss pn p md w
  = Done (set_frames (alter (set_pageNum pn) t fr2) (set_mgmtData md2 p1),
          mkPageHandle pn (data (page ft))).
Proof.
  intros Hs Hwalk Hread Hfr Hf Hmove Hpay. unfold pin_miss.
  assert (exists f2, fr2 !! t = Some f2 /\ data (page f2) = data (page ft)) as (f2 & Hf2 & Hd).
  { apply (f_equal (fun x => x !! t)) in Hpay.
    rewrite !list_lookup_fmap, (lookup_alter_eq _ _ _ ft Hf) in Hpay.
    destruct (fr2 !! t) as [f2|]; [|done]. exists f2. split; [done|].
    injection Hpay as _ _ Hpg _ _. by rewrite Hpg. }
  destruct (strategy (bm p)); [| |done];
    rewrite Hwalk; cbn [obind]; rewrite Hread; cbn [obind]; rewrite Hfr;
    (rewrite store_Some by eauto); cbn [obind]; rewrite Hmove; cbn [obind frames set_frames];
    (rewrite store_Some by eauto); cbn [obind]; rewrite (load_alter_eq _ _ _ f2 Hf2);
    cbn [obind]; by rewrite <- Hd.
Qed.

Lemma loaded_payload (pn : Z) (f f' : Frame) :
  payload f = payload f' -> payload (set_pageNum pn f) = payload (set_pageNum pn f').
Proof. unfold payload, set_pageNum. simpl. congruence. Qed.

(** The miss path under FIFO and LRU when the tail frame is unpinned, from the walk to the relinking. *)
Lemma pinPage_miss_tail_ok (w : SM.World) (p : Pool) (md : BM_MgmtData) (q : option nat)
    (l : list nat) (pg0 : BM_PageHandle) (pn : Z) (t : nat) (ft : Frame)
    (pages : list (list byte)) (pg : list byte) :
  pool_ok w p q (l ++ [t]) -> l <> [] -> strategy (bm p) <> RS_CLOCK ->
  holder (frames p) pn (l ++ [t]) = None ->
  frames p !! t = Some ft -> fixBit ft = 0 ->
  mgmtData (bm p) = Some md -> SM.disk w (fHandle md) = Some pages ->
  0 <= pn -> pages !! Z.to_nat pn = Some pg ->
  exists p' md',
    pinPage (Some p) (Some pg0) pn w = Done (RC_OK, Some p', Some (mkPageHandle pn (Some t))) /\
    pool_ok w p' None (t :: l) /\
    payload <$> frames p' = payload <$> alter (loaded pn) t (frames p) /\
    bufs p' = <[t := pg]> (bufs p) /\
    mgmtData (bm p') = Some md' /\
    numReadIO md' = int_add (numReadIO md) 1 /\ numWriteIO md' = numWriteIO md /\
    fHandle md' = SM.set_curPagePos pn (fHandle md) /\
    strategy (bm p') = strategy (bm p).
Proof.
  intros Hok Hl Hs Hmiss Hf Hfix Hmd Hd Hpn Hpg.
  pose proof (pool_ok_numPages _ _ _ _ Hok) as Hpos.
  destruct (pool_ok_inv _ _ _ _ Hok) as (md0 & Hmd0 & Hn & Hlen & Hnd & Hseg & Hb & Hh).
  simplify_eq. destruct (bufs_ok_lookup p t ft Hb Hf) as (Hdt & _).
  destruct (SM.disk_lookup _ _ _ _ _ Hh Hd Hpg) as (_ & _ & _ & _ & _ & _ & _ & _ & Hpl).
  pose proof (dseg_last _ _ _ _ _ _ Hseg ltac:(by destruct l)) as Ht. rewrite last_snoc in Ht.
  set (md1 := set_numReadIO (int_add (numReadIO md) 1)
                (set_fHandle (SM.set_curPagePos pn (fHandle md)) md)).
  destruct (moveToHead_spec
              (alter (fun f => set_fixBit (int_add (fixBit f) 1) f) t (frames p))
              md1 q t l [] Hl Hnd) as (md' & fr' & Hrun & Hseg' & Hpay & Hfh & Hr & Hwr).
  { apply dseg_alter_payload; done. }
  rewrite decide_True, app_nil_r in Hseg' by done.
  exists (set_frames (alter (set_pageNum pn) t fr')
            (set_mgmtData md' (set_bufs (<[t := pg]> (bufs p)) p))), md'.
  rewrite (pinPage_run w p q (l ++ [t]) md), Hmiss by done.
  rewrite (pin_miss_run w p (set_bufs (<[t := pg]> (bufs p)) p) md
             (set_fHandle (SM.set_curPagePos pn (fHandle md)) md) md' pn t ft fr' Hs);
    [|rewrite Ht; by eapply victim_walk_unpinned|by eapply read_into_ok|done..].
  cbn [obind]. rewrite Hdt. split_and!; [done| |..|done|done|done|done|done|done].
  - rewrite length_app in Hn, Hlen. cbn [length] in Hn, Hlen.
    apply (pool_ok_intro _ _ md');
      cbn [set_frames set_mgmtData set_bufs bm frames mgmtData numPages];
      rewrite ?length_alter, ?(length_payload _ _ Hpay), ?length_alter, ?Hfh;
      cbn [length]; [done|lia|done|lia| | | |].
    + apply NoDup_snoc_inv in Hnd as [? ?]. by apply list.NoDup_cons.
    + by apply dseg_alter_payload.
    + apply bufs_ok_update; [|done..].
      by rewrite (data_alter _ (set_pageNum pn)), (data_payload _ _ Hpay), data_alter.
    + by apply SM.handle_ok_set_curPagePos.
  - cbn [frames set_frames].
    change (loaded pn) with (set_pageNum pn ∘ (fun f => set_fixBit (int_add (fixBit f) 1) f)).
    rewrite <- list_alter_alter_eq.
    apply payload_alter_congr; [apply loaded_payload|done].
Qed.

(** C1: a miss under FIFO or LRU when the tail frame is unpinned. The tail
    is the victim: the page is read from disk into its buffer, the frame
    gets the page number and one pin, [numReadIO] grows by one, and the
    frame is moved to the front of the list. The pool is well formed,
    with [head->prev == NULL], and the caller's handle is on the victim's
    buffer. *)
Theorem pinPage_miss_tail (w : SM.World) (p : Pool) (md : BM_MgmtData) (q : option nat)
    (l : list nat) (pg0 : BM_PageHandle) (pn : Z) (t : nat) (ft : Frame)
    (pages : list (list byte)) (pg : list byte) :
  pool_ok w p q (l ++ [t]) -> l <> [] -> strategy (bm p) <> RS_CLOCK ->
  holder (frames p) pn (l ++ [t]) = None ->
  frames p !! t = Some ft -> fixBit ft = 0 ->
  mgmtData (bm p) = Some md -> SM.disk w (fHandle md) = Some pages ->
  0 <= pn -> pages !! Z.to_nat pn = Some pg ->
  exists p' md',
    pinPage (Some p) (Some pg0) pn w = Done (RC_OK, Some p', Some (mkPageHandle pn (Some t))) /\
    pool_ok w p' None (t :: l) /\
    payload <$> frames p' = payload <$> alter (loaded pn) t (frames p) /\
    bufs p' = <[t := pg]> (bufs p) /\
    mgmtData (bm p') = Some md' /\
    numReadIO md' = int_add (numReadIO md) 1 /\ numWriteIO md' = numWriteIO md.
Proof.
  intros Hok Hl Hs Hmiss Hf Hfix Hmd Hd Hpn Hpg.
  destruct (pinPage_miss_tail_ok w p md q l pg0 pn t ft pages pg)
    as (p' & md' & ? & ? & ? & ? & ? & ? & ? & _); eauto 10.
Qed.

(** C14: a miss under FIFO or LRU when every frame behind the head is pinned.
    The walk ends on the head without looking at its pin count, and the
    relinking of the head goes through its [prev], which is NULL: the call
    dereferences NULL instead of returning an error. A pool of one frame
    is the case of an empty rest: its first [pinPage] faults. *)
Theorem pinPage_miss_pinned (w : SM.World) (p : Pool) (l : list nat)
    (pg0 : BM_PageHandle) (pn : Z) (h : nat) :
  pool_ok w p None (h :: l) -> strategy (bm p) <> RS_CLOCK ->
  holder (frames p) pn (h :: l) = None ->
  Forall (pinned_at (frames p)) l ->
  pinPage (Some p) (Some pg0) pn w = Fault.
Proof.
  intros Hok Hs Hmiss Hpin.
  destruct (pool_ok_inv _ _ _ _ Hok) as (md & Hmd & _ & Hlen & _ & Hseg & _).
  destruct (dseg_is_Some _ _ _ _ _ _ h Hseg (list_elem_of_here _ _)) as [fh Hfh].
  rewrite (pinPage_run w p None (h :: l) md), Hmiss by done. unfold pin_miss.
  rewrite (victim_walk_spec _ _ _ _ _ _ Hseg) by (done || lia).
  rewrite reverse_cons, pick_pinned by (by apply Forall_reverse).
  assert (exists p1 md1, read_into (Some h) pn p md w = Done (p1, md1) /\
            frames p1 = frames p /\ head md1 = head md /\ tail md1 = tail md)
    as (p1 & md1 & Hread & Hfr & Hh1 & Ht1).
  { unfold read_into. rewrite (load_Some _ _ fh Hfh). cbn [obind].
    destruct (SM.readBlock _ _ _ _) as [[rc oh] ob]. by do 2 eexists. }
  pose proof Hseg as [Hh _]. rewrite Hh in Hseg.
  apply (dseg_alter_payload _ (fun f => set_fixBit (int_add (fixBit f) 1) f) h) in Hseg;
    [|done].
  destruct (strategy (bm p)); [| |done]; cbn [obind]; rewrite Hread; cbn [obind];
    rewrite Hfr, store_Some by eauto; cbn [obind];
    by rewrite (moveToHead_head _ _ h l _ _ Hseg).
Qed.

(** ** Theorems: [markDirty], [forcePage] and [unpinPage] *)

(** C24: [markDirty] sets the dirty flag of the frame that holds the page and
    changes nothing else; for a page that no frame holds it changes
    nothing and still returns [RC_OK]. *)
Theorem markDirty_spec (w : SM.World) (p : Pool) (q : option nat) (l : list nat)
    (pg : BM_PageHandle) :
  pool_ok w p q l ->
  markDirty (Some p) (Some pg) = Done (RC_OK, Some (marked p (pageNum pg) l)) /\
  pool_ok w (marked p (pageNum pg) l) q l.
Proof.
  intros Hok. destruct (pool_ok_inv _ _ _ _ Hok) as (md & Hmd & _).
  unfold markDirty, marked. rewrite Hmd. cbn [of_ptr obind].
  rewrite (findFrame_pool w p q l md _ Hok Hmd). cbn [obind].
  destruct (holder (frames p) (pageNum pg) l) as [a|] eqn:Hhit; [|done].
  destruct (holder_frame w p q l _ a Hok Hhit) as (_ & f & Hf & _).
  rewrite store_Some by eauto. split; [done|].
  apply pool_ok_alter; [apply keeps_links_set_dirtyBit|done].
Qed.

Lemma forcePage_ok (w : SM.World) (p : Pool) (md : BM_MgmtData) (pg : BM_PageHandle)
    (pages : list (list byte)) (b : list byte) :
  mgmtData (bm p) = Some md -> SM.handle_ok w (fHandle md) ->
  SM.disk w (fHandle md) = Some pages -> 0 <= pageNum pg < SM.totalNumPages (fHandle md) ->
  buffer (bufs p) (data pg) = Some b -> length b = PAGE_SIZE ->
  exists w',
    let md' := set_numWriteIO (int_add (numWriteIO md) 1)
                 (set_fHandle (SM.set_curPagePos (pageNum pg + 1) (fHandle md)) md) in
    forcePage (Some p) (Some pg) w = Done (RC_OK, Some (set_mgmtData md' p), w') /\
    SM.handle_ok w' (fHandle md') /\
    SM.disk w' (fHandle md') = Some (<[Z.to_nat (pageNum pg) := b]> pages).
Proof.
  intros Hmd Hh Hd Hpn Hb Hlen.
  destruct (SM.writeBlock_in_range w _ _ b pages Hh Hd Hpn Hlen) as (w' & Hw & Hh' & Hd' & _).
  exists w'. unfold forcePage. rewrite Hmd. cbn [of_ptr obind]. rewrite Hb, Hw. done.
Qed.

(** The frame [unpinPage] finds, with one pin less. *)
Lemma unpinPage_run (w : SM.World) (p : Pool) (q : option nat) (l : list nat)
    (pg : BM_PageHandle) (a : nat) (f : Frame) :
  pool_ok w p q l -> holder (frames p) (pageNum pg) l = Some a ->
  frames p !! a = Some f ->
  let fr := alter (fun f => set_fixBit (int_sub (fixBit f) 1) f) a (frames p) in
  unpinPage (Some p) (Some pg) w
  = (if int_sub (fixBit f) 1 <? 0 then Done (RC_WRITE_FAILED, Some (set_frames fr p), w)
     else if dirtyBit f then
       r <- forcePage (Some (set_frames (alter (set_data (data pg)) a fr) p)) (Some pg) w;;
       let '(_, op, w') := r in Done (RC_OK, op, w')
     else Done (RC_OK, Some (set_frames fr p), w)).
Proof.
  intros Hok Hhit Hf fr. destruct (pool_ok_inv _ _ _ _ Hok) as (md & Hmd & _).
  unfold unpinPage. rewrite Hmd. cbn [of_ptr obind].
  rewrite (findFrame_pool w p q l md _ Hok Hmd), Hhit. cbn [obind].
  rewrite store_Some by eauto. cbn [obind]. rewrite (load_alter_eq _ _ _ f Hf).
  cbn [obind set_fixBit fixBit dirtyBit]. destruct (_ <? 0); [done|].
  destruct (dirtyBit f); [|done]. rewrite store_Some; [done|].
  rewrite lookup_alter_is_Some. eauto.
Qed.

(** New counters and a new handle keep a pool well formed. *)
Lemma pool_ok_set_mgmtData (w w' : SM.World) (p : Pool) (md md' : BM_MgmtData)
    (q : option nat) (l : list nat) :
  pool_ok w p q l -> mgmtData (bm p) = Some md ->
  head md' = head md -> tail md' = tail md -> SM.handle_ok w' (fHandle md') ->
  pool_ok w' (set_mgmtData md' p) q l.
Proof.
  unfold pool_ok. intros Hok Hmd Hh Ht Hfh. rewrite Hmd in Hok.
  cbn [set_mgmtData bm mgmtData frames numPages]. rewrite Hh, Ht.
  destruct Hok as (? & ? & ? & ? & ? & _). done.
Qed.

Lemma unpin_alter (fr : list Frame) (a : nat) (f : Frame) :
  fr !! a = Some f -> in_int (fixBit f - 1) ->
  alter (fun f => set_fixBit (int_sub (fixBit f) 1) f) a fr
  = alter (set_fixBit (fixBit f - 1)) a fr.
Proof.
  intros Hf Hin. apply list_alter_ext; [|done]. intros x Hx. simplify_eq.
  by rewrite int_sub_small.
Qed.

(** C20: [unpinPage] of a clean page that is pinned takes one pin off the
    frame that holds it and changes nothing else, on disk or in the
    pool. *)
Theorem unpinPage_clean (w : SM.World) (p : Pool) (q : option nat) (l : list nat)
    (pg : BM_PageHandle) (a : nat) (f : Frame) :
  pool_ok w p q l -> holder (frames p) (pageNum pg) l = Some a ->
  frames p !! a = Some f -> dirtyBit f = false -> 0 < fixBit f <= INT_MAX ->
  unpinPage (Some p) (Some pg) w
  = Done (RC_OK, Some (set_frames (alter (set_fixBit (fixBit f - 1)) a (frames p)) p), w) /\
  pool_ok w (set_frames (alter (set_fixBit (fixBit f - 1)) a (frames p)) p) q l.
Proof.
  intros Hok Hhit Hf Hclean Hfix.
  assert (in_int (fixBit f - 1)) as Hin by (unfold in_int, INT_MIN, INT_MAX in *; lia).
  rewrite (unpinPage_run w p q l pg a f Hok Hhit Hf), Hclean, (unpin_alter _ _ f Hf Hin).
  rewrite int_sub_small by done. Ztest.
  split; [done|]. by apply pool_ok_alter.
Qed.

(** C26: [unpinPage] of a page whose pin count is already zero returns
    [RC_WRITE_FAILED] after it has stored the decrement: the pin count of
    the frame is left at -1. *)
Theorem unpinPage_not_pinned (w : SM.World) (p : Pool) (q : option nat) (l : list nat)
    (pg : BM_PageHandle) (a : nat) (f : Frame) :
  pool_ok w p q l -> holder (frames p) (pageNum pg) l = Some a ->
  frames p !! a = Some f -> fixBit f = 0 ->
  unpinPage (Some p) (Some pg) w
  = Done (RC_WRITE_FAILED, Some (set_frames (alter (set_fixBit (-1)) a (frames p)) p), w).
Proof.
  intros Hok Hhit Hf Hfix.
  rewrite (unpinPage_run w p q l pg a f Hok Hhit Hf).
  rewrite (unpin_alter _ _ f Hf) by (by rewrite Hfix). by rewrite Hfix.
Qed.

(** [unpinPage] of a dirty page that is pinned: the decrement and the write through [forcePage]. *)
Lemma unpinPage_dirty_ok (w : SM.World) (p : Pool) (md : BM_MgmtData) (q : option nat)
    (l : list nat) (pn : Z) (a : nat) (f : Frame) (b : list byte)
    (pages : list (list byte)) :
  pool_ok w p q l -> holder (frames p) pn l = Some a ->
  frames p !! a = Some f -> dirtyBit f = true -> 0 < fixBit f <= INT_MAX ->
  bufs p !! a = Some b -> mgmtData (bm p) = Some md ->
  SM.disk w (fHandle md) = Some pages -> 0 <= pn < SM.totalNumPages (fHandle md) ->
  exists p' md' w',
    unpinPage (Some p) (Some (mkPageHandle pn (Some a))) w = Done (RC_OK, Some p', w') /\
    pool_ok w' p' q l /\
    frames p' = alter (set_fixBit (fixBit f - 1)) a (frames p) /\
    bufs p' = bufs p /\ mgmtData (bm p') = Some md' /\
    SM.disk w' (fHandle md') = Some (<[Z.to_nat pn := b]> pages) /\
    numWriteIO md' = int_add (numWriteIO md) 1 /\ numReadIO md' = numReadIO md /\
    strategy (bm p') = strategy (bm p).
Proof.
  intros Hok Hhit Hf Hdirty Hfix Hb Hmd Hd Hpn.
  assert (in_int (fixBit f - 1)) as Hin by (unfold in_int, INT_MIN, INT_MAX in *; lia).
  destruct (pool_ok_inv _ _ _ _ Hok) as (md0 & ? & _ & _ & _ & _ & Hbufs & Hh). simplify_eq.
  destruct (bufs_ok_lookup p a f Hbufs Hf) as (Hdata & b' & Hb' & Hlen). simplify_eq.
  rewrite (unpinPage_run w p q l (mkPageHandle pn (Some a)) a f Hok Hhit Hf), Hdirty.
  rewrite (unpin_alter _ _ f Hf Hin), int_sub_small by done. Ztest.
  rewrite list_alter_alter_eq.
  rewrite (list_alter_ext _ (set_fixBit (fixBit f - 1)) _ (frames p) a); [|intros x Hx|done].
  2: { assert (x = f) as -> by congruence. destruct f as [? ? ? ? [? ?] ? ?].
       simpl in *. by subst. }
  set (p1 := set_frames _ p).
  destruct (forcePage_ok w p1 md (mkPageHandle pn (Some a)) pages b)
    as (w' & Hforce & Hh' & Hd'); try done.
  cbn zeta in Hforce. rewrite Hforce. cbn [obind]. do 3 eexists.
  split; [done|]. split_and!; try done.
  eapply pool_ok_set_mgmtData; [by apply (pool_ok_alter w p q l)|done..].
Qed.

(** C7: [unpinPage] of a dirty page that is pinned, with the handle
    [pinPage] gave: the pin is taken off, the frame's buffer is written to
    the page's place on disk, and [numWriteIO] grows by one. The dirty
    flag of the frame is left set. *)
Theorem unpinPage_dirty (w : SM.World) (p : Pool) (md : BM_MgmtData) (q : option nat)
    (l : list nat) (pn : Z) (a : nat) (f : Frame) (b : list byte)
    (pages : list (list byte)) :
  pool_ok w p q l -> holder (frames p) pn l = Some a ->
  frames p !! a = Some f -> dirtyBit f = true -> 0 < fixBit f <= INT_MAX ->
  bufs p !! a = Some b -> mgmtData (bm p) = Some md ->
  SM.disk w (fHandle md) = Some pages -> 0 <= pn < SM.totalNumPages (fHandle md) ->
  exists p' md' w',
    unpinPage (Some p) (Some (mkPageHandle pn (Some a))) w = Done (RC_OK, Some p', w') /\
    pool_ok w' p' q l /\
    frames p' = alter (set_fixBit (fixBit f - 1)) a (frames p) /\
    bufs p' = bufs p /\ mgmtData (bm p') = Some md' /\
    SM.disk w' (fHandle md') = Some (<[Z.to_nat pn := b]> pages) /\
    numWriteIO md' = int_add (numWriteIO md) 1 /\ numReadIO md' = numReadIO md.
Proof.
  intros Hok Hhit Hf Hdirty Hfix Hb Hmd Hd Hpn.
  destruct (unpinPage_dirty_ok w p md q l pn a f b pages)
    as (p' & md' & w' & ? & ? & ? & ? & ? & ? & ? & ? & _); eauto 12.
Qed.

(** C15: a miss under FIFO or LRU on a list whose head has a [prev] that
    points back into the list, as a victim taken from the middle leaves
    it, when every frame is pinned. The walk follows the [prev] pointers
    round a cycle: [pinPage] does not return. *)
Theorem pinPage_miss_cycle (w : SM.World) (p : Pool) (l : list nat)
    (pg0 : BM_PageHandle) (pn : Z) (x : nat) :
  pool_ok w p (Some x) l -> x ∈ l -> strategy (bm p) <> RS_CLOCK ->
  holder (frames p) pn l = None -> Forall (pinned_at (frames p)) l ->
  pinPage (Some p) (Some pg0) pn w = Diverge.
Proof.
  intros Hok Hx Hs Hmiss Hpin.
  destruct (pool_ok_inv _ _ _ _ Hok) as (md & Hmd & _ & _ & _ & Hseg & _).
  assert (l <> []) as Hl by (intros ->; by apply elem_of_nil in Hx).
  pose proof (dseg_last _ _ _ _ _ _ Hseg Hl) as Ht.
  destruct (list.last l) as [t|] eqn:Hlast; [|by apply last_None in Hlast].
  rewrite (pinPage_run w p (Some x) l md), Hmiss by done. unfold pin_miss.
  rewrite Ht, (victim_walk_diverges _ _ l t); [by destruct (strategy (bm p))| |].
  - intros b Hb. destruct (dseg_prev_closed _ _ _ _ _ x b Hseg Hx Hb) as (f & c & Hf & ? & ?).
    rewrite Forall_forall in Hpin. specialize (Hpin b Hb). unfold pinned_at in Hpin.
    rewrite Hf in Hpin. eauto 8.
  - by apply last_Some_elem_of.
Qed.

(** ** Theorems: initialisation *)

(** C5: [initBufferPool] under FIFO or LRU with [numPages > 0] on a
    well-formed file returns [RC_OK] and a well-formed pool of exactly
    [numPages] frames, linked from the last one made to the first with
    [head->prev == NULL]; every frame is empty, unpinned and clean, and
    both counters are zero. *)
Theorem initBufferPool_spec (name : string) (np : Z) (s : ReplacementStrategy)
    (w : SM.World) (p0 : Pool) (f : list byte) :
  0 < np -> s <> RS_CLOCK -> SM.fs w !! name = Some f -> SM.file_ok f ->
  exists p,
    initBufferPool (Some p0) (Some name) np s w = Done (RC_OK, Some p) /\
    pool_ok w p None (reverse (List.seq 0 (Z.to_nat np))) /\
    Forall (fun f => pageNum (page f) = -1 /\ fixBit f = 0 /\ dirtyBit f = false)
      (frames p) /\
    getNumReadIO (Some p) = Done (inr 0) /\ getNumWriteIO (Some p) = Done (inr 0).
Proof.
  intros Hnp Hs Hfs Hf. rewrite initBufferPool_run. cbn zeta.
  rewrite decide_False by done. eexists. split; [done|].
  split; [by eapply pool_ok_init|]. split; [|done].
  cbn [init_pool frames]. unfold init_frames. apply Forall_fmap, Forall_forall. done.
Qed.

(** C25: [initBufferPool] under CLOCK with [numPages > 0] closes the list
    into a ring: the tail's [next] is the head, the head's [prev] is the
    tail, and the hand is on the head. *)
Theorem initBufferPool_CLOCK (name : string) (np : Z) (w : SM.World) (p0 : Pool) :
  0 < np ->
  exists p md h,
    initBufferPool (Some p0) (Some name) np RS_CLOCK w = Done (RC_OK, Some p) /\
    mgmtData (bm p) = Some md /\ head md = Some h /\ clkPtr md = Some h /\
    tail md = Some 0%nat /\ length (frames p) = Z.to_nat np /\
    dseg (frames p) (Some h) (Some 0%nat) (reverse (List.seq 0 (Z.to_nat np)))
      (Some 0%nat) (Some h).
Proof.
  intros Hnp. rewrite initBufferPool_run. cbn zeta. rewrite decide_True by done.
  destruct (Z.to_nat np) as [|k] eqn:Hk; [lia|]. unfold close_ring, init_pool.
  cbn [mgmtData bm head tail init_md]. do 3 eexists. split; [done|].
  cbn [mgmtData bm head tail clkPtr frames set_frames set_mgmtData set_clkPtr].
  split_and!; [done..|by rewrite !length_alter, length_init_frames|].
  pose proof (dseg_init_frames k (S k) ltac:(lia)) as H.
  eapply dseg_close_ring; [|by rewrite seq_S, reverse_snoc|exact H].
  rewrite reverse_Permutation. apply list.NoDup_seq.
Qed.

(** [initBufferPool] under CLOCK with [numPages <= 0] goes through the
    head and tail pointers of a list that has no frame. *)
Theorem initBufferPool_CLOCK_empty (name : string) (np : Z) (w : SM.World) (p0 : Pool) :
  np <= 0 -> initBufferPool (Some p0) (Some name) np RS_CLOCK w = Fault.
Proof.
  intros Hnp. rewrite initBufferPool_run. cbn zeta. rewrite decide_True by done.
  by replace (Z.to_nat np) with 0%nat by lia.
Qed.

(** ** Examples: the scenarios *)


(** The same calls under LRU: four reads, and page 4 takes the frame of
    page 2; the second pin of page 1 moved its frame to the front. *)
Example scenario_LRU :
  omap (fun r => contents r.1)
    (run_bm_ops [OpPin 1; OpUnpin 1; OpPin 2; OpUnpin 2; OpPin 3; OpUnpin 3;
                 OpPin 1; OpUnpin 1; OpPin 4; OpUnpin 4] (ex_pool 3 RS_LRU) ex_disk)
  = Done (Done (Some ([1; 4; 3], [0; 0; 0], 4, 0))).
Proof. by vm_compute. Qed.




(** ** Witnesses *)

Lemma ex_file_ok : SM.fs ex_disk !! "t"%string = Some ex_file /\ SM.file_ok ex_file.
Proof. split; by_compute. Qed.

Lemma initBufferPool_spec_witness :
  exists p,
    initBufferPool (Some ex_blank) (Some "t"%string) 3 RS_FIFO ex_disk = Done (RC_OK, Some p) /\
    pool_ok ex_disk p None (reverse (List.seq 0 (Z.to_nat 3))) /\
    Forall (fun f => pageNum (page f) = -1 /\ fixBit f = 0 /\ dirtyBit f = false)
      (frames p) /\
    getNumReadIO (Some p) = Done (inr 0) /\ getNumWriteIO (Some p) = Done (inr 0).
Proof.
  apply (initBufferPool_spec "t" 3 RS_FIFO ex_disk ex_blank ex_file);
    [lia|discriminate|apply ex_file_ok..].
Defined.

Lemma initBufferPool_CLOCK_witness :
  exists p md h,
    initBufferPool (Some ex_blank) (Some "t"%string) 3 RS_CLOCK ex_disk
    = Done (RC_OK, Some p) /\
    mgmtData (bm p) = Some md /\ head md = Some h /\ clkPtr md = Some h /\
    tail md = Some 0%nat /\ length (frames p) = Z.to_nat 3 /\
    dseg (frames p) (Some h) (Some 0%nat) (reverse (List.seq 0 (Z.to_nat 3)))
      (Some 0%nat) (Some h).
Proof. apply initBufferPool_CLOCK. lia. Defined.

Lemma initBufferPool_CLOCK_empty_witness :
  initBufferPool (Some ex_blank) (Some "t"%string) 0 RS_CLOCK ex_disk = Fault.
Proof. apply initBufferPool_CLOCK_empty. lia. Defined.

Lemma pinPage_hit_FIFO_witness :
  pinPage (Some ex_fifo1) (Some (mkPageHandle 0 None)) 1 ex_disk
  = Done (RC_OK, Some (set_frames (alter pinned 0%nat (frames ex_fifo1)) ex_fifo1),
          Some (mkPageHandle 1 (Some 0%nat))) /\
  pool_ok ex_disk (set_frames (alter pinned 0%nat (frames ex_fifo1)) ex_fifo1) None
    [0; 2; 1]%nat.
Proof. apply pinPage_hit_FIFO; by_compute. Defined.

Lemma pinPage_hit_LRU_witness :
  exists p',
    pinPage (Some ex_lru2) (Some (mkPageHandle 0 None)) 1 ex_disk
    = Done (RC_OK, Some p', Some (mkPageHandle 1 (Some 0%nat))) /\
    pool_ok ex_disk p' (if decide ([2%nat] = []) then None else list.last [1%nat])
      (0 :: [1] ++ [2])%nat /\
    payload <$> frames p' = payload <$> alter pinned 0%nat (frames ex_lru2) /\
    bufs p' = bufs ex_lru2.
Proof.
  apply (pinPage_hit_LRU ex_disk _ None [1%nat] [2%nat]);
    [by_compute|done|by_compute|by_compute].
Defined.

Lemma pinPage_hit_LRU_head_witness :
  pinPage (Some ex_lru1) (Some (mkPageHandle 0 None)) 1 ex_disk = Fault.
Proof.
  apply (pinPage_hit_LRU_head ex_disk _ [2; 1]%nat _ 1 0%nat);
    by_compute.
Defined.

Lemma pinPage_miss_tail_witness :
  exists p' md',
    pinPage (Some (ex_pool 3 RS_FIFO)) (Some (mkPageHandle 0 None)) 1 ex_disk
    = Done (RC_OK, Some p', Some (mkPageHandle 1 (Some 0%nat))) /\
    pool_ok ex_disk p' None [0; 2; 1]%nat /\
    payload <$> frames p' = payload <$> alter (loaded 1) 0%nat (frames (ex_pool 3 RS_FIFO)) /\
    bufs p' = <[0%nat := SM.ex_page x01]> (bufs (ex_pool 3 RS_FIFO)) /\
    mgmtData (bm p') = Some md' /\
    numReadIO md' = int_add (numReadIO (ex_md (ex_pool 3 RS_FIFO))) 1 /\
    numWriteIO md' = numWriteIO (ex_md (ex_pool 3 RS_FIFO)).
Proof.
  apply (pinPage_miss_tail ex_disk _ _ None [2; 1]%nat _ 1 0%nat
           (ex_frame (ex_pool 3 RS_FIFO) 0) (SM.disk_pages ex_file));
    [by_compute|done|by_compute|by_compute|by_compute|by_compute
    |by_compute|by_compute|lia|by_compute].
Defined.

Lemma pinPage_miss_pinned_witness :
  pinPage (Some ex_full) (Some (mkPageHandle 0 None)) 4 ex_disk = Fault.
Proof.
  apply (pinPage_miss_pinned ex_disk _ [1; 0]%nat _ 4 2%nat);
    by_compute.
Defined.

Lemma pinPage_miss_cycle_witness :
  pinPage (Some ex_stale) (Some (mkPageHandle 0 None)) 5 ex_disk = Diverge.
Proof.
  apply (pinPage_miss_cycle ex_disk _ [1; 2; 0]%nat _ 5 2%nat);
    by_compute.
Defined.

Lemma markDirty_spec_witness :
  markDirty (Some ex_fifo1) (Some (mkPageHandle 1 (Some 0%nat)))
  = Done (RC_OK, Some (marked ex_fifo1 1 [0; 2; 1]%nat)) /\
  pool_ok ex_disk (marked ex_fifo1 1 [0; 2; 1]%nat) None [0; 2; 1]%nat.
Proof. apply (markDirty_spec ex_disk ex_fifo1 None _ (mkPageHandle 1 (Some 0%nat))). by_compute. Defined.

Lemma unpinPage_clean_witness :
  unpinPage (Some ex_fifo1) (Some (mkPageHandle 1 (Some 0%nat))) ex_disk
  = Done (RC_OK,
          Some (set_frames (alter (set_fixBit (fixBit (ex_frame ex_fifo1 0) - 1)) 0%nat
                              (frames ex_fifo1)) ex_fifo1), ex_disk) /\
  pool_ok ex_disk
    (set_frames (alter (set_fixBit (fixBit (ex_frame ex_fifo1 0) - 1)) 0%nat
                   (frames ex_fifo1)) ex_fifo1) None [0; 2; 1]%nat.
Proof.
  apply (unpinPage_clean ex_disk ex_fifo1 None _ (mkPageHandle 1 (Some 0%nat)));
    by_compute.
Defined.

Lemma unpinPage_not_pinned_witness :
  unpinPage (Some ex_unpinned) (Some (mkPageHandle 1 (Some 0%nat))) ex_disk
  = Done (RC_WRITE_FAILED,
          Some (set_frames (alter (set_fixBit (-1)) 0%nat (frames ex_unpinned)) ex_unpinned),
          ex_disk).
Proof.
  apply (unpinPage_not_pinned ex_disk ex_unpinned None [0; 2; 1]%nat
           (mkPageHandle 1 (Some 0%nat)) 0%nat (ex_frame ex_unpinned 0));
    by_compute.
Defined.

Lemma unpinPage_dirty_witness :
  exists p' md' w',
    unpinPage (Some ex_dirty) (Some (mkPageHandle 1 (Some 0%nat))) ex_disk
    = Done (RC_OK, Some p', w') /\
    pool_ok w' p' None [0; 2; 1]%nat /\
    frames p' = alter (set_fixBit (fixBit (ex_frame ex_dirty 0) - 1)) 0%nat (frames ex_dirty) /\
    bufs p' = bufs ex_dirty /\ mgmtData (bm p') = Some md' /\
    SM.disk w' (fHandle md')
    = Some (<[Z.to_nat 1 := SM.ex_page x01]> (SM.disk_pages ex_file)) /\
    numWriteIO md' = int_add (numWriteIO (ex_md ex_dirty)) 1 /\
    numReadIO md' = numReadIO (ex_md ex_dirty).
Proof.
  apply (unpinPage_dirty ex_disk ex_dirty (ex_md ex_dirty) None [0; 2; 1]%nat 1 0%nat
           (ex_frame ex_dirty 0) (SM.ex_page x01) (SM.disk_pages ex_file));
    by_compute.
Defined.

End BP.
