(* ===== verification/Records.v ===== *)
(** * Records: schemas, records and attribute values

    The part of [record_mgr.c] that does not touch a page: [getRecordSize],
    [createSchema], [freeSchema], [createRecord], [freeRecord], [getAttr] and
    [setAttr], with their loops written as the code has them (an index, a
    running offset, one array access per iteration). Arrays are lists and an
    access outside one is a fault; so is the [assert] of a switch on an
    unknown data type, since both end the program. [malloc]'ed memory reads
    as zeros.

    The types of [tables.h] ([DataType], [Schema], [RID], [Record], [Value])
    are modelled from the specification. A [Value] keeps the eight bytes of
    its union and the buffer [v.stringV] points to: [getAttr] and [setAttr]
    copy [typeLength] bytes whatever the type is.

    Theorems: the record size is the wrapped sum of the lengths; the schema
    [createSchema] builds, in closed form; [setAttr] then [getAttr] returns
    the bytes written and leaves the other attributes alone (attributes lie
    side by side at [attr_offset]); the faults of an unknown type and of a
    string shorter than its attribute. *)

From Stdlib Require Import ZArith Lia Strings.Byte Strings.String.
From stdpp Require Import base option list numbers strings.
From S2P Require Import Prelude.
Open Scope Z_scope.
Open Scope outcome_scope.

Module REC.

(** ** Data *)

(** The attribute types; a schema read from a file stores them as [int]s,
    and an [int] that is none of them fails the [assert] of the switch. *)
Inductive DataType : Set := DT_INT | DT_STRING | DT_FLOAT | DT_BOOL.

Definition DataType_of_Z (z : Z) : option DataType :=
  if z =? 0 then Some DT_INT
  else if z =? 1 then Some DT_STRING
  else if z =? 2 then Some DT_FLOAT
  else if z =? 3 then Some DT_BOOL
  else None.

Definition Z_of_DataType (d : DataType) : Z :=
  match d with DT_INT => 0 | DT_STRING => 1 | DT_FLOAT => 2 | DT_BOOL => 3 end.

Definition sizeof_int : Z := 4.
Definition sizeof_float : Z := 4.
Definition sizeof_bool : Z := 2.

(** The union [v] of a [Value] is eight bytes. *)
Definition sizeof_v : Z := 8.

(** [attrNames], [dataTypes] and [typeLength] are arrays of [numAttr]
    entries, [keyAttrs] one of [keySize] entries; a name is a buffer of 64
    bytes. *)
Record Schema : Type := mkSchema {
  numAttr : Z;
  attrNames : list (list byte);
  dataTypes : list Z;
  typeLength : list Z;
  keyAttrs : list Z;
  keySize : Z
}.

Record RID : Type := mkRID { page : Z; slot : Z }.

Record RM_Record : Type := mkRecord { rec_id : RID; rec_data : list byte }.

(** A value: its tag, the bytes of the union [v] ([intV], [floatV] and
    [boolV] are its first bytes) and, where [v.stringV] points to a buffer,
    that buffer. *)
Record Value : Type := mkValue {
  dt : Z;
  v : list byte;
  stringV : option (list byte)
}.

Definition set_attrNames (f : list (list byte) -> list (list byte)) (s : Schema) : Schema :=
  mkSchema (numAttr s) (f (attrNames s)) (dataTypes s) (typeLength s) (keyAttrs s) (keySize s).
Definition set_dataTypes (f : list Z -> list Z) (s : Schema) : Schema :=
  mkSchema (numAttr s) (attrNames s) (f (dataTypes s)) (typeLength s) (keyAttrs s) (keySize s).
Definition set_typeLength (f : list Z -> list Z) (s : Schema) : Schema :=
  mkSchema (numAttr s) (attrNames s) (dataTypes s) (f (typeLength s)) (keyAttrs s) (keySize s).
Definition set_keyAttrs (f : list Z -> list Z) (s : Schema) : Schema :=
  mkSchema (numAttr s) (attrNames s) (dataTypes s) (typeLength s) (f (keyAttrs s)) (keySize s).

Definition intV (x : Value) : Z := decode_int (take 4 (v x)).
Definition boolV (x : Value) : Z := Z_of_byte (nth 0 (v x) x00) + 256 * Z_of_byte (nth 1 (v x) x00).

(** ** C strings *)

(** The characters of a buffer before its first NUL (the end of the buffer
    counts as one). *)
Fixpoint c_str (buf : list byte) : list byte :=
  match buf with
  | [] => []
  | b :: buf' => if decide (b = x00) then [] else b :: c_str buf'
  end.

(** [strncpy(dst, src, n)]: at most [n] characters, padded with NULs to
    [n] bytes; no NUL is written when the string has [n] characters or more. *)
Definition strncpy (n : nat) (src : list byte) : list byte :=
  take n (c_str src ++ replicate n x00).

(** ** Schemas *)

(** The loop of [getRecordSize], [n] iterations from index [i]. *)
Fixpoint getRecordSize_loop (n : nat) (schema : Schema) (i recSz : Z) : outcome Z :=
  match n with
  | O => Done recSz
  | S n' =>
      len <- of_ptr (typeLength schema !! Z.to_nat i) ;;
      getRecordSize_loop n' schema (i + 1) (int_add recSz len)
  end.

Definition getRecordSize (schema : Schema) : outcome Z :=
  getRecordSize_loop (Z.to_nat (numAttr schema)) schema 0 0.

(** The length [createSchema] stores for an attribute of type [d]. *)
Definition type_length (d : Z) (len : option Z) : outcome Z :=
  match DataType_of_Z d with
  | Some DT_STRING => of_ptr len
  | Some DT_INT => Done sizeof_int
  | Some DT_FLOAT => Done sizeof_float
  | Some DT_BOOL => Done sizeof_bool
  | None => Fault
  end.

(** The second loop of [createSchema]. *)
Fixpoint createSchema_loop (n : nat) (i : Z) (names : list (list byte))
    (types lens keys : list Z) (sch : Schema) : outcome Schema :=
  match n with
  | O => Done sch
  | S n' =>
      let k := Z.to_nat i in
      name <- of_ptr (names !! k) ;;
      d <- of_ptr (types !! k) ;;
      let sch1 := set_dataTypes <[k := d]> (set_attrNames <[k := strncpy 64 name]> sch) in
      sch2 <- (if i <? keySize sch
               then key <- of_ptr (keys !! k) ;; Done (set_keyAttrs <[k := key]> sch1)
               else Done sch1) ;;
      len <- type_length d (lens !! k) ;;
      createSchema_loop n' (i + 1) names types lens keys (set_typeLength <[k := len]> sch2)
  end.

Definition createSchema (numAttr : Z) (attrNames : list (list byte))
    (dataTypes typeLength : list Z) (keySize : Z) (keys : list Z) : outcome Schema :=
  let n := Z.to_nat numAttr in
  createSchema_loop n 0 attrNames dataTypes typeLength keys
    (mkSchema numAttr (replicate n (zero_bytes 64)) (replicate n 0) (replicate n 0)
       (replicate (Z.to_nat keySize) 0) keySize).

Definition freeSchema (schema : Schema) : RC := RC_OK.

(** ** Records and attribute values *)

Definition createRecord (schema : Schema) : outcome (RC * RM_Record) :=
  sz <- getRecordSize schema ;;
  Done (RC_OK, mkRecord (mkRID 0 0) (zero_bytes (Z.to_nat sz))).

Definition freeRecord (record : RM_Record) : RC := RC_OK.

(** The fresh value of [getAttr]. *)
Definition value0 : Value := mkValue 0 (zero_bytes 8) None.

(** The switch of [getAttr] on the attribute at [recOfst]. *)
Definition getAttr_case (dataType len recOfst : Z) (data : list byte) (value1 : Value) :
    outcome Value :=
  match DataType_of_Z dataType with
  | Some DT_STRING =>
      bs <- mem_read recOfst len data ;;
      Done (mkValue dataType (v value1) (Some (bs ++ [x00])))
  | Some _ =>
      bs <- mem_read recOfst len data ;;
      v1 <- mem_write 0 bs (v value1) ;;
      Done (mkValue dataType v1 (stringV value1))
  | None => Fault
  end.

Fixpoint getAttr_loop (n : nat) (i recOfst : Z) (data : list byte) (schema : Schema)
    (attrNum dataType : Z) (value1 : Value) : outcome Value :=
  match n with
  | O => Done value1
  | S n' =>
      len <- of_ptr (typeLength schema !! Z.to_nat i) ;;
      if i =? attrNum then getAttr_case dataType len recOfst data value1
      else getAttr_loop n' (i + 1) (recOfst + len) data schema attrNum dataType value1
  end.

Definition getAttr (record : RM_Record) (schema : Schema) (attrNum : Z) :
    outcome (RC * Value) :=
  dataType <- (if attrNum <? 0 then Fault
               else of_ptr (dataTypes schema !! Z.to_nat attrNum)) ;;
  value1 <- getAttr_loop (Z.to_nat (numAttr schema)) 0 0 (rec_data record) schema
              attrNum dataType value0 ;;
  Done (RC_OK, value1).

(** The switch of [setAttr]. *)
Definition setAttr_case (dataType len recOfst : Z) (data : list byte) (value : Value) :
    outcome (list byte) :=
  match DataType_of_Z dataType with
  | Some DT_STRING =>
      s <- of_ptr (stringV value) ;;
      bs <- mem_read 0 len s ;;
      mem_write recOfst bs data
  | Some _ =>
      bs <- mem_read 0 len (v value) ;;
      mem_write recOfst bs data
  | None => Fault
  end.

Fixpoint setAttr_loop (n : nat) (i recOfst : Z) (data : list byte) (schema : Schema)
    (attrNum dataType : Z) (value : Value) : outcome (list byte) :=
  match n with
  | O => Done data
  | S n' =>
      len <- of_ptr (typeLength schema !! Z.to_nat i) ;;
      data1 <- (if i =? attrNum then setAttr_case dataType len recOfst data value
                else Done data) ;;
      setAttr_loop n' (i + 1) (recOfst + len) data1 schema attrNum dataType value
  end.

Definition setAttr (record : RM_Record) (schema : Schema) (attrNum : Z) (value : Value) :
    outcome (RC * RM_Record) :=
  dataType <- (if attrNum <? 0 then Fault
               else of_ptr (dataTypes schema !! Z.to_nat attrNum)) ;;
  data1 <- setAttr_loop (Z.to_nat (numAttr schema)) 0 0 (rec_data record) schema
             attrNum dataType value ;;
  Done (RC_OK, mkRecord (rec_id record) data1).

(** ** Specification *)

Definition sum_Z (l : list Z) : Z := foldr Z.add 0 l.

(** The offset of attribute [k] in a record. *)
Definition attr_offset (schema : Schema) (k : nat) : Z := sum_Z (take k (typeLength schema)).

Definition record_size (schema : Schema) : Z := sum_Z (typeLength schema).

(** A schema as [createSchema] and [openTable] build them from sound
    input: arrays of [numAttr] entries, known types, lengths that are not
    negative, scalars that fit the union. *)
Definition attr_ok (d len : Z) : Prop :=
  match DataType_of_Z d with
  | Some DT_STRING => 0 <= len
  | Some _ => 0 <= len <= sizeof_v
  | None => False
  end.

Definition schema_ok (s : Schema) : Prop :=
  0 <= numAttr s /\
  length (attrNames s) = Z.to_nat (numAttr s) /\
  length (dataTypes s) = Z.to_nat (numAttr s) /\
  length (typeLength s) = Z.to_nat (numAttr s) /\
  length (keyAttrs s) = Z.to_nat (keySize s) /\
  Forall2 attr_ok (dataTypes s) (typeLength s) /\
  in_int (record_size s).

(** The length stored for an attribute of a known type. *)
Definition stored_length (d len : Z) : Z :=
  match DataType_of_Z d with
  | Some DT_STRING => len
  | Some DT_INT => sizeof_int
  | Some DT_FLOAT => sizeof_float
  | Some DT_BOOL => sizeof_bool
  | None => 0
  end.

(** The arrays of the schema [createSchema] is building, after [i]
    attributes: the first [i] entries of the final arrays [a], the rest of
    the allocated ones [a0]. *)
Definition filled {A : Type} (i : nat) (a a0 : list A) : list A := take i a ++ drop i a0.

Definition schema_keys (n : nat) (keySize : Z) (keys : list Z) : list Z :=
  let ks := Z.to_nat keySize in
  take (n `min` ks) keys ++ replicate (ks - n `min` ks) 0.

Definition schema_at (i : nat) (names : list (list byte)) (types lens : list Z)
    (keySize : Z) (keys : list Z) : Schema :=
  let n := length types in
  mkSchema (Z.of_nat n)
    (filled i (strncpy 64 <$> names) (replicate n (zero_bytes 64)))
    (filled i types (replicate n 0))
    (filled i (zip_with stored_length types lens) (replicate n 0))
    (filled (i `min` Z.to_nat keySize) (schema_keys n keySize keys)
       (replicate (Z.to_nat keySize) 0))
    keySize.

(** The schema [createSchema] returns. *)
Definition schema_of (names : list (list byte)) (types lens : list Z)
    (keySize : Z) (keys : list Z) : Schema :=
  mkSchema (Z.of_nat (length types)) (strncpy 64 <$> names) types
    (zip_with stored_length types lens) (schema_keys (length types) keySize keys) keySize.

Definition known_type (d : Z) : Prop := is_Some (DataType_of_Z d).

(** The bytes a value of type [d] carries: the string, or the leading
    bytes of the union. *)
Definition value_bytes (d len : Z) (x : Value) : option (list byte) :=
  match DataType_of_Z d with
  | Some DT_STRING => take (Z.to_nat len) <$> stringV x
  | Some _ => Some (take (Z.to_nat len) (v x))
  | None => None
  end.

(** The value [getAttr] builds from the attribute's bytes [bs]. *)
Definition value_read (d : Z) (bs : list byte) (value1 : Value) : Value :=
  match DataType_of_Z d with
  | Some DT_STRING => mkValue d (v value1) (Some (bs ++ [x00]))
  | _ => mkValue d (write_bytes 0 bs (v value1)) (stringV value1)
  end.

(** A value that [setAttr] can store in an attribute of type [d]. *)
Definition value_ok (d len : Z) (x : Value) : Prop :=
  length (v x) = Z.to_nat sizeof_v /\
  match DataType_of_Z d with
  | Some DT_STRING =>
      match stringV x with Some s => len <= Z.of_nat (length s) | None => False end
  | _ => True
  end.

#[export] Instance DataType_eq_dec : EqDecision DataType.
Proof. solve_decision. Defined.
#[export] Instance Schema_eq_dec : EqDecision Schema.
Proof. solve_decision. Defined.
#[export] Instance RID_eq_dec : EqDecision RID.
Proof. solve_decision. Defined.
#[export] Instance RM_Record_eq_dec : EqDecision RM_Record.
Proof. solve_decision. Defined.
#[export] Instance Value_eq_dec : EqDecision Value.
Proof. solve_decision. Defined.
#[export] Instance attr_ok_dec (d len : Z) : Decision (attr_ok d len).
Proof. unfold attr_ok. destruct (DataType_of_Z d) as [[]|]; apply _. Defined.
#[export] Instance schema_ok_dec (s : Schema) : Decision (schema_ok s).
Proof. unfold schema_ok. apply _. Defined.
#[export] Instance value_ok_dec (d len : Z) (x : Value) : Decision (value_ok d len x).
Proof.
  unfold value_ok. destruct (DataType_of_Z d) as [[]|]; try apply _.
  destruct (stringV x); apply _.
Defined.

(** ** Examples: the schema (a : int, b : string[4], c : int) *)

Definition bytes_of_string (s : string) : list byte := list_byte_of_string s.

Definition ex_schema : Schema :=
  match createSchema 3 [bytes_of_string "a"; bytes_of_string "b"; bytes_of_string "c"]
          [0; 1; 0] [0; 4; 0] 1 [0] with
  | Done s => s
  | _ => mkSchema 0 [] [] [] [] 0
  end.

Definition int_value (z : Z) : Value := mkValue 0 (encode_int z ++ zero_bytes 4) None.

Definition string_value (s : string) : Value :=
  mkValue 1 (zero_bytes 8) (Some (bytes_of_string s ++ [x00])).

Definition ex_record : RM_Record := mkRecord (mkRID 0 0) (zero_bytes 12).

(** [ex_record] after [setAttr] of b. *)
Definition ex_record1 : RM_Record :=
  mkRecord (mkRID 0 0) (zero_bytes 4 ++ bytes_of_string "wxyz" ++ zero_bytes 4).

(** A schema read from a damaged header: an attribute of type 7. *)
Definition ex_bad_schema : Schema := mkSchema 1 [zero_bytes 64] [7] [4] [] 0.

(** ** Lemmas: sums and offsets *)

Lemma sum_Z_app (l1 l2 : list Z) : sum_Z (l1 ++ l2) = sum_Z l1 + sum_Z l2.
Proof. unfold sum_Z. induction l1 as [|x l1 IH]; simpl; lia. Qed.

Lemma sum_Z_nonneg (l : list Z) : Forall (fun x => 0 <= x) l -> 0 <= sum_Z l.
Proof. unfold sum_Z. induction 1; simpl; lia. Qed.

Lemma sum_Z_take_S (l : list Z) (k : nat) (x : Z) :
  l !! k = Some x -> sum_Z (take (S k) l) = sum_Z (take k l) + x.
Proof.
  intros H. erewrite take_S_r by done. rewrite sum_Z_app. unfold sum_Z. simpl. lia.
Qed.

Lemma attr_offset_S (s : Schema) (k : nat) (len : Z) :
  typeLength s !! k = Some len -> attr_offset s (S k) = attr_offset s k + len.
Proof. apply sum_Z_take_S. Qed.

Lemma attr_ok_nonneg (d len : Z) : attr_ok d len -> 0 <= len.
Proof. unfold attr_ok. destruct (DataType_of_Z d) as [[]|]; lia. Qed.

Lemma schema_ok_nonneg (s : Schema) :
  schema_ok s -> Forall (fun x => 0 <= x) (typeLength s).
Proof.
  intros (_ & _ & _ & _ & _ & H & _).
  induction H; constructor; eauto using attr_ok_nonneg.
Qed.

Lemma schema_ok_attr (s : Schema) (k : nat) (d len : Z) :
  schema_ok s -> dataTypes s !! k = Some d -> typeLength s !! k = Some len ->
  attr_ok d len.
Proof.
  intros (_ & _ & _ & _ & _ & H & _) Hd Hl.
  by eapply Forall2_lookup_lr.
Qed.

Lemma schema_ok_lookup (s : Schema) (k : nat) :
  schema_ok s -> (k < Z.to_nat (numAttr s))%nat ->
  exists d len, dataTypes s !! k = Some d /\ typeLength s !! k = Some len.
Proof.
  intros (_ & _ & Hd & Hl & _) Hk.
  destruct (lookup_lt_is_Some_2 (dataTypes s) k) as [d ?]; [lia|].
  destruct (lookup_lt_is_Some_2 (typeLength s) k) as [len ?]; [lia|]. eauto.
Qed.

(** An attribute lies inside the record. *)
Lemma attr_offset_bounds (s : Schema) (k : nat) (len : Z) :
  schema_ok s -> typeLength s !! k = Some len ->
  0 <= attr_offset s k /\ 0 <= len /\ attr_offset s k + len <= record_size s.
Proof.
  intros Hs Hl. pose proof (schema_ok_nonneg s Hs) as Hnn.
  rewrite <- (attr_offset_S s k len Hl). unfold attr_offset, record_size.
  split; [apply sum_Z_nonneg, Forall_take, Hnn|].
  split; [by eapply (Forall_lookup_1 _ _ _ _ Hnn)|].
  rewrite <- (take_drop (S k) (typeLength s)) at 2. rewrite sum_Z_app.
  pose proof (sum_Z_nonneg (drop (S k) (typeLength s)) (Forall_drop _ _ _ Hnn)). lia.
Qed.

(** Two attributes do not overlap. *)
Lemma attr_offset_mono (s : Schema) (j k : nat) (len : Z) :
  schema_ok s -> (j < k)%nat -> typeLength s !! j = Some len ->
  attr_offset s j + len <= attr_offset s k.
Proof.
  intros Hs Hjk Hl. pose proof (schema_ok_nonneg s Hs) as Hnn.
  rewrite <- (attr_offset_S s j len Hl). unfold attr_offset.
  replace k with (S j + (k - S j))%nat by lia.
  rewrite <- take_take_drop, sum_Z_app.
  pose proof (sum_Z_nonneg (take (k - S j) (drop (S j) (typeLength s)))
                (Forall_take _ _ _ (Forall_drop _ _ _ Hnn))). lia.
Qed.

(** ** Lemmas: [getRecordSize] *)

Lemma getRecordSize_loop_spec (s : Schema) (n i : nat) (a : Z) :
  length (typeLength s) = (i + n)%nat ->
  getRecordSize_loop n s (Z.of_nat i) (int_wrap a)
  = Done (int_wrap (a + sum_Z (drop i (typeLength s)))).
Proof.
  revert i a. induction n as [|n IH]; intros i a Hlen; cbn [getRecordSize_loop].
  - rewrite drop_ge by lia. unfold sum_Z. simpl. by rewrite Z.add_0_r.
  - rewrite Nat2Z.id. destruct (lookup_lt_is_Some_2 (typeLength s) i) as [x Hx]; [lia|].
    rewrite Hx. cbn [of_ptr obind]. unfold int_add. rewrite int_wrap_add_l.
    replace (Z.of_nat i + 1) with (Z.of_nat (S i)) by lia.
    rewrite IH by lia. rewrite (drop_S _ _ _ Hx). unfold sum_Z. simpl. do 2 f_equal. lia.
Qed.

Lemma getRecordSize_ok (s : Schema) :
  schema_ok s -> getRecordSize s = Done (record_size s).
Proof.
  intros (_ & _ & _ & Hl & _ & _ & Hr). unfold getRecordSize.
  change 0 with (Z.of_nat 0) at 1. change 0 with (int_wrap 0).
  rewrite getRecordSize_loop_spec by (by rewrite Hl).
  rewrite drop_0, Z.add_0_l. f_equal. by apply int_wrap_small.
Qed.

(** ** Lemmas: [getAttr] and [setAttr] *)

Lemma take_drop_step (l : list Z) (i k : nat) (x : Z) :
  (i < k)%nat -> l !! i = Some x ->
  sum_Z (take (k - i) (drop i l)) = x + sum_Z (take (k - S i) (drop (S i) l)).
Proof.
  intros Hik Hx. replace (k - i)%nat with (S (k - S i)) by lia.
  by rewrite (drop_S _ _ _ Hx).
Qed.

Lemma getAttr_loop_spec (s : Schema) (n i k : nat) (ofs : Z) (data : list byte)
    (d len : Z) (v0 : Value) :
  (i <= k < i + n)%nat -> typeLength s !! k = Some len ->
  getAttr_loop n (Z.of_nat i) ofs data s (Z.of_nat k) d v0
  = getAttr_case d len (ofs + sum_Z (take (k - i) (drop i (typeLength s)))) data v0.
Proof.
  revert i ofs. induction n as [|n IH]; intros i ofs Hik Hl; [lia|].
  cbn [getAttr_loop]. rewrite Nat2Z.id.
  destruct (lookup_lt_is_Some_2 (typeLength s) i) as [x Hx];
    [apply lookup_lt_Some in Hl; lia|].
  rewrite Hx. cbn [of_ptr obind].
  destruct (decide (i = k)) as [->|Hne].
  - rewrite Z.eqb_refl, Nat.sub_diag. simplify_eq. unfold sum_Z. simpl.
    by rewrite Z.add_0_r.
  - Ztest. replace (Z.of_nat i + 1) with (Z.of_nat (S i)) by lia.
    rewrite IH by (done || lia). rewrite (take_drop_step _ i k x) by (done || lia).
    f_equal. lia.
Qed.

Lemma setAttr_loop_past (s : Schema) (n i k : nat) (ofs : Z) (data : list byte)
    (d : Z) (x : Value) :
  (k < i)%nat -> (i + n <= length (typeLength s))%nat ->
  setAttr_loop n (Z.of_nat i) ofs data s (Z.of_nat k) d x = Done data.
Proof.
  revert i ofs. induction n as [|n IH]; intros i ofs Hki Hlen; [done|].
  cbn [setAttr_loop]. rewrite Nat2Z.id.
  destruct (lookup_lt_is_Some_2 (typeLength s) i) as [len Hx]; [lia|].
  rewrite Hx. cbn [of_ptr obind]. Ztest. cbn [obind].
  replace (Z.of_nat i + 1) with (Z.of_nat (S i)) by lia. apply IH; lia.
Qed.

Lemma setAttr_loop_spec (s : Schema) (n i k : nat) (ofs : Z) (data : list byte)
    (d len : Z) (x : Value) :
  (i <= k < i + n)%nat -> (i + n <= length (typeLength s))%nat ->
  typeLength s !! k = Some len ->
  setAttr_loop n (Z.of_nat i) ofs data s (Z.of_nat k) d x
  = setAttr_case d len (ofs + sum_Z (take (k - i) (drop i (typeLength s)))) data x.
Proof.
  revert i ofs. induction n as [|n IH]; intros i ofs Hik Hlen Hl; [lia|].
  cbn [setAttr_loop]. rewrite Nat2Z.id.
  destruct (lookup_lt_is_Some_2 (typeLength s) i) as [y Hy]; [lia|].
  rewrite Hy. cbn [of_ptr obind].
  destruct (decide (i = k)) as [->|Hne].
  - rewrite Z.eqb_refl, Nat.sub_diag. simplify_eq. unfold sum_Z. simpl.
    rewrite Z.add_0_r. replace (Z.of_nat k + 1) with (Z.of_nat (S k)) by lia.
    destruct (setAttr_case d len ofs data x); cbn [obind]; [|done..].
    apply setAttr_loop_past; lia.
  - Ztest. cbn [obind]. replace (Z.of_nat i + 1) with (Z.of_nat (S i)) by lia.
    rewrite IH by (done || lia). rewrite (take_drop_step _ i k y) by (done || lia).
    f_equal. lia.
Qed.

(** [getAttr] is the switch at the attribute's offset. *)
Lemma getAttr_unfold (r : RM_Record) (s : Schema) (k : nat) (d len : Z) :
  length (typeLength s) = Z.to_nat (numAttr s) ->
  dataTypes s !! k = Some d -> typeLength s !! k = Some len ->
  getAttr r s (Z.of_nat k)
  = (y <- getAttr_case d len (attr_offset s k) (rec_data r) value0 ;; Done (RC_OK, y)).
Proof.
  intros Hlen Hd Hl. unfold getAttr. Ztest. rewrite Nat2Z.id, Hd. cbn [of_ptr obind].
  apply lookup_lt_Some in Hl as Hk.
  change 0 with (Z.of_nat 0) at 1.
  rewrite (getAttr_loop_spec s _ 0 k 0 _ d len) by (done || lia).
  by rewrite Nat.sub_0_r, drop_0, Z.add_0_l.
Qed.

Lemma setAttr_unfold (r : RM_Record) (s : Schema) (k : nat) (d len : Z) (x : Value) :
  length (typeLength s) = Z.to_nat (numAttr s) ->
  dataTypes s !! k = Some d -> typeLength s !! k = Some len ->
  setAttr r s (Z.of_nat k) x
  = (data1 <- setAttr_case d len (attr_offset s k) (rec_data r) x ;;
     Done (RC_OK, mkRecord (rec_id r) data1)).
Proof.
  intros Hlen Hd Hl. unfold setAttr. Ztest. rewrite Nat2Z.id, Hd. cbn [of_ptr obind].
  apply lookup_lt_Some in Hl as Hk.
  change 0 with (Z.of_nat 0) at 1.
  rewrite (setAttr_loop_spec s _ 0 k 0 _ d len) by (done || lia).
  by rewrite Nat.sub_0_r, drop_0, Z.add_0_l.
Qed.

Lemma getAttr_case_ok (d len off : Z) (data : list byte) (v0 : Value) :
  attr_ok d len -> length (v v0) = Z.to_nat sizeof_v ->
  0 <= off -> off + len <= Z.of_nat (length data) ->
  getAttr_case d len off data v0
  = Done (value_read d (read_bytes (Z.to_nat off) (Z.to_nat len) data) v0).
Proof.
  unfold attr_ok, getAttr_case, value_read, sizeof_v. intros Hd Hv Hoff Hend.
  destruct (DataType_of_Z d) as [[]|]; [| | | |done];
    rewrite mem_read_ok by lia; cbn [obind]; try done;
    rewrite mem_write_ok by (rewrite ?length_read_bytes; lia); done.
Qed.

Lemma setAttr_case_ok (d len off : Z) (data bs : list byte) (x : Value) :
  attr_ok d len -> value_ok d len x -> value_bytes d len x = Some bs ->
  0 <= off -> off + len <= Z.of_nat (length data) ->
  setAttr_case d len off data x = Done (write_bytes (Z.to_nat off) bs data)
  /\ length bs = Z.to_nat len.
Proof.
  unfold attr_ok, value_ok, value_bytes, setAttr_case, sizeof_v.
  intros Hd [Hv Hx] Hbs Hoff Hend.
  destruct (DataType_of_Z d) as [[]|]; [| | | |done];
    try destruct (stringV x) as [str|]; try done; simplify_eq/=;
    rewrite mem_read_ok by lia; cbn [obind]; unfold read_bytes; rewrite drop_0;
    (rewrite mem_write_ok by (rewrite ?length_take; lia));
    (split; [done|rewrite length_take; lia]).
Qed.

Lemma value_bytes_read (d len : Z) (bs : list byte) (v0 : Value) :
  attr_ok d len -> length bs = Z.to_nat len -> length (v v0) = Z.to_nat sizeof_v ->
  value_bytes d len (value_read d bs v0) = Some bs.
Proof.
  unfold attr_ok, value_bytes, value_read, sizeof_v. intros Hd Hbs Hv.
  destruct (DataType_of_Z d) as [[]|]; [| | | |done]; cbn [v stringV fmap option_fmap option_map];
    f_equal; rewrite <- Hbs;
    try (unfold write_bytes; rewrite take_0; cbn [app]); apply take_app_length.
Qed.

Lemma value_ok_bytes (d len : Z) (x : Value) :
  attr_ok d len -> value_ok d len x -> is_Some (value_bytes d len x).
Proof.
  unfold attr_ok, value_ok, value_bytes. intros Hd [_ Hx].
  destruct (DataType_of_Z d) as [[]|]; try done. by destruct (stringV x).
Qed.

Lemma getAttr_run (r : RM_Record) (s : Schema) (k : nat) (d len : Z) :
  schema_ok s -> length (rec_data r) = Z.to_nat (record_size s) ->
  dataTypes s !! k = Some d -> typeLength s !! k = Some len ->
  getAttr r s (Z.of_nat k)
  = Done (RC_OK, value_read d
            (read_bytes (Z.to_nat (attr_offset s k)) (Z.to_nat len) (rec_data r)) value0).
Proof.
  intros Hs Hr Hd Hl. rewrite (getAttr_unfold r s k d len) by (done || apply Hs).
  destruct (attr_offset_bounds s k len Hs Hl) as (? & ? & ?).
  rewrite getAttr_case_ok; [done|by eapply schema_ok_attr|done|lia..].
Qed.

Lemma setAttr_run (r : RM_Record) (s : Schema) (k : nat) (d len : Z) (x : Value) :
  schema_ok s -> length (rec_data r) = Z.to_nat (record_size s) ->
  dataTypes s !! k = Some d -> typeLength s !! k = Some len -> value_ok d len x ->
  exists bs, value_bytes d len x = Some bs /\ length bs = Z.to_nat len /\
    setAttr r s (Z.of_nat k) x
    = Done (RC_OK, mkRecord (rec_id r)
              (write_bytes (Z.to_nat (attr_offset s k)) bs (rec_data r))).
Proof.
  intros Hs Hr Hd Hl Hx. pose proof (schema_ok_attr s k d len Hs Hd Hl) as Ha.
  destruct (value_ok_bytes d len x Ha Hx) as [bs Hbs]. exists bs.
  destruct (attr_offset_bounds s k len Hs Hl) as (? & ? & ?).
  destruct (setAttr_case_ok d len (attr_offset s k) (rec_data r) bs x) as [E ?];
    [done..|lia|].
  rewrite (setAttr_unfold r s k d len) by (done || apply Hs). by rewrite E.
Qed.

(** The bytes of attribute [j] survive a write of attribute [k]. *)
Lemma attr_bytes_frame (s : Schema) (j k : nat) (lj lk : Z) (bs data : list byte) :
  schema_ok s -> length data = Z.to_nat (record_size s) -> j <> k ->
  typeLength s !! j = Some lj -> typeLength s !! k = Some lk ->
  length bs = Z.to_nat lk ->
  read_bytes (Z.to_nat (attr_offset s j)) (Z.to_nat lj)
    (write_bytes (Z.to_nat (attr_offset s k)) bs data)
  = read_bytes (Z.to_nat (attr_offset s j)) (Z.to_nat lj) data.
Proof.
  intros Hs Hlen Hjk Hj Hk Hbs.
  destruct (attr_offset_bounds s j lj Hs Hj) as (? & ? & ?).
  destruct (attr_offset_bounds s k lk Hs Hk) as (? & ? & ?).
  destruct (decide (j < k)%nat).
  - pose proof (attr_offset_mono s j k lj Hs ltac:(lia) Hj).
    apply read_write_bytes_before; lia.
  - pose proof (attr_offset_mono s k j lk Hs ltac:(lia) Hk).
    apply read_write_bytes_after; lia.
Qed.

(** ** Lemmas: [createSchema] *)

Lemma filled_insert {A : Type} (i : nat) (a a0 : list A) (x : A) :
  a !! i = Some x -> (i < length a0)%nat ->
  <[i := x]> (filled i a a0) = filled (S i) a a0.
Proof.
  intros Ha Hi. unfold filled. apply lookup_lt_Some in Ha as Hlt.
  rewrite insert_app_r_alt by (rewrite length_take; lia).
  rewrite length_take, Nat.min_l, Nat.sub_diag by lia.
  destruct (lookup_lt_is_Some_2 a0 i Hi) as [y Hy].
  rewrite (drop_S _ _ _ Hy). cbn [insert list_insert].
  rewrite (take_S_r _ _ _ Ha). by rewrite <- app_assoc.
Qed.

Lemma filled_all {A : Type} (i : nat) (a a0 : list A) :
  length a = i -> length a0 = i -> filled i a a0 = a.
Proof.
  intros Ha H0. unfold filled. rewrite take_ge, drop_ge by lia. apply app_nil_r.
Qed.

Lemma filled_0 {A : Type} (a a0 : list A) : filled 0 a a0 = a0.
Proof. done. Qed.

Lemma length_schema_keys (n : nat) (keySize : Z) (keys : list Z) :
  (n `min` Z.to_nat keySize <= length keys)%nat ->
  length (schema_keys n keySize keys) = Z.to_nat keySize.
Proof. intros H. unfold schema_keys. len. Qed.

Lemma lookup_schema_keys (n i : nat) (keySize : Z) (keys : list Z) :
  (n `min` Z.to_nat keySize <= length keys)%nat ->
  (i < n `min` Z.to_nat keySize)%nat ->
  schema_keys n keySize keys !! i = keys !! i.
Proof.
  intros Hk H. unfold schema_keys.
  rewrite lookup_app_l by len. by rewrite lookup_take_lt.
Qed.

Lemma filled_schema_keys (n : nat) (keySize : Z) (keys : list Z) :
  (n `min` Z.to_nat keySize <= length keys)%nat ->
  filled (n `min` Z.to_nat keySize) (schema_keys n keySize keys)
    (replicate (Z.to_nat keySize) 0)
  = schema_keys n keySize keys.
Proof.
  intros H. unfold filled, schema_keys.
  rewrite take_app_length' by len. by rewrite drop_replicate.
Qed.

Lemma type_length_ok (d : Z) (lens : list Z) (k : nat) (len : Z) :
  known_type d -> lens !! k = Some len ->
  type_length d (lens !! k) = Done (stored_length d len).
Proof.
  intros [t Ht] Hl. unfold type_length, stored_length. rewrite Ht, Hl. by destruct t.
Qed.

(** One iteration of the loop of [createSchema]. *)
Lemma createSchema_step (n i : nat) (names : list (list byte)) (types lens : list Z)
    (kz : Z) (keys : list Z) :
  length names = length types -> length lens = length types ->
  Forall known_type types ->
  (length types `min` Z.to_nat kz <= length keys)%nat ->
  (i < length types)%nat ->
  createSchema_loop (S n) (Z.of_nat i) names types lens keys
    (schema_at i names types lens kz keys)
  = createSchema_loop n (Z.of_nat (S i)) names types lens keys
      (schema_at (S i) names types lens kz keys).
Proof.
  intros Hn Hl Hty Hk Hi. cbn [createSchema_loop]. rewrite Nat2Z.id.
  destruct (lookup_lt_is_Some_2 names i) as [name Hname]; [lia|].
  destruct (lookup_lt_is_Some_2 types i) as [d Hd]; [lia|].
  destruct (lookup_lt_is_Some_2 lens i) as [len Hlen]; [lia|].
  rewrite Hname, Hd. cbn [of_ptr obind].
  rewrite (type_length_ok d lens i len) by (done || by eapply Forall_lookup_1).
  replace (Z.of_nat i + 1) with (Z.of_nat (S i)) by lia.
  assert (Z.of_nat i < kz -> (i < length keys)%nat) as Hik by lia.
  unfold schema_at, set_typeLength, set_keyAttrs, set_dataTypes, set_attrNames.
  cbn [keySize numAttr attrNames dataTypes typeLength keyAttrs].
  destruct (Z.ltb_spec (Z.of_nat i) kz) as [Hlt|Hge].
  - destruct (lookup_lt_is_Some_2 keys i) as [key Hkey]; [auto|].
    rewrite Hkey. cbn [of_ptr obind keySize numAttr attrNames dataTypes typeLength keyAttrs].
    rewrite !Nat.min_l by lia.
    rewrite !filled_insert
      by first [rewrite length_replicate; lia
               |by rewrite ?lookup_zip_with, ?list_lookup_fmap, ?Hname, ?Hd, ?Hlen
               |by rewrite lookup_schema_keys by lia].
    done.
  - cbn [obind keySize numAttr attrNames dataTypes typeLength keyAttrs].
    rewrite !Nat.min_r by lia.
    rewrite !filled_insert
      by first [rewrite length_replicate; lia
               |by rewrite ?lookup_zip_with, ?list_lookup_fmap, ?Hname, ?Hd, ?Hlen].
    done.
Qed.

Lemma createSchema_loop_spec (n i : nat) (names : list (list byte)) (types lens : list Z)
    (keySize : Z) (keys : list Z) :
  length names = length types -> length lens = length types ->
  Forall known_type types ->
  (length types `min` Z.to_nat keySize <= length keys)%nat ->
  (i + n = length types)%nat ->
  createSchema_loop n (Z.of_nat i) names types lens keys
    (schema_at i names types lens keySize keys)
  = Done (schema_of names types lens keySize keys).
Proof.
  intros Hn Hl Hty Hk. revert i. induction n as [|n IH]; intros i Hi.
  - cbn [createSchema_loop]. f_equal. unfold schema_at, schema_of.
    replace i with (length types) by lia. rewrite filled_schema_keys by done.
    rewrite !filled_all; try done; rewrite ?length_replicate, ?length_fmap,
      ?length_zip_with; lia.
  - rewrite createSchema_step by (done || lia). apply IH. lia.
Qed.

(** ** Theorems *)

(** C33: getRecordSize returns the sum of the attribute lengths of a schema
    whose typeLength array has numAttr entries, reduced to 32 bits: the
    running sum is an int and wraps. *)
Theorem getRecordSize_sum (s : Schema) :
  length (typeLength s) = Z.to_nat (numAttr s) ->
  getRecordSize s = Done (int_wrap (record_size s)).
Proof.
  intros Hl. unfold getRecordSize.
  change 0 with (Z.of_nat 0) at 1. change 0 with (int_wrap 0).
  rewrite getRecordSize_loop_spec by (by rewrite Hl). by rewrite drop_0, Z.add_0_l.
Qed.

(** C8: setAttr followed by getAttr of the same attribute returns a value
    of the attribute's type whose bytes are those of the value written (the
    first typeLength bytes of the string, or of the union); the record keeps
    its id and its size. *)
Theorem setAttr_getAttr (r : RM_Record) (s : Schema) (k : nat) (d len : Z) (x : Value) :
  schema_ok s -> length (rec_data r) = Z.to_nat (record_size s) ->
  dataTypes s !! k = Some d -> typeLength s !! k = Some len -> value_ok d len x ->
  exists r' y,
    setAttr r s (Z.of_nat k) x = Done (RC_OK, r') /\
    getAttr r' s (Z.of_nat k) = Done (RC_OK, y) /\
    dt y = d /\ value_bytes d len y = value_bytes d len x /\
    rec_id r' = rec_id r /\ length (rec_data r') = length (rec_data r).
Proof.
  intros Hs Hr Hd Hl Hx.
  destruct (setAttr_run r s k d len x) as (bs & Hbs & Hlen & E); [done..|].
  destruct (attr_offset_bounds s k len Hs Hl) as (? & ? & ?).
  pose proof (schema_ok_attr s k d len Hs Hd Hl) as Ha.
  assert (length (write_bytes (Z.to_nat (attr_offset s k)) bs (rec_data r))
          = length (rec_data r)) as Hw by (apply length_write_bytes; lia).
  eexists _, _. split; [exact E|]. split.
  { apply getAttr_run; [done|cbn [rec_data]; congruence|done..]. }
  cbn [rec_data rec_id]. rewrite <- Hlen, read_write_bytes_same by lia.
  rewrite Hbs. split; [|split; [by apply value_bytes_read|done]].
  unfold value_read. by destruct (DataType_of_Z d) as [[]|].
Qed.

(** C22: setAttr of attribute k leaves every other attribute as it was:
    getAttr of j returns the same value before and after. *)
Theorem setAttr_other (r r' : RM_Record) (s : Schema) (j k : nat) (d len : Z) (x : Value) :
  schema_ok s -> length (rec_data r) = Z.to_nat (record_size s) ->
  dataTypes s !! k = Some d -> typeLength s !! k = Some len -> value_ok d len x ->
  (j < Z.to_nat (numAttr s))%nat -> j <> k ->
  setAttr r s (Z.of_nat k) x = Done (RC_OK, r') ->
  getAttr r' s (Z.of_nat j) = getAttr r s (Z.of_nat j).
Proof.
  intros Hs Hr Hd Hl Hx Hj Hjk E.
  destruct (setAttr_run r s k d len x) as (bs & Hbs & Hlen & E'); [done..|].
  assert (r' = mkRecord (rec_id r)
            (write_bytes (Z.to_nat (attr_offset s k)) bs (rec_data r))) as -> by congruence.
  destruct (schema_ok_lookup s j Hs Hj) as (dj & lj & Hdj & Hlj).
  destruct (attr_offset_bounds s k len Hs Hl) as (? & ? & ?).
  rewrite (getAttr_run _ s j dj lj), (getAttr_run r s j dj lj); try done.
  - cbn [rec_data]. by rewrite (attr_bytes_frame s j k lj len).
  - cbn [rec_data]. rewrite length_write_bytes; lia.
Qed.

(** C13: createSchema, given numAttr names, known types and lengths and
    the key indices, returns the schema with the names cut or NUL-padded to
    64 bytes, the types, the lengths (the given one for a string, 4 for an
    int or a float, 2 for a bool) and the first min(numAttr, keySize) keys. *)
Theorem createSchema_spec (names : list (list byte)) (types lens : list Z)
    (keySize : Z) (keys : list Z) :
  length names = length types -> length lens = length types ->
  Forall known_type types ->
  (length types `min` Z.to_nat keySize <= length keys)%nat ->
  createSchema (Z.of_nat (length types)) names types lens keySize keys
  = Done (schema_of names types lens keySize keys).
Proof.
  intros Hn Hl Hty Hk. unfold createSchema. rewrite Nat2Z.id.
  change 0 with (Z.of_nat 0). by apply (createSchema_loop_spec _ 0).
Qed.

(** GetAttr and setAttr of an attribute whose stored type is not one
    of the four data types stop at the assert of their switch. *)
Theorem getAttr_unknown_type (r : RM_Record) (s : Schema) (k : nat) (d len : Z) (x : Value) :
  length (typeLength s) = Z.to_nat (numAttr s) ->
  dataTypes s !! k = Some d -> typeLength s !! k = Some len ->
  DataType_of_Z d = None ->
  getAttr r s (Z.of_nat k) = Fault /\ setAttr r s (Z.of_nat k) x = Fault.
Proof.
  intros Hlen Hd Hl Hty.
  rewrite (getAttr_unfold r s k d len), (setAttr_unfold r s k d len) by done.
  unfold getAttr_case, setAttr_case. by rewrite Hty.
Qed.

(** C34: setAttr of a string attribute copies typeLength bytes from the
    value's buffer whatever the length of the string: with a buffer shorter
    than typeLength the copy reads past its end. *)
Theorem setAttr_short_string (r : RM_Record) (s : Schema) (k : nat) (len : Z)
    (x : Value) (str : list byte) :
  length (typeLength s) = Z.to_nat (numAttr s) ->
  dataTypes s !! k = Some (Z_of_DataType DT_STRING) -> typeLength s !! k = Some len ->
  stringV x = Some str -> Z.of_nat (length str) < len ->
  setAttr r s (Z.of_nat k) x = Fault.
Proof.
  intros Hlen Hd Hl Hx Hshort.
  rewrite (setAttr_unfold r s k _ len) by done.
  unfold setAttr_case. cbn [Z_of_DataType DataType_of_Z Z.eqb Pos.eqb].
  rewrite Hx. cbn [of_ptr obind]. rewrite mem_read_outside by lia. done.
Qed.

(** CreateRecord returns a record whose data has the size of the
    schema's records. *)
Theorem createRecord_spec (s : Schema) :
  schema_ok s ->
  exists r, createRecord s = Done (RC_OK, r) /\
    Z.of_nat (length (rec_data r)) = record_size s.
Proof.
  intros Hs. unfold createRecord. rewrite getRecordSize_ok by done. cbn [obind].
  eexists. split; [done|]. cbn [rec_data]. rewrite length_zero_bytes.
  pose proof (sum_Z_nonneg _ (schema_ok_nonneg s Hs)). unfold record_size. lia.
Qed.

(** ** The theorems at the schema (a : int, b : string[4], c : int) *)

Lemma getRecordSize_sum_witness :
  getRecordSize ex_schema = Done (int_wrap (record_size ex_schema)).
Proof. apply getRecordSize_sum. by_compute. Defined.

Lemma setAttr_getAttr_witness :
  exists r' y,
    setAttr ex_record ex_schema (Z.of_nat 1) (string_value "wxyz") = Done (RC_OK, r') /\
    getAttr r' ex_schema (Z.of_nat 1) = Done (RC_OK, y) /\
    dt y = 1 /\ value_bytes 1 4 y = value_bytes 1 4 (string_value "wxyz") /\
    rec_id r' = rec_id ex_record /\ length (rec_data r') = length (rec_data ex_record).
Proof. apply setAttr_getAttr; by_compute. Defined.

Lemma setAttr_other_witness :
  getAttr ex_record1 ex_schema (Z.of_nat 2) = getAttr ex_record ex_schema (Z.of_nat 2).
Proof.
  apply (setAttr_other ex_record ex_record1 ex_schema 2 1 1 4 (string_value "wxyz"));
    by_compute.
Defined.

Lemma createSchema_spec_witness :
  createSchema (Z.of_nat (length [0; 1; 0]))
    [bytes_of_string "a"; bytes_of_string "b"; bytes_of_string "c"] [0; 1; 0] [0; 4; 0] 1 [0]
  = Done (schema_of [bytes_of_string "a"; bytes_of_string "b"; bytes_of_string "c"]
            [0; 1; 0] [0; 4; 0] 1 [0]).
Proof. apply createSchema_spec; by_compute. Defined.

Lemma getAttr_unknown_type_witness :
  getAttr ex_record ex_bad_schema (Z.of_nat 0) = Fault /\
  setAttr ex_record ex_bad_schema (Z.of_nat 0) (int_value 5) = Fault.
Proof. apply (getAttr_unknown_type _ _ _ 7 4); by_compute. Defined.

Lemma setAttr_short_string_witness :
  setAttr ex_record ex_schema (Z.of_nat 1) (string_value "ab") = Fault.
Proof.
  apply (setAttr_short_string _ _ _ 4 _ (bytes_of_string "ab" ++ [x00])); by_compute.
Defined.

Lemma createRecord_spec_witness :
  exists r, createRecord ex_schema = Done (RC_OK, r) /\
    Z.of_nat (length (rec_data r)) = record_size ex_schema.
Proof. apply createRecord_spec. by_compute. Defined.

End REC.
