(* ===== verification/Pages.v ===== *)
(** * Pages: the bytes of a data page and of the table header

    [record_mgr.c] lays [RM_ScanTuple] over a page buffer: two [int]s (the
    links of the free-page list) and, from offset 8, slots of one tombstone
    byte and one record. This file has the functions on such a page that
    the record operations are made of ([findFreeSlot], the write, update,
    read and clearing of a slot, as [insertRecord], [updateRecord],
    [getRecord] and [deleteRecord] do them), and the header of a table: the
    page [createTable] builds from a schema and the parse [openTable] makes
    of it. Offsets are computed as the code computes them (the slot offset
    is an [int] product), and a copy that leaves the page is a fault.

    Theorems: the slots of a schema that [createTable] accepts lie side by
    side inside the page, behind the links; a record written to a slot is
    read back and nothing else changes; [findFreeSlot] is the first slot
    that is not live; the header page round-trips through the parse. *)

From Stdlib Require Import ZArith Lia Strings.Byte Strings.String.
From stdpp Require Import base option list numbers strings.
From S2P Require Import Prelude Records.
Open Scope Z_scope.
Open Scope outcome_scope.

Module PG.
Import REC.

(** ** Data pages *)

(** The bytes of a page left for slots: [PAGE_SIZE] less a [char], two
    [int]s and a NUL; it is a [size_t]. *)
Definition REC_SZ : Z := Z.of_nat PAGE_SIZE - (1 + 2 * 4 + 0).

(** [RM_ScanTuple] laid over a page: the offsets of its fields. *)
Definition OFFSET_next : Z := 0.
Definition OFFSET_prev : Z := 4.
Definition OFFSET_data : Z := 8.

(** An [int] read or written through a pointer into a buffer. *)
Definition get_int (off : Z) (buf : list byte) : outcome Z :=
  bs <- mem_read off 4 buf ;; Done (decode_int bs).

Definition put_int (off z : Z) (buf : list byte) : outcome (list byte) :=
  mem_write off (encode_int z) buf.

(** [REC_SZ / recSz]: the division is unsigned, and by zero it traps. *)
Definition slots_per_page (recSz : Z) : outcome Z :=
  if recSz =? 0 then Fault else Done (int_wrap (REC_SZ / size_t_wrap recSz)).

(** The address of a slot: [&dataPtr->data + slot * (recordSize + 1)],
    the product an [int]. *)
Definition slot_addr (slot recordSize : Z) : Z :=
  OFFSET_data + int_mul slot (int_add recordSize 1).

(** A slot is live when its tombstone, a [char], is positive. *)
Definition live (b : byte) : bool := 0 <? schar_of_byte b.

Fixpoint findFreeSlot_loop (n : nat) (i slotNo recSz : Z) (dataPtr : option (list byte))
    : outcome Z :=
  match n with
  | O => Done (-1)
  | S n' =>
      pg <- of_ptr dataPtr ;;
      b <- (if slotNo <? 0 then Fault else of_ptr (pg !! Z.to_nat slotNo)) ;;
      if live b then findFreeSlot_loop n' (i + 1) (slotNo + recSz) recSz dataPtr
      else Done i
  end.

Definition findFreeSlot (dataPtr : option (list byte)) (schema : Schema) : outcome Z :=
  sz <- getRecordSize schema ;;
  let recSz := int_add sz 1 in
  n <- slots_per_page recSz ;;
  findFreeSlot_loop (Z.to_nat n) 0 OFFSET_data recSz dataPtr.

(** The record written to a slot, and its tombstone set. *)
Definition write_slot (slot : Z) (schema : Schema) (data pg : list byte)
    : outcome (list byte) :=
  sz <- getRecordSize schema ;;
  let slotNo := slot_addr slot sz in
  recordSize <- getRecordSize schema ;;
  bs <- mem_read 0 recordSize data ;;
  pg <- mem_write (slotNo + 1) bs pg ;;
  mem_write slotNo [x01] pg.

(** The tombstone of a slot cleared. *)
Definition kill_slot (slot : Z) (schema : Schema) (pg : list byte) : outcome (list byte) :=
  sz <- getRecordSize schema ;;
  mem_write (slot_addr slot sz) [xff] pg.

(** The record of a slot overwritten, its tombstone left alone. *)
Definition update_slot (slot : Z) (schema : Schema) (data pg : list byte)
    : outcome (list byte) :=
  sz <- getRecordSize schema ;;
  let slotNo := slot_addr slot sz in
  recordSize <- getRecordSize schema ;;
  bs <- mem_read 0 recordSize data ;;
  mem_write (slotNo + 1) bs pg.

(** The record of a slot copied into the caller's buffer. *)
Definition read_slot (slot : Z) (schema : Schema) (pg data : list byte)
    : outcome (list byte) :=
  sz <- getRecordSize schema ;;
  let slotNo := slot_addr slot sz in
  recordSize <- getRecordSize schema ;;
  bs <- mem_read (slotNo + 1) recordSize pg ;;
  mem_write 0 bs data.

(** ** The table header *)

(** The loop of [createTable] over the attributes, [ofst] in [data]. *)
Fixpoint write_attrs (n : nat) (i ofst : Z) (schema : Schema) (data : list byte)
    : outcome (list byte) :=
  match n with
  | O => Done data
  | S n' =>
      let k := Z.to_nat i in
      name <- of_ptr (attrNames schema !! k) ;;
      data <- mem_write ofst (strncpy 64 name) data ;;
      d <- of_ptr (dataTypes schema !! k) ;;
      data <- put_int (ofst + 64) d data ;;
      len <- of_ptr (typeLength schema !! k) ;;
      data <- put_int (ofst + 68) len data ;;
      data <- (if i <? keySize schema
               then key <- of_ptr (keyAttrs schema !! k) ;; put_int (ofst + 72) key data
               else Done data) ;;
      write_attrs n' (i + 1) (ofst + 76) schema data
  end.

(** The page [createTable] writes: no record, no free page, the schema. *)
Definition header_page (schema : Schema) : outcome (list byte) :=
  let data := zero_bytes PAGE_SIZE in
  data <- put_int 0 0 data ;;
  data <- put_int 4 0 data ;;
  data <- put_int 8 (numAttr schema) data ;;
  data <- put_int 12 (keySize schema) data ;;
  write_attrs (Z.to_nat (numAttr schema)) 0 16 schema data.

(** [strncpy] from a pointer into the page. *)
Definition read_name (ofst : Z) (pg : list byte) : outcome (list byte) :=
  if (0 <=? ofst) && (ofst <? Z.of_nat (length pg))
  then Done (strncpy 64 (drop (Z.to_nat ofst) pg))
  else Fault.

(** The loop of [openTable] over the attributes. *)
Fixpoint read_attrs (n : nat) (i ofst : Z) (keySize : Z) (pg : list byte) (schema : Schema)
    : outcome Schema :=
  match n with
  | O => Done schema
  | S n' =>
      let k := Z.to_nat i in
      name <- read_name ofst pg ;;
      d <- get_int (ofst + 64) pg ;;
      len <- get_int (ofst + 68) pg ;;
      let s1 := set_typeLength <[k := len]>
                  (set_dataTypes <[k := d]> (set_attrNames <[k := name]> schema)) in
      s2 <- (if i <? keySize
             then key <- get_int (ofst + 72) pg ;; Done (set_keyAttrs <[k := key]> s1)
             else Done s1) ;;
      read_attrs n' (i + 1) (ofst + 76) keySize pg s2
  end.

(** What [openTable] reads from page 0: [recCnt], [initFreePg] and the
    schema. *)
Definition parse_header (pg : list byte) : outcome (Z * Z * Schema) :=
  recCnt <- get_int 0 pg ;;
  initFreePg <- get_int 4 pg ;;
  numAttrs <- get_int 8 pg ;;
  keySize <- get_int 12 pg ;;
  let n := Z.to_nat numAttrs in
  let schema := mkSchema numAttrs (replicate n (zero_bytes 64)) (replicate n 0)
                  (replicate n 0) (replicate (Z.to_nat keySize) 0) keySize in
  schema <- read_attrs n 0 16 keySize pg schema ;;
  Done (recCnt, initFreePg, schema).

(** ** Specification *)

(** A schema [createTable] accepts: well formed, with a record that fits
    a page beside its tombstone. *)
Definition table_schema (s : Schema) : Prop :=
  schema_ok s /\ record_size s + 1 <= REC_SZ.

(** The slots of a page. *)
Definition slots (s : Schema) : Z := REC_SZ / (record_size s + 1).

(** Where slot [k] starts, and the tombstone and the record in it. *)
Definition slot_start (s : Schema) (k : Z) : Z := OFFSET_data + k * (record_size s + 1).

Definition tombstone (s : Schema) (k : Z) (pg : list byte) : byte :=
  nth 0 (read_bytes (Z.to_nat (slot_start s k)) 1 pg) x00.

Definition record_at (s : Schema) (k : Z) (pg : list byte) : list byte :=
  read_bytes (Z.to_nat (slot_start s k + 1)) (Z.to_nat (record_size s)) pg.

(** The links of the free-page list, the eight bytes before the slots. *)
Definition links (pg : list byte) : list byte := read_bytes 0 8 pg.

(** A page with the tombstone or the record of slot [k] replaced. *)
Definition set_tombstone (s : Schema) (k : Z) (b : byte) (pg : list byte) : list byte :=
  write_bytes (Z.to_nat (slot_start s k)) [b] pg.

Definition set_record (s : Schema) (k : Z) (bs pg : list byte) : list byte :=
  write_bytes (Z.to_nat (slot_start s k + 1)) bs pg.

(** The first of the slots [k, k + n) that is not live. *)
Fixpoint first_free (n : nat) (s : Schema) (k : Z) (pg : list byte) : Z :=
  match n with
  | O => -1
  | S n' => if live (tombstone s k pg) then first_free n' s (k + 1) pg else k
  end.

#[export] Instance table_schema_dec (s : Schema) : Decision (table_schema s).
Proof. unfold table_schema. apply _. Defined.

(** ** The header page, in closed form *)

Definition key_at (s : Schema) (i : nat) : Z :=
  if Z.of_nat i <? keySize s then default 0 (keyAttrs s !! i) else 0.

(** The 76 bytes of attribute [i]. *)
Definition attr_bytes (s : Schema) (i : nat) : list byte :=
  default [] (attrNames s !! i) ++ encode_int (default 0 (dataTypes s !! i))
  ++ encode_int (default 0 (typeLength s !! i)) ++ encode_int (key_at s i).

Definition attrs_bytes (s : Schema) (i n : nat) : list byte :=
  concat (attr_bytes s <$> List.seq i n).

(** The header page of a table of [recCnt] records whose first free
    page is [initFreePg]. *)
Definition header_bytes (recCnt initFreePg : Z) (s : Schema) : list byte :=
  let n := Z.to_nat (numAttr s) in
  (encode_int recCnt ++ encode_int initFreePg ++ encode_int (numAttr s)
   ++ encode_int (keySize s))
  ++ attrs_bytes s 0 n ++ zero_bytes (PAGE_SIZE - 16 - 76 * n).

(** A schema that a header page holds: at most 53 attributes, names that
    are C strings in 64 bytes, [int]s in the arrays, no key past the
    attributes. *)
Definition header_schema (s : Schema) : Prop :=
  0 <= numAttr s <= 53 /\ in_int (keySize s) /\
  length (attrNames s) = Z.to_nat (numAttr s) /\
  length (dataTypes s) = Z.to_nat (numAttr s) /\
  length (typeLength s) = Z.to_nat (numAttr s) /\
  length (keyAttrs s) = Z.to_nat (keySize s) /\
  Forall (fun nm => strncpy 64 nm = nm) (attrNames s) /\
  Forall in_int (dataTypes s) /\ Forall in_int (typeLength s) /\
  Forall in_int (keyAttrs s) /\
  drop (Z.to_nat (numAttr s)) (keyAttrs s)
  = replicate (Z.to_nat (keySize s) - Z.to_nat (numAttr s)) 0.

#[export] Instance header_schema_dec (s : Schema) : Decision (header_schema s).
Proof. unfold header_schema. apply _. Defined.

(** The schema [openTable] has read after [i] attributes. *)
Definition schema_upto (s : Schema) (i : nat) : Schema :=
  let n := Z.to_nat (numAttr s) in
  let ks := Z.to_nat (keySize s) in
  mkSchema (numAttr s)
    (filled i (attrNames s) (replicate n (zero_bytes 64)))
    (filled i (dataTypes s) (replicate n 0))
    (filled i (typeLength s) (replicate n 0))
    (filled (i `min` ks) (keyAttrs s) (replicate ks 0))
    (keySize s).

(** ** Examples *)

(** An empty data page, and a record of the schema (a, b, c) of [Records]. *)
Definition ex_page : list byte := zero_bytes PAGE_SIZE.
Definition ex_data : list byte :=
  encode_int 7 ++ bytes_of_string "abcd" ++ encode_int 9.

(** ** Lemmas: slots *)

Lemma REC_SZ_eq : REC_SZ = 4087.
Proof. unfold REC_SZ. rewrite PAGE_SIZE_eq. reflexivity. Qed.

Lemma table_schema_size (s : Schema) :
  table_schema s -> 0 <= record_size s /\ record_size s + 1 <= 4087 /\
  getRecordSize s = Done (record_size s).
Proof.
  intros [Hs Hr]. rewrite REC_SZ_eq in Hr. split_and!; [|done|by apply getRecordSize_ok].
  apply sum_Z_nonneg, schema_ok_nonneg, Hs.
Qed.

Lemma slots_bounds (s : Schema) :
  table_schema s -> 1 <= slots s /\ slots s * (record_size s + 1) <= 4087.
Proof.
  intros (H0 & H1 & _)%table_schema_size. unfold slots. rewrite REC_SZ_eq.
  split; [apply Z.div_le_lower_bound; lia|].
  rewrite Z.mul_comm. apply Z.mul_div_le. lia.
Qed.

Lemma slots_per_page_ok (s : Schema) :
  table_schema s -> slots_per_page (int_add (record_size s) 1) = Done (slots s).
Proof.
  intros Hs. destruct (table_schema_size s Hs) as (H0 & H1 & _).
  destruct (slots_bounds s Hs) as [Hn Hm].
  unfold slots_per_page. rewrite int_add_small by (unfold in_int, INT_MIN, INT_MAX; lia).
  Ztest. f_equal. unfold size_t_wrap. rewrite Z.mod_small by lia.
  apply int_wrap_small. unfold in_int, INT_MIN, INT_MAX. fold (slots s). nia.
Qed.

(** A slot of the page lies inside it, behind the links. *)
Lemma slot_start_bounds (s : Schema) (k : Z) :
  table_schema s -> 0 <= k < slots s ->
  8 <= slot_start s k /\ 0 <= record_size s /\
  slot_start s k + record_size s + 1 <= 4095.
Proof.
  intros Hs Hk. destruct (table_schema_size s Hs) as (H0 & H1 & _).
  destruct (slots_bounds s Hs) as [Hn Hm]. unfold slot_start, OFFSET_data. nia.
Qed.

Lemma slot_addr_ok (s : Schema) (k : Z) :
  table_schema s -> 0 <= k < slots s -> slot_addr k (record_size s) = slot_start s k.
Proof.
  intros Hs Hk. destruct (table_schema_size s Hs) as (H0 & H1 & _).
  destruct (slots_bounds s Hs) as [Hn Hm]. unfold slot_addr, slot_start, int_mul.
  rewrite int_add_small by (unfold in_int, INT_MIN, INT_MAX; lia).
  rewrite int_wrap_small; [done|]. unfold in_int, INT_MIN, INT_MAX. nia.
Qed.

(** Two slots do not overlap. *)
Lemma slot_start_mono (s : Schema) (j k : Z) :
  table_schema s -> 0 <= j -> j < k ->
  slot_start s j + record_size s + 1 <= slot_start s k.
Proof.
  intros (H0 & _)%table_schema_size Hj Hjk. unfold slot_start. nia.
Qed.

(** ** Lemmas: reads and writes of a slot *)

Lemma read_write_bytes_apart (a n b : nat) (src pg : list byte) :
  (a + n <= b \/ b + length src <= a)%nat -> (b <= length pg)%nat ->
  read_bytes a n (write_bytes b src pg) = read_bytes a n pg.
Proof.
  intros [H|H] Hb; [by apply read_write_bytes_before|by apply read_write_bytes_after].
Qed.

Lemma lookup_tombstone (s : Schema) (k : Z) (pg : list byte) (b : byte) :
  pg !! Z.to_nat (slot_start s k) = Some b -> tombstone s k pg = b.
Proof.
  intros H. unfold tombstone, read_bytes.
  by rewrite (drop_S _ _ _ H), firstn_cons, take_0.
Qed.

(** Arithmetic on offsets in a page held by a section variable. *)
Ltac slot_lia := pose proof PAGE_SIZE_eq; lia.

Section slots.
Context (s : Schema) (Hs : table_schema s).
Context (pg : list byte) (Hpg : length pg = PAGE_SIZE).

Lemma length_set_tombstone (k : Z) (b : byte) :
  0 <= k < slots s -> length (set_tombstone s k b pg) = PAGE_SIZE.
Proof.
  intros Hk. destruct (slot_start_bounds s k Hs Hk). unfold set_tombstone.
  rewrite length_write_bytes; [done|]. cbn [length]. slot_lia.
Qed.

Lemma length_set_record (k : Z) (bs : list byte) :
  0 <= k < slots s -> length bs = Z.to_nat (record_size s) ->
  length (set_record s k bs pg) = PAGE_SIZE.
Proof.
  intros Hk Hbs. destruct (slot_start_bounds s k Hs Hk). unfold set_record.
  rewrite length_write_bytes; [done|]. slot_lia.
Qed.

Lemma tombstone_set_tombstone (k : Z) (b : byte) :
  0 <= k < slots s -> tombstone s k (set_tombstone s k b pg) = b.
Proof.
  intros Hk. destruct (slot_start_bounds s k Hs Hk). unfold tombstone, set_tombstone.
  change 1%nat with (length [b]) at 1. rewrite read_write_bytes_same; [done|slot_lia].
Qed.

Lemma tombstone_set_tombstone_ne (j k : Z) (b : byte) :
  0 <= j < slots s -> 0 <= k < slots s -> j <> k ->
  tombstone s j (set_tombstone s k b pg) = tombstone s j pg.
Proof.
  intros Hj Hk Hjk. destruct (slot_start_bounds s k Hs Hk).
  destruct (slot_start_bounds s j Hs Hj).
  unfold tombstone, set_tombstone. rewrite read_write_bytes_apart; [done| |slot_lia].
  cbn [length]. destruct (decide (j < k)).
  - pose proof (slot_start_mono s j k Hs). lia.
  - pose proof (slot_start_mono s k j Hs). lia.
Qed.

Lemma record_at_set_tombstone (j k : Z) (b : byte) :
  0 <= j < slots s -> 0 <= k < slots s ->
  record_at s j (set_tombstone s k b pg) = record_at s j pg.
Proof.
  intros Hj Hk. destruct (slot_start_bounds s k Hs Hk). destruct (slot_start_bounds s j Hs Hj).
  unfold record_at, set_tombstone. rewrite read_write_bytes_apart; [done| |slot_lia].
  cbn [length]. destruct (Z.lt_trichotomy j k) as [?|[->|?]].
  - pose proof (slot_start_mono s j k Hs). lia.
  - lia.
  - pose proof (slot_start_mono s k j Hs). lia.
Qed.

Lemma record_at_set_record (k : Z) (bs : list byte) :
  0 <= k < slots s -> length bs = Z.to_nat (record_size s) ->
  record_at s k (set_record s k bs pg) = bs.
Proof.
  intros Hk Hbs. destruct (slot_start_bounds s k Hs Hk). unfold record_at, set_record.
  rewrite <- Hbs. apply read_write_bytes_same. slot_lia.
Qed.

Lemma record_at_set_record_ne (j k : Z) (bs : list byte) :
  0 <= j < slots s -> 0 <= k < slots s -> j <> k ->
  length bs = Z.to_nat (record_size s) ->
  record_at s j (set_record s k bs pg) = record_at s j pg.
Proof.
  intros Hj Hk Hjk Hbs. destruct (slot_start_bounds s k Hs Hk).
  destruct (slot_start_bounds s j Hs Hj).
  unfold record_at, set_record. rewrite read_write_bytes_apart; [done| |slot_lia].
  destruct (decide (j < k)).
  - pose proof (slot_start_mono s j k Hs). lia.
  - pose proof (slot_start_mono s k j Hs). lia.
Qed.

Lemma tombstone_set_record (j k : Z) (bs : list byte) :
  0 <= j < slots s -> 0 <= k < slots s ->
  length bs = Z.to_nat (record_size s) ->
  tombstone s j (set_record s k bs pg) = tombstone s j pg.
Proof.
  intros Hj Hk Hbs. destruct (slot_start_bounds s k Hs Hk). destruct (slot_start_bounds s j Hs Hj).
  unfold tombstone, set_record. rewrite read_write_bytes_apart; [done| |slot_lia].
  destruct (Z.lt_trichotomy j k) as [?|[->|?]].
  - pose proof (slot_start_mono s j k Hs). lia.
  - lia.
  - pose proof (slot_start_mono s k j Hs). lia.
Qed.

Lemma links_set_tombstone (k : Z) (b : byte) :
  0 <= k < slots s -> links (set_tombstone s k b pg) = links pg.
Proof.
  intros Hk. destruct (slot_start_bounds s k Hs Hk). unfold links, set_tombstone.
  apply read_write_bytes_before; slot_lia.
Qed.

Lemma links_set_record (k : Z) (bs : list byte) :
  0 <= k < slots s -> links (set_record s k bs pg) = links pg.
Proof.
  intros Hk. destruct (slot_start_bounds s k Hs Hk). unfold links, set_record.
  apply read_write_bytes_before; slot_lia.
Qed.

End slots.

(** ** Lemmas: the operations on a slot, in closed form *)

Section slot_ops.
Context (s : Schema) (Hs : table_schema s).
Context (pg : list byte) (Hpg : length pg = PAGE_SIZE).
Context (k : Z) (Hk : 0 <= k < slots s).

Lemma write_slot_run (data : list byte) :
  (Z.to_nat (record_size s) <= length data)%nat ->
  write_slot k s data pg
  = Done (set_tombstone s k x01 (set_record s k (take (Z.to_nat (record_size s)) data) pg)).
Proof.
  intros Hd. destruct (table_schema_size s Hs) as (H0 & _ & Hsz).
  destruct (slot_start_bounds s k Hs Hk) as (? & _ & ?).
  unfold write_slot. rewrite Hsz. cbn [obind]. rewrite (slot_addr_ok s k Hs Hk).
  rewrite mem_read_ok by lia. cbn [obind]. unfold read_bytes. rewrite drop_0.
  rewrite mem_write_ok by (rewrite ?length_take; slot_lia). cbn [obind].
  rewrite mem_write_ok; [done|lia|].
  cbn [length]. fold (set_record s k (take (Z.to_nat (record_size s)) data) pg).
  rewrite length_set_record by (rewrite ?length_take; done || lia). slot_lia.
Qed.

Lemma update_slot_run (data : list byte) :
  (Z.to_nat (record_size s) <= length data)%nat ->
  update_slot k s data pg
  = Done (set_record s k (take (Z.to_nat (record_size s)) data) pg).
Proof.
  intros Hd. destruct (table_schema_size s Hs) as (H0 & _ & Hsz).
  destruct (slot_start_bounds s k Hs Hk) as (? & _ & ?).
  unfold update_slot. rewrite Hsz. cbn [obind]. rewrite (slot_addr_ok s k Hs Hk).
  rewrite mem_read_ok by lia. cbn [obind]. unfold read_bytes. rewrite drop_0.
  rewrite mem_write_ok by (rewrite ?length_take; slot_lia). done.
Qed.

Lemma kill_slot_run : kill_slot k s pg = Done (set_tombstone s k xff pg).
Proof.
  destruct (table_schema_size s Hs) as (H0 & _ & Hsz).
  destruct (slot_start_bounds s k Hs Hk) as (? & _ & ?).
  unfold kill_slot. rewrite Hsz. cbn [obind]. rewrite (slot_addr_ok s k Hs Hk).
  rewrite mem_write_ok; [done|lia|]. cbn [length]. slot_lia.
Qed.

Lemma read_slot_run (buf : list byte) :
  (Z.to_nat (record_size s) <= length buf)%nat ->
  read_slot k s pg buf
  = Done (record_at s k pg ++ drop (Z.to_nat (record_size s)) buf).
Proof.
  intros Hb. destruct (table_schema_size s Hs) as (H0 & _ & Hsz).
  destruct (slot_start_bounds s k Hs Hk) as (? & _ & ?).
  unfold read_slot. rewrite Hsz. cbn [obind]. rewrite (slot_addr_ok s k Hs Hk).
  rewrite mem_read_ok by slot_lia. cbn [obind]. fold (record_at s k pg).
  assert (length (record_at s k pg) = Z.to_nat (record_size s)) as Hlen
    by (apply length_read_bytes; slot_lia).
  rewrite mem_write_ok by lia. unfold write_bytes.
  by rewrite Z2Nat.inj_0, take_0, Nat.add_0_l, Hlen.
Qed.

End slot_ops.

(** ** Lemmas: [findFreeSlot] *)

Lemma findFreeSlot_loop_spec (s : Schema) (pg : list byte) (n : nat) (k : Z) :
  table_schema s -> length pg = PAGE_SIZE -> 0 <= k -> k + Z.of_nat n <= slots s ->
  findFreeSlot_loop n k (slot_start s k) (record_size s + 1) (Some pg)
  = Done (first_free n s k pg).
Proof.
  intros Hs Hpg. revert k. induction n as [|n IH]; intros k Hk Hn; [done|].
  cbn [findFreeSlot_loop first_free of_ptr obind].
  destruct (slot_start_bounds s k Hs ltac:(lia)) as (? & ? & ?). Ztest.
  destruct (lookup_lt_is_Some_2 pg (Z.to_nat (slot_start s k))) as [b Hb]; [slot_lia|].
  rewrite Hb, (lookup_tombstone s k pg b Hb). cbn [of_ptr obind].
  destruct (live b); [|done].
  replace (slot_start s k + (record_size s + 1)) with (slot_start s (k + 1))
    by (unfold slot_start; lia).
  apply IH; lia.
Qed.

Lemma findFreeSlot_run (s : Schema) (pg : list byte) :
  table_schema s -> length pg = PAGE_SIZE ->
  findFreeSlot (Some pg) s = Done (first_free (Z.to_nat (slots s)) s 0 pg).
Proof.
  intros Hs Hpg. destruct (table_schema_size s Hs) as (H0 & H1 & Hsz).
  destruct (slots_bounds s Hs). unfold findFreeSlot. rewrite Hsz. cbn [obind].
  rewrite slots_per_page_ok by done. cbn [obind].
  rewrite int_add_small by (unfold in_int, INT_MIN, INT_MAX; lia).
  change OFFSET_data with (slot_start s 0) at 1.
  - apply findFreeSlot_loop_spec; try done; lia.
Qed.

(** What [first_free] returns: the first slot that is not live, or -1
    when every slot is live. *)
Lemma first_free_spec (s : Schema) (pg : list byte) (n : nat) (k : Z) :
  0 <= k ->
  (first_free n s k pg = -1 \/
   k <= first_free n s k pg < k + Z.of_nat n /\
   live (tombstone s (first_free n s k pg) pg) = false) /\
  forall j, k <= j < (if decide (first_free n s k pg = -1) then k + Z.of_nat n
                      else first_free n s k pg) ->
    live (tombstone s j pg) = true.
Proof.
  revert k. induction n as [|n IH]; intros k Hk; cbn [first_free].
  - split; [by left|]. intros j. rewrite decide_True by done. lia.
  - destruct (live (tombstone s k pg)) eqn:E.
    + destruct (IH (k + 1)) as [Hr Hj]; [lia|].
      split; [destruct Hr as [?|[? ?]]; [by left|right; split; [lia|done]]|].
      intros j Hjk. destruct (decide (j = k)) as [->|]; [done|].
      apply Hj. destruct (decide (first_free n s (k + 1) pg = -1)); lia.
    + split; [right; split; [lia|done]|]. intros j. case_decide; lia.
Qed.

(** ** Lemmas: C strings *)

Lemma c_str_id (a : list byte) : x00 ∉ a -> c_str a = a.
Proof.
  induction a as [|b a IH]; [done|]. rewrite not_elem_of_cons. intros [Hb Ha].
  cbn [c_str]. rewrite decide_False by done. by rewrite IH.
Qed.

Lemma c_str_app (a b : list byte) :
  c_str (a ++ b) = if decide (x00 ∈ a) then c_str a else a ++ c_str b.
Proof.
  induction a as [|x a IH]; [by rewrite decide_False by apply not_elem_of_nil|].
  cbn [c_str app]. destruct (decide (x = x00)) as [->|Hx].
  - by rewrite decide_True by apply list_elem_of_here.
  - rewrite IH. destruct (decide (x00 ∈ a)) as [Ha|Ha].
    + by rewrite decide_True by (by apply list_elem_of_further).
    + rewrite decide_False; [done|]. rewrite not_elem_of_cons. done.
Qed.

Lemma length_strncpy (n : nat) (src : list byte) : length (strncpy n src) = n.
Proof. unfold strncpy. len. Qed.

(** A name that fills its buffer is read back whatever follows it. *)
Lemma strncpy_app (n : nat) (a b : list byte) :
  strncpy n a = a -> strncpy n (a ++ b) = a.
Proof.
  intros Ha. pose proof (length_strncpy n a) as Hn. rewrite Ha in Hn.
  unfold strncpy. rewrite c_str_app. case_decide as H0; [done|].
  rewrite <- app_assoc, take_app_length'; done.
Qed.

Lemma c_str_no_NUL (a : list byte) : x00 ∉ c_str a.
Proof.
  induction a as [|b a IH]; cbn [c_str]; [apply not_elem_of_nil|].
  case_decide; [apply not_elem_of_nil|]. rewrite not_elem_of_cons. done.
Qed.

Lemma c_str_zeros (n : nat) : c_str (replicate n x00) = [].
Proof. destruct n; [done|]. cbn [replicate c_str]. by rewrite decide_True. Qed.

Lemma strncpy_idemp (n : nat) (a : list byte) : strncpy n (strncpy n a) = strncpy n a.
Proof.
  pose proof (c_str_no_NUL a) as Hc.
  unfold strncpy at 2 3. destruct (decide (length (c_str a) < n)%nat) as [Hlt|Hge].
  - rewrite take_app_ge by lia. rewrite take_replicate. unfold strncpy.
    rewrite c_str_app, decide_False, c_str_zeros, app_nil_r by done.
    rewrite take_app_ge by lia. by rewrite take_replicate.
  - rewrite take_app_le by lia. unfold strncpy.
    rewrite c_str_id
      by (intros (i & Hi%list_elem_of_lookup_2 & _)%elem_of_take; done).
    rewrite take_app_le by (rewrite length_take; lia).
    by rewrite take_take, Nat.min_id.
Qed.

(** ** Lemmas: writing the header *)

Lemma mem_write_zeros (off : Z) (pre src : list byte) (m : nat) :
  off = Z.of_nat (length pre) -> (length src <= m)%nat ->
  mem_write off src (pre ++ zero_bytes m)
  = Done ((pre ++ src) ++ zero_bytes (m - length src)).
Proof.
  intros -> Hm. rewrite mem_write_ok by (rewrite ?length_app, ?length_zero_bytes; lia).
  f_equal. unfold write_bytes, zero_bytes. rewrite Nat2Z.id, take_app_length.
  rewrite drop_app_add', drop_replicate by done. by rewrite <- app_assoc.
Qed.

Lemma put_int_zeros (off z : Z) (pre : list byte) (m : nat) :
  off = Z.of_nat (length pre) -> (4 <= m)%nat ->
  put_int off z (pre ++ zero_bytes m) = Done ((pre ++ encode_int z) ++ zero_bytes (m - 4)).
Proof. intros. unfold put_int. by rewrite mem_write_zeros. Qed.

Lemma zero_bytes_split (m k : nat) :
  (k <= m)%nat -> zero_bytes m = zero_bytes k ++ zero_bytes (m - k).
Proof.
  intros H. unfold zero_bytes. rewrite <- replicate_add. f_equal. lia.
Qed.

Lemma attrs_bytes_S (s : Schema) (i n : nat) :
  attrs_bytes s i (S n) = attr_bytes s i ++ attrs_bytes s (S i) n.
Proof. done. Qed.

Lemma length_attr_bytes (s : Schema) (i : nat) :
  header_schema s -> (i < Z.to_nat (numAttr s))%nat -> length (attr_bytes s i) = 76%nat.
Proof.
  intros (_ & _ & Hn & _ & _ & _ & Hnm & _) Hi. unfold attr_bytes.
  destruct (lookup_lt_is_Some_2 (attrNames s) i) as [nm Hnm']; [lia|].
  rewrite Hnm'. cbn [from_option id]. rewrite !length_app, !length_encode_int.
  pose proof (length_strncpy 64 nm) as H64.
  rewrite (Forall_lookup_1 _ _ _ _ Hnm Hnm') in H64. by rewrite H64.
Qed.

(** One iteration of the loop of [createTable] writes the 76 bytes of
    the attribute over zeros. *)
Lemma write_attrs_step (s : Schema) (n i : nat) (pre : list byte) (m : nat) :
  header_schema s -> (i < Z.to_nat (numAttr s))%nat -> (76 <= m)%nat ->
  write_attrs (S n) (Z.of_nat i) (Z.of_nat (length pre)) s (pre ++ zero_bytes m)
  = write_attrs n (Z.of_nat (S i)) (Z.of_nat (length (pre ++ attr_bytes s i))) s
      ((pre ++ attr_bytes s i) ++ zero_bytes (m - 76)).
Proof.
  intros Hh Hi Hm. pose proof (length_attr_bytes s i Hh Hi) as Hlen.
  destruct Hh as (_ & _ & Hn & Hd & Hl & Hk & Hnm & _).
  cbn [write_attrs]. rewrite Nat2Z.id. unfold attr_bytes in *.
  destruct (lookup_lt_is_Some_2 (attrNames s) i) as [nm Hnm']; [lia|].
  destruct (lookup_lt_is_Some_2 (dataTypes s) i) as [d Hd']; [lia|].
  destruct (lookup_lt_is_Some_2 (typeLength s) i) as [l Hl']; [lia|].
  pose proof (Forall_lookup_1 _ _ _ _ Hnm Hnm') as Hfix.
  pose proof (length_strncpy 64 nm) as H64. rewrite Hfix in H64.
  rewrite Hnm', Hd', Hl' in *. cbn [of_ptr obind from_option id] in *. rewrite Hfix.
  rewrite mem_write_zeros by (done || lia). cbn [obind].
  rewrite put_int_zeros by (rewrite ?length_app; lia). cbn [obind].
  rewrite put_int_zeros by (rewrite ?length_app, ?length_encode_int; lia). cbn [obind].
  replace (Z.of_nat i + 1) with (Z.of_nat (S i)) by lia.
  replace (Z.of_nat (length pre) + 76)
    with (Z.of_nat (length (pre ++ nm ++ encode_int d ++ encode_int l
                              ++ encode_int (key_at s i)))) by (rewrite length_app; lia).
  unfold key_at. destruct (Z.ltb_spec (Z.of_nat i) (keySize s)) as [Hlt|Hge].
  - destruct (lookup_lt_is_Some_2 (keyAttrs s) i) as [key Hkey]; [lia|].
    rewrite Hkey. cbn [of_ptr obind from_option id].
    rewrite put_int_zeros by (rewrite ?length_app, ?length_encode_int; lia). cbn [obind].
    rewrite H64. replace (m - 64 - 4 - 4 - 4)%nat with (m - 76)%nat by lia.
    by rewrite <- !app_assoc.
  - cbn [obind]. rewrite H64.
    rewrite (zero_bytes_split (m - 64 - 4 - 4) 4) by lia.
    change (zero_bytes 4) with (encode_int 0).
    replace (m - 64 - 4 - 4 - 4)%nat with (m - 76)%nat by lia.
    by rewrite <- !app_assoc.
Qed.

Lemma write_attrs_spec (s : Schema) (n i : nat) (pre : list byte) (m : nat) :
  header_schema s -> (i + n <= Z.to_nat (numAttr s))%nat -> (76 * n <= m)%nat ->
  write_attrs n (Z.of_nat i) (Z.of_nat (length pre)) s (pre ++ zero_bytes m)
  = Done (pre ++ attrs_bytes s i n ++ zero_bytes (m - 76 * n)).
Proof.
  intros Hh. revert i pre m. induction n as [|n IH]; intros i pre m Hi Hm.
  - cbn [write_attrs]. change (attrs_bytes s i 0) with (@nil byte).
    by rewrite Nat.mul_0_r, Nat.sub_0_r.
  - rewrite write_attrs_step by (done || lia). rewrite IH by lia.
    replace (m - 76 - 76 * n)%nat with (m - 76 * S n)%nat by lia.
    by rewrite attrs_bytes_S, <- !app_assoc.
Qed.

Lemma header_page_run (s : Schema) :
  header_schema s -> header_page s = Done (header_bytes 0 0 s).
Proof.
  intros Hh. pose proof Hh as (Hn & _). unfold header_page, header_bytes.
  assert (PAGE_SIZE = 4096%nat) as HP by apply PAGE_SIZE_eq.
  change (zero_bytes PAGE_SIZE) with ([] ++ zero_bytes PAGE_SIZE).
  rewrite put_int_zeros by (done || lia). cbn [obind].
  rewrite (put_int_zeros 4) by (done || lia). cbn [obind].
  rewrite (put_int_zeros 8) by (done || lia). cbn [obind].
  rewrite (put_int_zeros 12) by (done || lia). cbn [obind].
  set (pre := ((([] ++ encode_int 0) ++ encode_int 0) ++ encode_int (numAttr s))
              ++ encode_int (keySize s)).
  pose proof (write_attrs_spec s (Z.to_nat (numAttr s)) 0 pre (PAGE_SIZE - 4 - 4 - 4 - 4)
                Hh ltac:(lia) ltac:(lia)) as E.
  change (Z.of_nat 0) with 0 in E. change (Z.of_nat (length pre)) with 16 in E.
  rewrite E. subst pre.
  replace (PAGE_SIZE - 4 - 4 - 4 - 4 - 76 * Z.to_nat (numAttr s))%nat
    with (PAGE_SIZE - 16 - 76 * Z.to_nat (numAttr s))%nat by lia.
  by rewrite app_nil_l, <- !app_assoc.
Qed.

(** ** Lemmas: reading the header *)

Lemma get_int_app (off z : Z) (pre rest : list byte) :
  off = Z.of_nat (length pre) ->
  get_int off (pre ++ encode_int z ++ rest) = Done (int_wrap z).
Proof.
  intros ->. unfold get_int.
  rewrite mem_read_ok by (rewrite ?length_app, ?length_encode_int; lia). cbn [obind].
  rewrite Nat2Z.id. unfold read_bytes. rewrite drop_app_length.
  change (Z.to_nat 4) with (length (encode_int z)). rewrite take_app_length.
  by rewrite decode_encode_int.
Qed.

Lemma read_name_app (off : Z) (pre nm rest : list byte) :
  off = Z.of_nat (length pre) -> strncpy 64 nm = nm ->
  read_name off (pre ++ nm ++ rest) = Done nm.
Proof.
  intros -> Hnm. pose proof (length_strncpy 64 nm) as H64. rewrite Hnm in H64.
  unfold read_name. rewrite !length_app, H64, Nat2Z.id. Ztest. cbn [andb].
  by rewrite drop_app_length, strncpy_app.
Qed.

Lemma schema_upto_all (s : Schema) :
  header_schema s -> schema_upto s (Z.to_nat (numAttr s)) = s.
Proof.
  intros (_ & _ & Hn & Hd & Hl & Hk & _ & _ & _ & _ & Hz). unfold schema_upto.
  rewrite !filled_all by (by rewrite ?length_replicate). destruct s as [n nm d l k ks].
  cbn [numAttr keySize keyAttrs attrNames dataTypes typeLength] in *. f_equal.
  unfold filled. destruct (decide (Z.to_nat n <= Z.to_nat ks)%nat).
  - rewrite Nat.min_l, drop_replicate, <- Hz by done. apply take_drop.
  - rewrite Nat.min_r, take_ge, drop_ge by (rewrite ?length_replicate; lia).
    apply app_nil_r.
Qed.

(** One iteration of the loop of [openTable] reads the 76 bytes of the
    attribute. *)
Lemma read_attrs_step (s : Schema) (n i : nat) (pre rest : list byte) :
  header_schema s -> (i < Z.to_nat (numAttr s))%nat ->
  read_attrs (S n) (Z.of_nat i) (Z.of_nat (length pre)) (keySize s)
    (pre ++ attr_bytes s i ++ rest) (schema_upto s i)
  = read_attrs n (Z.of_nat (S i)) (Z.of_nat (length (pre ++ attr_bytes s i))) (keySize s)
      (pre ++ attr_bytes s i ++ rest) (schema_upto s (S i)).
Proof.
  intros Hh Hi. pose proof (length_attr_bytes s i Hh Hi) as Hlen.
  destruct Hh as (_ & _ & Hn & Hd & Hl & Hk & Hnm & Hdi & Hli & Hki & _).
  cbn [read_attrs]. rewrite Nat2Z.id. rewrite length_app, Hlen.
  unfold attr_bytes in *.
  destruct (lookup_lt_is_Some_2 (attrNames s) i) as [nm Hnm']; [lia|].
  destruct (lookup_lt_is_Some_2 (dataTypes s) i) as [d Hd']; [lia|].
  destruct (lookup_lt_is_Some_2 (typeLength s) i) as [l Hl']; [lia|].
  pose proof (Forall_lookup_1 _ _ _ _ Hnm Hnm') as Hfix.
  pose proof (length_strncpy 64 nm) as H64. rewrite Hfix in H64.
  rewrite Hnm', Hd', Hl'. cbn [from_option id]. rewrite <- !app_assoc.
  rewrite read_name_app by done. cbn [obind].
  rewrite (app_assoc pre nm), get_int_app by (rewrite length_app; lia). cbn [obind].
  rewrite (app_assoc _ (encode_int d)), get_int_app
    by (rewrite !length_app, length_encode_int; lia). cbn [obind].
  rewrite (int_wrap_small d) by exact (Forall_lookup_1 _ _ _ _ Hdi Hd').
  rewrite (int_wrap_small l) by exact (Forall_lookup_1 _ _ _ _ Hli Hl').
  replace (Z.of_nat i + 1) with (Z.of_nat (S i)) by lia.
  replace (Z.of_nat (length pre) + 76) with (Z.of_nat (length pre + 76)) by lia.
  unfold key_at, schema_upto, set_typeLength, set_dataTypes, set_attrNames, set_keyAttrs.
  cbn [numAttr keySize keyAttrs attrNames dataTypes typeLength].
  rewrite !filled_insert by (done || rewrite length_replicate; lia).
  destruct (Z.ltb_spec (Z.of_nat i) (keySize s)) as [Hlt|Hge].
  - destruct (lookup_lt_is_Some_2 (keyAttrs s) i) as [key Hkey]; [lia|].
    rewrite Hkey. cbn [from_option id].
    rewrite (app_assoc _ (encode_int l)), get_int_app
      by (rewrite !length_app, !length_encode_int; lia). cbn [obind].
    rewrite (int_wrap_small key) by exact (Forall_lookup_1 _ _ _ _ Hki Hkey).
    cbn [numAttr keySize keyAttrs attrNames dataTypes typeLength].
    rewrite !Nat.min_l by lia.
    rewrite filled_insert by (done || rewrite length_replicate; lia).
    by rewrite <- !app_assoc.
  - cbn [obind]. by rewrite !Nat.min_r by lia.
Qed.

Lemma read_attrs_spec (s : Schema) (n i : nat) (pre rest : list byte) :
  header_schema s -> (i + n = Z.to_nat (numAttr s))%nat ->
  read_attrs n (Z.of_nat i) (Z.of_nat (length pre)) (keySize s)
    (pre ++ attrs_bytes s i n ++ rest) (schema_upto s i)
  = Done s.
Proof.
  intros Hh. revert i pre. induction n as [|n IH]; intros i pre Hi.
  - cbn [read_attrs]. f_equal. rewrite Nat.add_0_r in Hi. subst i.
    by apply schema_upto_all.
  - rewrite attrs_bytes_S, <- app_assoc, read_attrs_step by (done || lia).
    rewrite (app_assoc pre). apply IH. lia.
Qed.

Lemma header_bytes_fields (recCnt initFreePg : Z) (s : Schema) :
  let pg := header_bytes recCnt initFreePg s in
  get_int 0 pg = Done (int_wrap recCnt) /\ get_int 4 pg = Done (int_wrap initFreePg) /\
  get_int 8 pg = Done (int_wrap (numAttr s)) /\ get_int 12 pg = Done (int_wrap (keySize s)).
Proof.
  unfold header_bytes. cbv zeta. rewrite <- !app_assoc. split_and!.
  - exact (get_int_app 0 recCnt [] _ eq_refl).
  - exact (get_int_app 4 initFreePg (encode_int recCnt) _ eq_refl).
  - rewrite (app_assoc (encode_int recCnt)). by apply get_int_app.
  - rewrite (app_assoc (encode_int recCnt)), (app_assoc _ (encode_int (numAttr s))).
    by apply get_int_app.
Qed.

Lemma parse_header_run (recCnt initFreePg : Z) (s : Schema) :
  header_schema s -> in_int recCnt -> in_int initFreePg ->
  parse_header (header_bytes recCnt initFreePg s) = Done (recCnt, initFreePg, s).
Proof.
  intros Hh Hc Hf. pose proof Hh as (Hn & Hk & _). unfold parse_header.
  destruct (header_bytes_fields recCnt initFreePg s) as (-> & -> & -> & ->).
  cbn [obind]. rewrite !int_wrap_small by (done || unfold in_int, INT_MIN, INT_MAX; lia).
  pose proof (read_attrs_spec s (Z.to_nat (numAttr s)) 0
                ((encode_int recCnt ++ encode_int initFreePg ++ encode_int (numAttr s)
                 ++ encode_int (keySize s)))
                (zero_bytes (PAGE_SIZE - 16 - 76 * Z.to_nat (numAttr s))) Hh ltac:(lia)) as E.
  change (Z.of_nat 0) with 0 in E.
  change (Z.of_nat (length _)) with 16 in E. unfold schema_upto in E.
  rewrite !filled_0 in E. unfold header_bytes. by rewrite E.
Qed.

Lemma length_attrs_bytes (s : Schema) (i n : nat) :
  header_schema s -> (i + n <= Z.to_nat (numAttr s))%nat ->
  length (attrs_bytes s i n) = (76 * n)%nat.
Proof.
  intros Hh. revert i. induction n as [|n IH]; intros i Hi; [done|].
  rewrite attrs_bytes_S, length_app, IH, length_attr_bytes by (done || lia). lia.
Qed.

Lemma length_header_bytes (recCnt initFreePg : Z) (s : Schema) :
  header_schema s -> length (header_bytes recCnt initFreePg s) = PAGE_SIZE.
Proof.
  intros Hh. pose proof Hh as (Hn & _). unfold header_bytes.
  rewrite !length_app, !length_encode_int, length_zero_bytes, length_attrs_bytes
    by (done || lia). slot_lia.
Qed.

(** The record count is the first [int] of the header. *)
Lemma put_recCnt (c c' f : Z) (s : Schema) :
  header_schema s -> put_int 0 c' (header_bytes c f s) = Done (header_bytes c' f s).
Proof.
  intros Hh. pose proof (length_header_bytes c f s Hh). unfold put_int.
  rewrite mem_write_ok by (rewrite ?length_encode_int; slot_lia).
  unfold header_bytes, write_bytes. by rewrite <- !app_assoc.
Qed.

(** ** Theorems *)

(** C10: the header page round-trips. For a schema that fits a header (at
    most 53 attributes, names that are C strings in 64 bytes), the page
    createTable builds is a whole page from which the parse of openTable
    reads no record, no free page and the same schema. *)
Theorem parse_header_header_page (s : Schema) :
  header_schema s ->
  exists pg, header_page s = Done pg /\ length pg = PAGE_SIZE /\
    parse_header pg = Done (0, 0, s).
Proof.
  intros Hh. exists (header_bytes 0 0 s). split; [by apply header_page_run|].
  split; [by apply length_header_bytes|]. by apply parse_header_run.
Qed.

(** C9: a record written to a slot is read back, the slot is live, and
    nothing else on the page changes: the other slots keep their tombstone
    and their record, and the links of the free-page list their value. *)
Theorem write_slot_read_slot (s : Schema) (pg data buf : list byte) (k : Z) :
  table_schema s -> length pg = PAGE_SIZE -> 0 <= k < slots s ->
  length data = Z.to_nat (record_size s) -> length buf = Z.to_nat (record_size s) ->
  exists pg', write_slot k s data pg = Done pg' /\ length pg' = PAGE_SIZE /\
    read_slot k s pg' buf = Done data /\ live (tombstone s k pg') = true /\
    links pg' = links pg /\
    forall j, 0 <= j < slots s -> j <> k ->
      tombstone s j pg' = tombstone s j pg /\ record_at s j pg' = record_at s j pg.
Proof.
  intros Hs Hpg Hk Hd Hb. exists (set_tombstone s k x01 (set_record s k data pg)).
  split; [rewrite write_slot_run by (done || lia); by rewrite take_ge by lia|].
  assert (length (set_record s k data pg) = PAGE_SIZE) as Hr by (by apply length_set_record).
  assert (length (set_tombstone s k x01 (set_record s k data pg)) = PAGE_SIZE) as Ht
    by (by apply length_set_tombstone).
  split; [done|].
  split; [|split; [by rewrite tombstone_set_tombstone|split]].
  - rewrite read_slot_run by (done || lia).
    rewrite record_at_set_tombstone, record_at_set_record by done.
    by rewrite drop_ge, app_nil_r by lia.
  - by rewrite links_set_tombstone, links_set_record.
  - intros j Hj Hjk. rewrite tombstone_set_tombstone_ne, record_at_set_tombstone by done.
    by rewrite tombstone_set_record, record_at_set_record_ne.
Qed.

(** C11: findFreeSlot returns the first slot of the page whose tombstone
    is not positive, and -1 when every slot is live. *)
Theorem findFreeSlot_spec (s : Schema) (pg : list byte) :
  table_schema s -> length pg = PAGE_SIZE ->
  exists r, findFreeSlot (Some pg) s = Done r /\
    (r = -1 \/ 0 <= r < slots s /\ live (tombstone s r pg) = false) /\
    forall j, 0 <= j < (if decide (r = -1) then slots s else r) ->
      live (tombstone s j pg) = true.
Proof.
  intros Hs Hpg. eexists. split; [by apply findFreeSlot_run|].
  destruct (slots_bounds s Hs).
  destruct (first_free_spec s pg (Z.to_nat (slots s)) 0 ltac:(done)) as [Hr Hj].
  rewrite Z2Nat.id, Z.add_0_l in Hr, Hj by lia. done.
Qed.

(** C23: deleting a slot makes it free and touches nothing else: its
    tombstone is -1, the bytes of its record stay where they were (getRecord
    still returns them), and findFreeSlot finds a slot at or before it. *)
Theorem kill_slot_spec (s : Schema) (pg : list byte) (k : Z) :
  table_schema s -> length pg = PAGE_SIZE -> 0 <= k < slots s ->
  exists pg' r, kill_slot k s pg = Done pg' /\ length pg' = PAGE_SIZE /\
    tombstone s k pg' = xff /\ record_at s k pg' = record_at s k pg /\
    links pg' = links pg /\
    findFreeSlot (Some pg') s = Done r /\ 0 <= r <= k.
Proof.
  intros Hs Hpg Hk. eexists _, _. split; [by apply kill_slot_run|].
  assert (length (set_tombstone s k xff pg) = PAGE_SIZE) as Hl
    by (by apply length_set_tombstone).
  rewrite findFreeSlot_run, tombstone_set_tombstone, record_at_set_tombstone,
    links_set_tombstone by done.
  destruct (slots_bounds s Hs).
  destruct (first_free_spec s (set_tombstone s k xff pg) (Z.to_nat (slots s)) 0 ltac:(done))
    as [Hr Hj].
  rewrite Z2Nat.id, Z.add_0_l in Hr, Hj by lia.
  specialize (Hj k). rewrite tombstone_set_tombstone in Hj by done.
  destruct Hr as [Hr|[Hr _]];
    [rewrite Hr, decide_True in Hj by done; by specialize (Hj Hk)|].
  rewrite decide_False in Hj by lia.
  split_and!; try done; try lia.
  apply Z.nlt_ge. intros Hlt. by specialize (Hj ltac:(lia)).
Qed.

(** UpdateRecord's write replaces the record of the slot whatever its
    tombstone says, and leaves the tombstone as it was. *)
Theorem update_slot_spec (s : Schema) (pg data : list byte) (k : Z) :
  table_schema s -> length pg = PAGE_SIZE -> 0 <= k < slots s ->
  length data = Z.to_nat (record_size s) ->
  exists pg', update_slot k s data pg = Done pg' /\ length pg' = PAGE_SIZE /\
    record_at s k pg' = data /\ tombstone s k pg' = tombstone s k pg /\
    links pg' = links pg.
Proof.
  intros Hs Hpg Hk Hd. exists (set_record s k data pg).
  split; [rewrite update_slot_run by (done || lia); by rewrite take_ge by lia|].
  split_and!; [by apply length_set_record|by apply record_at_set_record
              |by apply tombstone_set_record|by apply links_set_record].
Qed.

(** No operation on a slot checks the slot number: the address of a slot
    past the end of the page is computed like any other, and the write of
    its tombstone leaves the buffer. *)
Theorem kill_slot_outside (s : Schema) (pg : list byte) (k : Z) :
  table_schema s -> length pg = PAGE_SIZE ->
  4096 <= slot_addr k (record_size s) \/ slot_addr k (record_size s) < 0 ->
  kill_slot k s pg = Fault.
Proof.
  intros Hs Hpg Hk. destruct (table_schema_size s Hs) as (_ & _ & Hsz).
  unfold kill_slot. rewrite Hsz. cbn [obind].
  apply mem_write_outside. cbn [length]. slot_lia.
Qed.

(** ** The theorems at the schema (a : int, b : string[4], c : int) *)

Lemma parse_header_header_page_witness :
  exists pg, header_page ex_schema = Done pg /\ length pg = PAGE_SIZE /\
    parse_header pg = Done (0, 0, ex_schema).
Proof. apply parse_header_header_page. by_compute. Defined.

Lemma write_slot_read_slot_witness :
  exists pg', write_slot 2 ex_schema ex_data ex_page = Done pg' /\ length pg' = PAGE_SIZE /\
    read_slot 2 ex_schema pg' (zero_bytes 12) = Done ex_data /\
    live (tombstone ex_schema 2 pg') = true /\
    links pg' = links ex_page /\
    forall j, 0 <= j < slots ex_schema -> j <> 2 ->
      tombstone ex_schema j pg' = tombstone ex_schema j ex_page /\
      record_at ex_schema j pg' = record_at ex_schema j ex_page.
Proof. apply write_slot_read_slot; by_compute. Defined.

Lemma findFreeSlot_spec_witness :
  exists r, findFreeSlot (Some ex_page) ex_schema = Done r /\
    (r = -1 \/ 0 <= r < slots ex_schema /\ live (tombstone ex_schema r ex_page) = false) /\
    forall j, 0 <= j < (if decide (r = -1) then slots ex_schema else r) ->
      live (tombstone ex_schema j ex_page) = true.
Proof. apply findFreeSlot_spec; by_compute. Defined.

Lemma kill_slot_spec_witness :
  exists pg' r, kill_slot 3 ex_schema ex_page = Done pg' /\ length pg' = PAGE_SIZE /\
    tombstone ex_schema 3 pg' = xff /\
    record_at ex_schema 3 pg' = record_at ex_schema 3 ex_page /\
    links pg' = links ex_page /\
    findFreeSlot (Some pg') ex_schema = Done r /\ 0 <= r <= 3.
Proof. apply kill_slot_spec; by_compute. Defined.

Lemma update_slot_spec_witness :
  exists pg', update_slot 3 ex_schema ex_data ex_page = Done pg' /\
    length pg' = PAGE_SIZE /\
    record_at ex_schema 3 pg' = ex_data /\
    tombstone ex_schema 3 pg' = tombstone ex_schema 3 ex_page /\
    links pg' = links ex_page.
Proof. apply update_slot_spec; by_compute. Defined.

Lemma kill_slot_outside_witness : kill_slot 400 ex_schema ex_page = Fault.
Proof. apply kill_slot_outside; [by_compute|by_compute|left; by vm_compute]. Defined.

End PG.
