(* ===== verification/RecordMgr.v ===== *)
(** * RecordMgr: the record manager, as the code has it

    Every function of [record_mgr.c] that touches a table, on the pool of
    [BufferMgr] and the files of [Storage]: [createTable], [openTable],
    [closeTable], [deleteTable], [getNumTuples], [insertRecord],
    [deleteRecord], [updateRecord], [getRecord], [startScan], [next] and
    [closeScan]. The state of a table is [RM_MgmtData_Table]: the counters
    and the table's own buffer pool; a function takes the table and the
    disk and returns both. The return codes of the buffer manager are
    dropped where the code drops them.

    [dataPtr] and the [data] of a page handle are pointers into the pool's
    buffers: [peek] reads the page one points to, [poke] writes through it,
    so two handles on the same page share its bytes. The long branches of
    [insertRecord] are definitions of their own ([place], [add_page],
    [push_free], [pop_full]), composed as the code composes them.

    [evalExpr] is outside the repository: an expression is the function it
    evaluates to. The loop of [next] runs on fuel, the number of records
    between the cursor and [recCnt], which is what the loop can visit
    before it stops. The theorems are in [Table]. *)

From Stdlib Require Import ZArith Lia Strings.Byte Strings.String.
From stdpp Require Import base option list numbers strings gmap.
From S2P Require Import Prelude Storage BufferMgr Records Pages.
Open Scope Z_scope.
Open Scope outcome_scope.

Module RM.
Import REC PG.

(** ** Data *)

(** The management data of an open table: the pool is the table's own. *)
Record RM_MgmtData_Table : Type := mkTable {
  recCnt : Z;
  initFreePg : Z;
  bm : BM.Pool;
  h : BM.BM_PageHandle
}.

Record RM_TableData : Type := mkTableData {
  name : option string;
  schema : option Schema;
  mgmtData : option RM_MgmtData_Table
}.

(** A condition is known by what [evalExpr] makes of it: the [boolV] of
    its result on a record. *)
Definition Expr : Type := RM_Record -> Schema -> bool.

Record RM_MgmtData_Scan : Type := mkScan {
  rid : RID;
  recScanCnt : Z;
  cond : option Expr;
  dataPtr : option nat;
  scan_h : BM.BM_PageHandle
}.

(** [rel] points to the table; the operations on a scan take the table
    it points to and return it. *)
Record RM_ScanHandle : Type := mkScanHandle {
  scan_mgmtData : option RM_MgmtData_Scan
}.

Definition set_recCnt (v : Z) (td : RM_MgmtData_Table) : RM_MgmtData_Table :=
  mkTable v (initFreePg td) (bm td) (h td).
Definition set_initFreePg (v : Z) (td : RM_MgmtData_Table) : RM_MgmtData_Table :=
  mkTable (recCnt td) v (bm td) (h td).
Definition set_bm (v : BM.Pool) (td : RM_MgmtData_Table) : RM_MgmtData_Table :=
  mkTable (recCnt td) (initFreePg td) v (h td).
Definition set_h (v : BM.BM_PageHandle) (td : RM_MgmtData_Table) : RM_MgmtData_Table :=
  mkTable (recCnt td) (initFreePg td) (bm td) v.

(** ** Calls into the pool

    The record manager drops the return codes of the buffer manager. *)

(** A page handle or a pool before anything is stored in it. *)
Definition h0 : BM.BM_PageHandle := BM.mkPageHandle 0 None.
Definition bm0 : BM.Pool := BM.mkPool (BM.mkBufferPool None 0 BM.RS_FIFO None) [] [].

Definition pin (p : BM.Pool) (pg : BM.BM_PageHandle) (pn : Z) (w : SM.World)
    : outcome (BM.Pool * BM.BM_PageHandle) :=
  r <- BM.pinPage (Some p) (Some pg) pn w ;;
  let '(_, op, opg) := r in
  Done (default p op, default pg opg).

Definition unpin (p : BM.Pool) (pg : BM.BM_PageHandle) (w : SM.World)
    : outcome (BM.Pool * SM.World) :=
  r <- BM.unpinPage (Some p) (Some pg) w ;;
  let '(_, op, w') := r in
  Done (default p op, w').

Definition mark (p : BM.Pool) (pg : BM.BM_PageHandle) : outcome BM.Pool :=
  r <- BM.markDirty (Some p) (Some pg) ;;
  Done (default p (snd r)).

(** The page a pointer into the pool's buffers points to, and a write
    through it. *)
Definition peek (p : BM.Pool) (d : option nat) : outcome (list byte) :=
  of_ptr (BM.buffer (BM.bufs p) d).

Definition poke (d : option nat) (g : list byte -> outcome (list byte)) (p : BM.Pool)
    : outcome BM.Pool :=
  pg <- peek p d ;;
  pg' <- g pg ;;
  Done (BM.set_bufs (BM.put_buffer d (Some pg') (BM.bufs p)) p).

Definition peek_int (p : BM.Pool) (d : option nat) (off : Z) : outcome Z :=
  pg <- peek p d ;; get_int off pg.

(** ** Tables *)

Definition initRecordManager (w : SM.World) : RC * SM.World :=
  (RC_OK, SM.initStorageManager w).

Definition shutdownRecordManager : RC := RC_OK.

Definition createTable (name : string) (schema : Schema) (w : SM.World)
    : outcome (RC * SM.World) :=
  let recLen := int_add 16 (int_mul 76 (numAttr schema)) in
  if Z.of_nat PAGE_SIZE <? recLen then Done (RC_RM_LARGE_SCHEMA, w)
  else
    sz <- getRecordSize schema ;;
    let recLen := int_add sz 1 in
    if REC_SZ <? size_t_wrap recLen then Done (RC_RM_LARGE_RECORD, w)
    else
      data <- header_page schema ;;
      let '(_, w) := SM.createPageFile (Some name) w in
      let fh := default (SM.mkHandle None 0 0 None)
                  (snd (SM.openPageFile (Some name) (Some (SM.mkHandle None 0 0 None)) w)) in
      r <- SM.writeBlock 0 (Some fh) (Some data) w ;;
      let '(_, ofh, w) := r in
      _ <- SM.closePageFile ofh ;;
      Done (RC_OK, w).

Definition openTable (rel : RM_TableData) (name : string) (w : SM.World)
    : outcome (RC * RM_TableData * SM.World) :=
  r <- BM.initBufferPool (Some bm0) (Some name) 1000 BM.RS_FIFO w ;;
  let p := default bm0 (snd r) in
  r <- pin p h0 0 w ;;
  let '(p, h) := r in
  pg <- peek p (BM.data h) ;;
  hd <- parse_header pg ;;
  let '(recCnt, initFreePg, schema) := hd in
  r <- unpin p h w ;;
  let '(p, w) := r in
  Done (RC_OK, mkTableData (Some name) (Some schema) (Some (mkTable recCnt initFreePg p h)), w).

Definition closeTable (rel : RM_TableData) (w : SM.World)
    : outcome (RC * RM_TableData * SM.World) :=
  td <- of_ptr (mgmtData rel) ;;
  r <- pin (bm td) (h td) 0 w ;;
  let '(p, h) := r in
  p <- mark p h ;;
  p <- poke (BM.data h) (put_int 0 (recCnt td)) p ;;
  r <- unpin p h w ;;
  let '(p, w) := r in
  r <- BM.shutdownBufferPool (Some p) w ;;
  let '(_, _, w) := r in
  _ <- of_ptr (schema rel) ;;
  Done (RC_OK, mkTableData (name rel) None None, w).

Definition deleteTable (name : string) (w : SM.World) : RC * SM.World :=
  (RC_OK, snd (SM.destroyPageFile name w)).

Definition getNumTuples (rel : RM_TableData) : outcome Z :=
  td <- of_ptr (mgmtData rel) ;;
  Done (recCnt td).

(** ** The list of pages with a free slot *)

(** A page with a free slot put at the head of the list: the code of
    [insertRecord] and [deleteRecord] when the page has room. *)
Definition push_free (page : Z) (dataPtr : option nat) (td : RM_MgmtData_Table)
    (w : SM.World) : outcome (RM_MgmtData_Table * SM.World) :=
  if initFreePg td =? 0 then
    p <- poke dataPtr (put_int OFFSET_prev page) (bm td) ;;
    p <- poke dataPtr (put_int OFFSET_next page) p ;;
    Done (set_initFreePg page (set_bm p td), w)
  else
    r <- pin (bm td) h0 (initFreePg td) w ;;
    let '(p, h) := r in
    p <- mark p h ;;
    p <- poke (BM.data h) (put_int OFFSET_prev page) p ;;
    r <- unpin p h w ;;
    let '(p, w) := r in
    p <- poke dataPtr (put_int OFFSET_next (initFreePg td)) p ;;
    p <- poke dataPtr (put_int OFFSET_prev 0) p ;;
    Done (set_initFreePg page (set_bm p td), w).

(** One neighbour pinned, a link of it set, and unpinned. *)
Definition relink (pn off v : Z) (p : BM.Pool) (w : SM.World)
    : outcome (BM.Pool * SM.World) :=
  r <- pin p h0 pn w ;;
  let '(p, h) := r in
  p <- mark p h ;;
  p <- poke (BM.data h) (put_int off v) p ;;
  unpin p h w.

Definition clear_links (dataPtr : option nat) (p : BM.Pool) : outcome BM.Pool :=
  p <- poke dataPtr (put_int OFFSET_prev 0) p ;;
  poke dataPtr (put_int OFFSET_next 0) p.

(** A page that has become full taken off the list. *)
Definition pop_full (page : Z) (dataPtr : option nat) (td : RM_MgmtData_Table)
    (w : SM.World) : outcome (RM_MgmtData_Table * SM.World) :=
  next <- peek_int (bm td) dataPtr OFFSET_next ;;
  prev <- peek_int (bm td) dataPtr OFFSET_prev ;;
  if page =? initFreePg td then
    if next =? 0 then
      p <- poke dataPtr (put_int OFFSET_prev 0) (bm td) ;;
      Done (set_initFreePg 0 (set_bm p td), w)
    else
      r <- relink next OFFSET_prev 0 (bm td) w ;;
      let '(p, w) := r in
      next <- peek_int p dataPtr OFFSET_next ;;
      p <- clear_links dataPtr p ;;
      Done (set_initFreePg next (set_bm p td), w)
  else if next =? 0 then
    r <- relink prev OFFSET_next 0 (bm td) w ;;
    let '(p, w) := r in
    p <- clear_links dataPtr p ;;
    Done (set_bm p td, w)
  else if negb (prev =? 0) then
    r <- pin (bm td) h0 prev w ;;
    let '(p, h) := r in
    r <- pin p h0 next w ;;
    let '(p, h2) := r in
    p <- mark p h ;;
    p <- mark p h2 ;;
    next <- peek_int p dataPtr OFFSET_next ;;
    p <- poke (BM.data h) (put_int OFFSET_next next) p ;;
    prev <- peek_int p dataPtr OFFSET_prev ;;
    p <- poke (BM.data h2) (put_int OFFSET_prev prev) p ;;
    r <- unpin p h w ;;
    let '(p, w) := r in
    r <- unpin p h2 w ;;
    let '(p, w) := r in
    p <- clear_links dataPtr p ;;
    Done (set_bm p td, w)
  else Done (td, w).

(** ** Records *)

(** A page appended to the file of the pool and pinned: the new page is
    the record's, its slot 0. The flag is false when the append fails. *)
Definition add_page (td : RM_MgmtData_Table) (rid : RID) (w : SM.World)
    : outcome (bool * RM_MgmtData_Table * RID * SM.World) :=
  md <- of_ptr (BM.mgmtData (BM.bm (bm td))) ;;
  let '(rc, ofh, w) := SM.appendEmptyBlock (Some (BM.fHandle md)) w in
  let fh := default (BM.fHandle md) ofh in
  let td := set_bm (BM.set_mgmtData (BM.set_fHandle fh md) (bm td)) td in
  if decide (rc = RC_OK) then
    let page := int_sub (SM.totalNumPages fh) 1 in
    r <- pin (bm td) (h td) page w ;;
    let '(p, h) := r in
    Done (true, set_h h (set_bm p td), mkRID page 0, w)
  else Done (false, td, rid, w).

(** The page and the slot [insertRecord] gives the record. *)
Definition place (td : RM_MgmtData_Table) (schema : Schema) (rid : RID) (w : SM.World)
    : outcome (bool * RM_MgmtData_Table * RID * SM.World) :=
  if initFreePg td =? 0 then add_page td rid w
  else
    let page := initFreePg td in
    r <- pin (bm td) (h td) page w ;;
    let '(p, h) := r in
    slot <- findFreeSlot (BM.buffer (BM.bufs p) (BM.data h)) schema ;;
    if slot =? -1 then
      r <- unpin p h w ;;
      let '(p, w) := r in
      add_page (set_h h (set_bm p td)) (mkRID page slot) w
    else Done (true, set_h h (set_bm p td), mkRID page slot, w).

Definition insertRecord (rel : RM_TableData) (record : RM_Record) (w : SM.World)
    : outcome (RC * RM_TableData * RM_Record * SM.World) :=
  td <- of_ptr (mgmtData rel) ;;
  s <- of_ptr (schema rel) ;;
  placed <- place td s (rec_id record) w ;;
  let '(ok, td, rid, w) := placed in
  if negb ok then
    Done (RC_RM_INSERT_FAILED, mkTableData (name rel) (schema rel) (Some td),
          mkRecord rid (rec_data record), w)
  else
    let dataPtr := BM.data (h td) in
    p <- mark (bm td) (h td) ;;
    p <- poke dataPtr (write_slot (slot rid) s (rec_data record)) p ;;
    let td := set_bm p td in
    free <- findFreeSlot (BM.buffer (BM.bufs p) dataPtr) s ;;
    r <- (if negb (free =? -1) then push_free (page rid) dataPtr td w
          else pop_full (page rid) dataPtr td w) ;;
    let '(td, w) := r in
    r <- unpin (bm td) (h td) w ;;
    let '(p, w) := r in
    let td := set_recCnt (int_add (recCnt td) 1) (set_bm p td) in
    Done (RC_OK, mkTableData (name rel) (schema rel) (Some td),
          mkRecord rid (rec_data record), w).

Definition deleteRecord (rel : RM_TableData) (id : RID) (w : SM.World)
    : outcome (RC * RM_TableData * SM.World) :=
  td <- of_ptr (mgmtData rel) ;;
  if (page id =? -1) || (slot id =? -1) then Done (RC_RM_DELETE_FAILED, rel, w)
  else
    r <- pin (bm td) (h td) (page id) w ;;
    let '(p, h) := r in
    let dataPtr := BM.data h in
    s <- of_ptr (schema rel) ;;
    p <- mark p h ;;
    p <- poke dataPtr (kill_slot (slot id) s) p ;;
    r <- push_free (page id) dataPtr (set_h h (set_bm p td)) w ;;
    let '(td, w) := r in
    r <- unpin (bm td) (RM.h td) w ;;
    let '(p, w) := r in
    let td := set_recCnt (int_sub (recCnt td) 1) (set_bm p td) in
    Done (RC_OK, mkTableData (name rel) (schema rel) (Some td), w).

Definition updateRecord (rel : RM_TableData) (record : RM_Record) (w : SM.World)
    : outcome (RC * RM_TableData * SM.World) :=
  td <- of_ptr (mgmtData rel) ;;
  let rid := rec_id record in
  if (page rid =? -1) || (slot rid =? -1) then Done (RC_RM_UPDATE_FAILED, rel, w)
  else
    r <- pin (bm td) (h td) (page rid) w ;;
    let '(p, h) := r in
    s <- of_ptr (schema rel) ;;
    p <- mark p h ;;
    p <- poke (BM.data h) (update_slot (slot rid) s (rec_data record)) p ;;
    r <- unpin p h w ;;
    let '(p, w) := r in
    Done (RC_OK, mkTableData (name rel) (schema rel) (Some (set_h h (set_bm p td))), w).

Definition getRecord (rel : RM_TableData) (id : RID) (record : RM_Record) (w : SM.World)
    : outcome (RC * RM_TableData * RM_Record * SM.World) :=
  td <- of_ptr (mgmtData rel) ;;
  if (page id =? -1) || (slot id =? -1) then Done (RC_RM_UPDATE_FAILED, rel, record, w)
  else
    r <- pin (bm td) (h td) (page id) w ;;
    let '(p, h) := r in
    s <- of_ptr (schema rel) ;;
    pg <- peek p (BM.data h) ;;
    data <- read_slot (slot id) s pg (rec_data record) ;;
    r <- unpin p h w ;;
    let '(p, w) := r in
    Done (RC_OK, mkTableData (name rel) (schema rel) (Some (set_h h (set_bm p td))),
          mkRecord id data, w).

(** ** Scans *)

Definition startScan (rel : RM_TableData) (scan : RM_ScanHandle) (cond : option Expr)
    : RC * RM_ScanHandle :=
  (RC_OK, mkScanHandle (Some (mkScan (mkRID (-1) (-1)) 0 cond None h0))).

(** The table of a scan with its pool replaced. *)
Definition with_pool (p : BM.Pool) (rel : RM_TableData) (td : RM_MgmtData_Table)
    : RM_TableData :=
  mkTableData (name rel) (schema rel) (Some (set_bm p td)).

(** Where the cursor goes: to page 1 at the start, to the next slot, or
    to the next page after the last slot of one. [None] ends the scan. *)
Definition advance (sd : RM_MgmtData_Scan) (td : RM_MgmtData_Table) (s : Schema)
    (p : BM.Pool) (w : SM.World)
    : outcome (option RM_MgmtData_Scan * BM.Pool * SM.World) :=
  if recScanCnt sd =? 0 then
    r <- pin p (scan_h sd) 1 w ;;
    let '(p, h) := r in
    Done (Some (mkScan (mkRID 1 0) (recScanCnt sd) (cond sd) (BM.data h) h), p, w)
  else if recScanCnt sd =? recCnt td then
    r <- unpin p (scan_h sd) w ;;
    let '(p, w) := r in
    Done (None, p, w)
  else
    sz <- getRecordSize s ;;
    totSlots <- slots_per_page (int_add sz 1) ;;
    let slot := int_add (slot (rid sd)) 1 in
    if slot =? totSlots then
      let page := int_add (page (rid sd)) 1 in
      r <- pin p (scan_h sd) page w ;;
      let '(p, h) := r in
      Done (Some (mkScan (mkRID page 0) (recScanCnt sd) (cond sd) (BM.data h) h), p, w)
    else
      Done (Some (mkScan (mkRID (page (rid sd)) slot) (recScanCnt sd) (cond sd)
                    (dataPtr sd) (scan_h sd)), p, w).

(** The loop of [next]; [fuel] bounds the records it may skip. *)
Fixpoint next_loop (fuel : nat) (sd : RM_MgmtData_Scan) (td : RM_MgmtData_Table)
    (s : Schema) (record : RM_Record) (p : BM.Pool) (w : SM.World)
    : outcome (RC * RM_MgmtData_Scan * RM_Record * BM.Pool * SM.World) :=
  r <- advance sd td s p w ;;
  let '(osd, p, w) := r in
  match osd with
  | None =>
      Done (RC_RM_NO_MORE_TUPLES,
            mkScan (mkRID (-1) (-1)) 0 (cond sd) None (scan_h sd), record, p, w)
  | Some sd =>
      pg <- peek p (dataPtr sd) ;;
      data <- read_slot (slot (rid sd)) s pg (rec_data record) ;;
      let record := mkRecord (rid sd) data in
      let sd := mkScan (rid sd) (int_add (recScanCnt sd) 1) (cond sd) (dataPtr sd)
                  (scan_h sd) in
      match cond sd with
      | None => Done (RC_OK, sd, record, p, w)
      | Some e =>
          if e record s then Done (RC_OK, sd, record, p, w)
          else
            match fuel with
            | O => Diverge
            | S fuel' => next_loop fuel' sd td s record p w
            end
      end
  end.

Definition next (scan : RM_ScanHandle) (rel : RM_TableData) (record : RM_Record)
    (w : SM.World)
    : outcome (RC * RM_ScanHandle * RM_TableData * RM_Record * SM.World) :=
  sd <- of_ptr (scan_mgmtData scan) ;;
  td <- of_ptr (mgmtData rel) ;;
  if recCnt td =? 0 then Done (RC_RM_NO_MORE_TUPLES, scan, rel, record, w)
  else
    s <- of_ptr (schema rel) ;;
    r <- next_loop (Z.to_nat ((recCnt td - recScanCnt sd) mod 4294967296)) sd td s record
           (bm td) w ;;
    let '(rc, sd, record, p, w) := r in
    Done (rc, mkScanHandle (Some sd), with_pool p rel td, record, w).

Definition closeScan (scan : RM_ScanHandle) (rel : RM_TableData) (w : SM.World)
    : outcome (RC * RM_ScanHandle * RM_TableData * SM.World) :=
  sd <- of_ptr (scan_mgmtData scan) ;;
  td <- of_ptr (mgmtData rel) ;;
  r <- (if 0 <? recScanCnt sd then unpin (bm td) (scan_h sd) w else Done (bm td, w)) ;;
  let '(p, w) := r in
  Done (RC_OK, mkScanHandle None, with_pool p rel td, w).

End RM.
