(* ===== verification/Table.v ===== *)
(** * Table: the record manager at work

    A client of [RecordMgr]: a table is created, opened, and a list of
    calls is made on it ([run_tb_ops]); a scan is [startScan], some calls
    of [next] and [closeScan]. The observations of a session are the
    replies of the calls, the counters of the table, the links of the
    free-page list on disk and the first free slot of each page.

    The scenarios of the specification on the record manager are theorems
    about such sessions, and so are the behaviours that the session shows
    and the specification does not expect: a full page that stays on the
    free-page list, a free slot that the list loses, a delete that counts
    twice, a free-page list forgotten by [closeTable], a scan that returns
    a deleted record, and a scan that leaves a page pinned. Sessions run on
    the pool of 1000 frames that [openTable] makes; a schema with records of
    2004 bytes gives pages of two slots. *)

From Stdlib Require Import ZArith Lia Strings.Byte Strings.String.
From stdpp Require Import base option list numbers strings gmap.
From S2P Require Import Prelude Storage BufferMgr Records Pages RecordMgr.
Open Scope Z_scope.
Open Scope outcome_scope.

Module TB.
Import REC PG RM.

(** ** A client of the record manager *)












(** ** Example schemas and records *)







(** ** Scans, and closing a table *)






(** ** Theorems: the scenarios *)










End TB.
